(** * Screen Teacher (explain.py): a shallow embedding and its properties

    The program is a single Streamlit script.  Its state lives in
    [st.session_state]; it talks to three outside services (the Gemini
    model, a translation client and a speech synthesiser).  The embedding
    below keeps the script's own names:

    - Python [str] values are sequences of Unicode code points,
    - [st.session_state] is a record with one field per key,
    - every call that leaves the process is answered by an environment
      that sees the history of earlier calls, and is recorded in a trace,
    - Python exceptions are results of a small state-and-exception monad.

    What the script only shows on the page ([st.error], [st.warning],
    [st.spinner], the widgets) changes no state and is left out, and so are
    [time.sleep] and the [st.rerun()] that ends a pass. *)

From Stdlib Require Import List NArith Bool Arith Lia String Ascii.
Import ListNotations.

Set Implicit Arguments.

(** ** Python strings *)

Module PyStr.

(** A Python [str]: a list of code points. *)
Abbreviation char := N (only parsing).
Abbreviation pystr := (list N) (only parsing).

(** Decoding of the UTF-8 bytes of a literal into code points, so that the
    literals of the script can be written as they are. *)
Fixpoint utf8_decode (l : list N) : pystr :=
  match l with
  | [] => []
  | b :: t =>
      if (b <? 128)%N then b :: utf8_decode t
      else if (b <? 224)%N then
        match t with
        | b2 :: t2 => ((b - 192) * 64 + (b2 - 128))%N :: utf8_decode t2
        | _ => []
        end
      else if (b <? 240)%N then
        match t with
        | b2 :: b3 :: t3 =>
            ((b - 224) * 4096 + (b2 - 128) * 64 + (b3 - 128))%N :: utf8_decode t3
        | _ => []
        end
      else
        match t with
        | b2 :: b3 :: b4 :: t4 =>
            ((b - 240) * 262144 + (b2 - 128) * 4096 + (b3 - 128) * 64 + (b4 - 128))%N
              :: utf8_decode t4
        | _ => []
        end
  end.

Definition py (s : string) : pystr :=
  utf8_decode (map N_of_ascii (list_ascii_of_string s)).

Definition char_eqb (a b : char) : bool := N.eqb a b.

Fixpoint str_eqb (a b : pystr) : bool :=
  match a, b with
  | [], [] => true
  | x :: a', y :: b' => char_eqb x y && str_eqb a' b'
  | _, _ => false
  end.

(** [s.startswith(p)] *)
Fixpoint startswith (p s : pystr) : bool :=
  match p, s with
  | [], _ => true
  | x :: p', y :: s' => char_eqb x y && startswith p' s'
  | _ :: _, [] => false
  end.

(** [sub in s] *)
Fixpoint contains (sub s : pystr) : bool :=
  startswith sub s ||
  match s with
  | [] => false
  | _ :: t => contains sub t
  end.

(** [s.replace(old, new)]: the occurrences of [old] are found from the left
    and do not overlap.  [skip] counts the characters of a matched
    occurrence that are still to be dropped. *)
Fixpoint replace_from (old new : pystr) (skip : nat) (s : pystr) : pystr :=
  match s with
  | [] => []
  | c :: t =>
      match skip with
      | S k => replace_from old new k t
      | O =>
          if startswith old s
          then new ++ replace_from old new (List.length old - 1) t
          else c :: replace_from old new 0 t
      end
  end.

Definition replace (s old new : pystr) : pystr :=
  match old with
  | [] => new ++ flat_map (fun c => c :: new) s
  | _ :: _ => replace_from old new 0 s
  end.

(** [str.isspace] for one character, the set used by [split()] and
    [strip()] without arguments. *)
Definition isspace (c : char) : bool :=
  ((9 <=? c) && (c <=? 13) || (28 <=? c) && (c <=? 32)
   || (c =? 133) || (c =? 160) || (c =? 5760)
   || (8192 <=? c) && (c <=? 8202)
   || (c =? 8232) || (c =? 8233) || (c =? 8239) || (c =? 8287)
   || (c =? 12288))%N.

(** [s.split()]: the maximal runs of characters that are not white space. *)
Fixpoint split (s : pystr) : list pystr :=
  match s with
  | [] => []
  | c :: t =>
      if isspace c then split t
      else
        match t with
        | [] => [[c]]
        | d :: _ =>
            if isspace d then [c] :: split t
            else
              match split t with
              | w :: ws => (c :: w) :: ws
              | [] => [[c]]
              end
        end
  end.

(** [sep.join(l)] *)
Fixpoint join (sep : pystr) (l : list pystr) : pystr :=
  match l with
  | [] => []
  | [w] => w
  | w :: ws => w ++ sep ++ join sep ws
  end.

Fixpoint lstrip (s : pystr) : pystr :=
  match s with
  | [] => []
  | c :: t => if isspace c then lstrip t else s
  end.

(** [s.strip()] *)
Definition strip (s : pystr) : pystr := rev (lstrip (rev (lstrip s))).

(** Truth value of a string: [if s:] *)
Definition truthy (s : pystr) : bool :=
  match s with [] => false | _ :: _ => true end.

End PyStr.
Import PyStr.

(** The characters that cannot be written inside a literal here. *)
Definition NEWLINE : pystr := [10%N].
Definition DQUOTE : pystr := [34%N].

(** ** The text cleaner *)

(** Lines 122-135 of [clean_text_for_speech]: every substitution that comes
    before the plus and minus signs are spelled out.  The empty string is
    written [[]]. *)
Definition symbol_substitutions (text : pystr) : pystr :=
  let text := replace (replace text NEWLINE (py " ")) (py "  ") (py " ") in
  let text := replace (replace text (py "**") []) (py "*") [] in
  let text := replace (replace text (py "`") []) (py "~") [] in
  let text := replace (replace text (py "(") []) (py ")") [] in
  let text := replace (replace text (py "[") []) (py "]") [] in
  let text := replace (replace text (py "{") []) (py "}") [] in
  let text := replace text (py "&") (py " and ") in
  let text := replace text (py "%") (py " percent ") in
  let text := replace text (py "=") (py " equals ") in
  let text := replace text (py "≈") (py " approximately ") in
  let text := replace text (py "∝") (py " proportional to ") in
  let text := replace text (py "×") (py " multiplied by ") in
  let text := replace text (py "÷") (py " divided by ") in
  let text := replace text (py "°") (py " degrees ") in
  text.

(** [clean_text_for_speech] on a [str] argument. *)
Definition clean_text_for_speech (text : pystr) : pystr :=
  let text := symbol_substitutions text in
  let text := replace (replace text (py "+") (py " plus ")) (py "-") (py " minus ") in
  let text := join (py " ") (split text) in
  text.

(** ** Exceptions, results and [str.format] *)

Inductive Exc : Type :=
| ValueError (msg : pystr)
| IndexError (msg : pystr)
| KeyError (key : pystr)
| ExternalError (msg : pystr).

(** [str(e)] *)
Definition exc_str (e : Exc) : pystr :=
  match e with
  | ValueError msg | IndexError msg | ExternalError msg => msg
  | KeyError key => py "'" ++ key ++ py "'"
  end.

Inductive Res (A : Type) : Type :=
| Ok (a : A)
| Raise (e : Exc).
Arguments Ok {A} a.
Arguments Raise {A} e.

Definition res_map {A B} (f : A -> B) (r : Res A) : Res B :=
  match r with
  | Ok a => Ok (f a)
  | Raise e => Raise e
  end.

Fixpoint lookup_kwarg (name : pystr) (kwargs : list (pystr * pystr)) : option pystr :=
  match kwargs with
  | [] => None
  | (k, v) :: rest => if str_eqb k name then Some v else lookup_kwarg name rest
  end.

Definition LBRACE : char := 123%N.
Definition RBRACE : char := 125%N.

(** A replacement field of [str.format]: an empty name takes the next
    positional argument, any other name is looked up among the keyword
    arguments.  (Numbered fields, attribute access, conversions and format
    specifications do not occur in the script's templates.) *)
Definition format_field (args : list pystr) (kwargs : list (pystr * pystr))
    (auto : nat) (name : pystr) : Res pystr :=
  match name with
  | [] =>
      match nth_error args auto with
      | Some v => Ok v
      | None =>
          Raise (IndexError
                   (py "Replacement index 0 out of range for positional args tuple"))
      end
  | _ :: _ =>
      match lookup_kwarg name kwargs with
      | Some v => Ok v
      | None => Raise (KeyError name)
      end
  end.

(** [template.format] with positional and keyword arguments, read from the
    left.  [field] is
    [Some name] while the characters of a replacement field are collected. *)
Fixpoint format_from (args : list pystr) (kwargs : list (pystr * pystr))
    (auto : nat) (field : option pystr) (s : pystr) {struct s} : Res pystr :=
  match s with
  | [] =>
      match field with
      | None => Ok []
      | Some _ => Raise (ValueError (py "expected '}' before end of string"))
      end
  | c :: t =>
      match field with
      | Some name =>
          if char_eqb c RBRACE then
            match format_field args kwargs auto name with
            | Ok v =>
                res_map (app v)
                  (format_from args kwargs
                     (match name with [] => S auto | _ => auto end) None t)
            | Raise e => Raise e
            end
          else format_from args kwargs auto (Some (name ++ [c])) t
      | None =>
          if char_eqb c LBRACE then
            match t with
            | d :: t' =>
                if char_eqb d LBRACE
                then res_map (cons LBRACE) (format_from args kwargs auto None t')
                else format_from args kwargs auto (Some []) t
            | [] => Raise (ValueError (py "Single '{' encountered in format string"))
            end
          else if char_eqb c RBRACE then
            match t with
            | d :: t' =>
                if char_eqb d RBRACE
                then res_map (cons RBRACE) (format_from args kwargs auto None t')
                else Raise (ValueError (py "Single '}' encountered in format string"))
            | [] => Raise (ValueError (py "Single '}' encountered in format string"))
            end
          else res_map (cons c) (format_from args kwargs auto None t)
      end
  end.

Definition format (template : pystr) (args : list pystr)
    (kwargs : list (pystr * pystr)) : Res pystr :=
  format_from args kwargs 0 None template.

(** ** Prompts *)

Definition EXPLAIN_PROMPT_BASE : pystr := Eval vm_compute in
  (py "
You are a helpful teacher explaining concepts verbally. Your response will be directly converted to text-to-speech.

Analyze the provided content (image or text) and explain it clearly and concisely.

**Crucial Formatting Rules for TTS:**
1.  **Speak Naturally:** Use plain, conversational language ONLY.
2.  **No Markdown/Special Chars:** Absolutely NO markdown (*, **, ~, `, #, etc.).
3.  **Spell Out Symbols:** Write 'plus' not +, 'equals' not =, 'percent' not %, 'degrees' not °, 'multiplied by' not *, 'divided by' not /.
4.  **Numbers:** Write 'one hundred twenty three' or '123', but ensure surrounding text makes it speakable (e.g., '100 percent').
5.  **No Grouping Symbols:** Avoid parentheses (), brackets [], braces {}. Rephrase sentences if necessary.
6.  **Simple Sentences:** Break down complex ideas.
7.  **Abbreviations:** Spell out acronyms or abbreviations the first time (e.g., 'National Aeronautics and Space Administration, NASA').
8.  **Clarity First:** Ensure the final text flows well when read aloud.

Explain the core concepts or information present.
").

Definition READ_PROMPT_IMAGE : pystr := Eval vm_compute in
  (py "
Examine this screenshot carefully. Identify and extract ONLY the most prominent or most recent text content.

*   If it's a chat, extract ONLY the latest message or turn.
*   If it's an article or document, extract the main body text you see.
*   If specific text is clearly highlighted or seems to be the focus, extract ONLY that highlighted text.

**CRITICAL:** Return ONLY the extracted text. Do NOT add any commentary, descriptions, introductions, or formatting like quotes or labels. Just the raw text found. If no text is clear, return nothing.
").

Definition READ_PROMPT_TEXT : pystr := Eval vm_compute in
  (py "
Read the following text exactly as it is. Apply minimal cleaning ONLY if needed for basic readability (e.g., merging broken lines that are clearly part of the same sentence).

**CRITICAL:** Do NOT add any commentary, descriptions, introductions, or formatting. Just return the text provided.
").

Definition FOLLOW_UP_PROMPT : pystr := Eval vm_compute in
  (py "
You are a helpful teacher explaining concepts verbally. Your response will be directly converted to text-to-speech.

The student was previously shown an explanation:
" ++ DQUOTE ++
  py "{previous_explanation}" ++ DQUOTE ++
  py "

The student responded with:
" ++ DQUOTE ++
  py "{user_feedback}" ++ DQUOTE ++
  py "

Address the student's feedback or question and provide a revised or clarified explanation based on their input.

**Crucial Formatting Rules for TTS:**
1.  **Speak Naturally:** Use plain, conversational language ONLY.
2.  **No Markdown/Special Chars:** Absolutely NO markdown (*, **, ~, `, #, etc.).
3.  **Spell Out Symbols:** Write 'plus' not +, 'equals' not =, 'percent' not %, 'degrees' not °, 'multiplied by' not *, 'divided by' not /.
4.  **Numbers:** Write 'one hundred twenty three' or '123', but ensure surrounding text makes it speakable (e.g., '100 percent').
5.  **No Grouping Symbols:** Avoid parentheses (), brackets [], braces {}. Rephrase sentences if necessary.
6.  **Simple Sentences:** Break down complex ideas.
7.  **Abbreviations:** Spell out acronyms or abbreviations the first time (e.g., 'National Aeronautics and Space Administration, NASA').
8.  **Clarity First:** Ensure the final text flows well when read aloud.
").

(** ** Session state and the outside world *)

Definition bytes := list N.

(** [if b:] for a value that is [None] or a byte string *)
Definition truthy_bytes (b : option bytes) : bool :=
  match b with
  | Some (_ :: _) => true
  | _ => false
  end.

(** [if s:] for a value that is [None] or a string *)
Definition truthy_opt (s : option pystr) : bool :=
  match s with
  | Some (_ :: _) => true
  | _ => false
  end.

(** The client object returned by [genai.GenerativeModel]. *)
Record Model : Type := { model_name : pystr }.

(** [st.session_state].  [audio_speed] is a float that only the audio
    player reads and is left out; [pasted_text_area] and [feedback_input]
    are the widget keys the processing logic reads. *)
Record Session : Type := {
  log_messages : list pystr;
  processing : bool;
  current_audio_data : option bytes;
  current_text_to_speak : pystr;
  last_explanation : pystr;
  last_uploaded_image : option bytes;
  action_trigger : option pystr;
  tts_lang_code : pystr;
  translate_lang_code : option pystr;
  translate_lang_name : pystr;
  gemini_model : option Model;
  api_key_configured : bool;
  _api_key_error_logged : bool;
  pasted_text_area : pystr;
  feedback_input : pystr
}.

Definition set_log_messages (v : list pystr) (s : Session) : Session :=
  {| log_messages := v; processing := processing s;
     current_audio_data := current_audio_data s;
     current_text_to_speak := current_text_to_speak s;
     last_explanation := last_explanation s;
     last_uploaded_image := last_uploaded_image s;
     action_trigger := action_trigger s; tts_lang_code := tts_lang_code s;
     translate_lang_code := translate_lang_code s;
     translate_lang_name := translate_lang_name s;
     gemini_model := gemini_model s; api_key_configured := api_key_configured s;
     _api_key_error_logged := _api_key_error_logged s;
     pasted_text_area := pasted_text_area s; feedback_input := feedback_input s |}.

Definition set_processing (v : bool) (s : Session) : Session :=
  {| log_messages := log_messages s; processing := v;
     current_audio_data := current_audio_data s;
     current_text_to_speak := current_text_to_speak s;
     last_explanation := last_explanation s;
     last_uploaded_image := last_uploaded_image s;
     action_trigger := action_trigger s; tts_lang_code := tts_lang_code s;
     translate_lang_code := translate_lang_code s;
     translate_lang_name := translate_lang_name s;
     gemini_model := gemini_model s; api_key_configured := api_key_configured s;
     _api_key_error_logged := _api_key_error_logged s;
     pasted_text_area := pasted_text_area s; feedback_input := feedback_input s |}.

Definition set_current_audio_data (v : option bytes) (s : Session) : Session :=
  {| log_messages := log_messages s; processing := processing s;
     current_audio_data := v;
     current_text_to_speak := current_text_to_speak s;
     last_explanation := last_explanation s;
     last_uploaded_image := last_uploaded_image s;
     action_trigger := action_trigger s; tts_lang_code := tts_lang_code s;
     translate_lang_code := translate_lang_code s;
     translate_lang_name := translate_lang_name s;
     gemini_model := gemini_model s; api_key_configured := api_key_configured s;
     _api_key_error_logged := _api_key_error_logged s;
     pasted_text_area := pasted_text_area s; feedback_input := feedback_input s |}.

Definition set_current_text_to_speak (v : pystr) (s : Session) : Session :=
  {| log_messages := log_messages s; processing := processing s;
     current_audio_data := current_audio_data s;
     current_text_to_speak := v;
     last_explanation := last_explanation s;
     last_uploaded_image := last_uploaded_image s;
     action_trigger := action_trigger s; tts_lang_code := tts_lang_code s;
     translate_lang_code := translate_lang_code s;
     translate_lang_name := translate_lang_name s;
     gemini_model := gemini_model s; api_key_configured := api_key_configured s;
     _api_key_error_logged := _api_key_error_logged s;
     pasted_text_area := pasted_text_area s; feedback_input := feedback_input s |}.

Definition set_last_explanation (v : pystr) (s : Session) : Session :=
  {| log_messages := log_messages s; processing := processing s;
     current_audio_data := current_audio_data s;
     current_text_to_speak := current_text_to_speak s;
     last_explanation := v;
     last_uploaded_image := last_uploaded_image s;
     action_trigger := action_trigger s; tts_lang_code := tts_lang_code s;
     translate_lang_code := translate_lang_code s;
     translate_lang_name := translate_lang_name s;
     gemini_model := gemini_model s; api_key_configured := api_key_configured s;
     _api_key_error_logged := _api_key_error_logged s;
     pasted_text_area := pasted_text_area s; feedback_input := feedback_input s |}.

Definition set_action_trigger (v : option pystr) (s : Session) : Session :=
  {| log_messages := log_messages s; processing := processing s;
     current_audio_data := current_audio_data s;
     current_text_to_speak := current_text_to_speak s;
     last_explanation := last_explanation s;
     last_uploaded_image := last_uploaded_image s;
     action_trigger := v; tts_lang_code := tts_lang_code s;
     translate_lang_code := translate_lang_code s;
     translate_lang_name := translate_lang_name s;
     gemini_model := gemini_model s; api_key_configured := api_key_configured s;
     _api_key_error_logged := _api_key_error_logged s;
     pasted_text_area := pasted_text_area s; feedback_input := feedback_input s |}.

Definition set_gemini_model (v : option Model) (s : Session) : Session :=
  {| log_messages := log_messages s; processing := processing s;
     current_audio_data := current_audio_data s;
     current_text_to_speak := current_text_to_speak s;
     last_explanation := last_explanation s;
     last_uploaded_image := last_uploaded_image s;
     action_trigger := action_trigger s; tts_lang_code := tts_lang_code s;
     translate_lang_code := translate_lang_code s;
     translate_lang_name := translate_lang_name s;
     gemini_model := v; api_key_configured := api_key_configured s;
     _api_key_error_logged := _api_key_error_logged s;
     pasted_text_area := pasted_text_area s; feedback_input := feedback_input s |}.

Definition set_api_key_configured (v : bool) (s : Session) : Session :=
  {| log_messages := log_messages s; processing := processing s;
     current_audio_data := current_audio_data s;
     current_text_to_speak := current_text_to_speak s;
     last_explanation := last_explanation s;
     last_uploaded_image := last_uploaded_image s;
     action_trigger := action_trigger s; tts_lang_code := tts_lang_code s;
     translate_lang_code := translate_lang_code s;
     translate_lang_name := translate_lang_name s;
     gemini_model := gemini_model s; api_key_configured := v;
     _api_key_error_logged := _api_key_error_logged s;
     pasted_text_area := pasted_text_area s; feedback_input := feedback_input s |}.

Definition set_api_key_error_logged (v : bool) (s : Session) : Session :=
  {| log_messages := log_messages s; processing := processing s;
     current_audio_data := current_audio_data s;
     current_text_to_speak := current_text_to_speak s;
     last_explanation := last_explanation s;
     last_uploaded_image := last_uploaded_image s;
     action_trigger := action_trigger s; tts_lang_code := tts_lang_code s;
     translate_lang_code := translate_lang_code s;
     translate_lang_name := translate_lang_name s;
     gemini_model := gemini_model s; api_key_configured := api_key_configured s;
     _api_key_error_logged := v;
     pasted_text_area := pasted_text_area s; feedback_input := feedback_input s |}.

(** [default_values] *)
Definition default_values : Session :=
  {| log_messages := [py "Welcome! Ready for input."]; processing := false;
     current_audio_data := None; current_text_to_speak := [];
     last_explanation := []; last_uploaded_image := None;
     action_trigger := None; tts_lang_code := py "en";
     translate_lang_code := None;
     translate_lang_name := py "None (Original Language)";
     gemini_model := None; api_key_configured := false;
     _api_key_error_logged := false;
     pasted_text_area := []; feedback_input := [] |}.

(** What is sent to the model: the prompt, then an image or a text. *)
Inductive Part : Type :=
| PartText (s : pystr)
| PartImage (img : bytes).

(** [response.prompt_feedback]; reading either attribute may raise. *)
Record PromptFeedback : Type := {
  feedback_repr : pystr;
  block_reason : Res pystr;
  safety_ratings : Res pystr
}.

(** The reply of [model.generate_content]: [response.parts],
    [response.text] (a property that may raise) and
    [response.prompt_feedback]. *)
Record Response : Type := {
  response_parts : list pystr;
  response_text : Res pystr;
  response_prompt_feedback : Res PromptFeedback
}.

(** The calls that leave the process, in the order they are made. *)
Inductive Call : Type :=
| call_genai_configure (api_key : pystr)
| call_GenerativeModel (name : pystr)
| call_generate_content (model : Model) (content : list Part) (timeout : N)
| call_GoogleTranslator (source target : pystr)
| call_translate (target chunk : pystr)
| call_gTTS (text lang : pystr).

(** The outside world.  Every service sees the calls made so far, so its
    answers may change from one call to the next; [Raise] is an exception
    raised by the library.  [Image_open] is [PIL.Image.open], which decodes
    locally. *)
Record Env : Type := {
  genai_configure : list Call -> pystr -> Res unit;
  genai_GenerativeModel : list Call -> pystr -> Res Model;
  model_generate_content : list Call -> Model -> list Part -> Res Response;
  Image_open : bytes -> Res unit;
  GoogleTranslator : list Call -> pystr -> Res unit;
  translator_translate : list Call -> pystr -> pystr -> Res pystr;
  gTTS : list Call -> pystr -> pystr -> Res bytes
}.

Record World : Type := {
  sess : Session;
  trace : list Call
}.

(** ** The monad of the script: state that survives a raised exception *)

Definition M (A : Type) : Type := World -> Res A * World.

Definition ret {A} (a : A) : M A := fun w => (Ok a, w).

Definition bind {A B} (c : M A) (k : A -> M B) : M B :=
  fun w =>
    match c w with
    | (Ok a, w') => k a w'
    | (Raise e, w') => (Raise e, w')
    end.

Definition raise {A} (e : Exc) : M A := fun w => (Raise e, w).

Declare Scope py_scope.
Delimit Scope py_scope with py.
Notation "x <- c ;; k" := (bind c (fun x => k))
  (at level 61, c at next level, right associativity) : py_scope.
Notation "c ;; k" := (bind c (fun _ => k))
  (at level 61, right associativity) : py_scope.
Local Open Scope py_scope.

(** [try: body except Exception as e: handler(e)] *)
Definition try_except {A} (body : M A) (handler : Exc -> M A) : M A :=
  fun w =>
    match body w with
    | (Ok a, w') => (Ok a, w')
    | (Raise e, w') => handler e w'
    end.

(** [try: body finally: fin] *)
Definition try_finally {A} (body : M A) (fin : M unit) : M A :=
  fun w =>
    match body w with
    | (r, w') =>
        match fin w' with
        | (Ok _, w'') => (r, w'')
        | (Raise e, w'') => (Raise e, w'')
        end
    end.

Definition get_session : M Session := fun w => (Ok (sess w), w).

Definition modify (f : Session -> Session) : M unit :=
  fun w => (Ok tt, {| sess := f (sess w); trace := trace w |}).

(** The result of a local computation that may raise. *)
Definition lift {A} (r : Res A) : M A := fun w => (r, w).

(** A call to the outside: answered from the history, then recorded. *)
Definition external {A} (c : Call) (answer : list Call -> Res A) : M A :=
  fun w => (answer (trace w), {| sess := sess w; trace := trace w ++ [c] |}).

(** [text[i:j]] *)
Definition slice {A} (l : list A) (i j : nat) : list A := firstn (j - i) (skipn i l).

Fixpoint range_from (fuel start stop step : nat) : list nat :=
  match fuel with
  | O => []
  | S fuel' =>
      if start <? stop then start :: range_from fuel' (start + step) stop step
      else []
  end.

(** [range(start, stop, step)] for a positive [step] *)
Definition py_range (start stop step : nat) : list nat :=
  range_from stop start stop step.

(** ** The script *)

Definition ERROR_MARKER : pystr := Eval cbv in py "Error:".
Definition max_log_lines : nat := 30.
Definition max_chunk_size : nat := 4500.
Definition NO_CONTENT : pystr := Eval cbv in py "(No content was generated or extracted)".

Section Script.

(** The services, and the two globals the script computes when it starts. *)
Variable env : Env.
Variable GOOGLE_API_KEY : option pystr.
Variable API_KEY_SOURCE : pystr.

(** [log_message]: newest first, at most [max_log_lines] lines.  The
    clock prefix of a line is not modelled. *)
Definition log_message (message : pystr) : M unit :=
  modify (fun s =>
    let l := message :: log_messages s in
    set_log_messages (if max_log_lines <? List.length l then firstn max_log_lines l else l) s).

(** [not GOOGLE_API_KEY or GOOGLE_API_KEY == 'YOUR_API_KEY_HERE'] *)
Definition api_key_missing : bool :=
  match GOOGLE_API_KEY with
  | None => true
  | Some k => negb (truthy k) || str_eqb k (py "YOUR_API_KEY_HERE")
  end.

Definition api_key_value : pystr :=
  match GOOGLE_API_KEY with
  | None => []
  | Some k => k
  end.

Definition configure_gemini : M (option Model) :=
  s <- get_session ;;
  match gemini_model s, api_key_configured s with
  | Some model, true => ret (Some model)
  | _, _ =>
      if api_key_missing then
        (if negb (_api_key_error_logged s) then
           log_message (py "Configuration check failed: API Key missing or invalid placeholder.") ;;
           modify (set_api_key_error_logged true)
         else ret tt) ;;
        modify (set_api_key_configured false) ;;
        ret None
      else
        modify (set_api_key_error_logged false) ;;
        try_except
          (log_message (py "Attempting to configure Gemini API (Key source: "
                          ++ API_KEY_SOURCE ++ py ")...") ;;
           external (call_genai_configure api_key_value)
                    (fun h => genai_configure env h api_key_value) ;;
           let model_name := py "gemini-2.0-flash" in
           log_message (py "Initializing Gemini model: " ++ model_name ++ py "...") ;;
           model <- external (call_GenerativeModel model_name)
                             (fun h => genai_GenerativeModel env h model_name) ;;
           log_message (py "Gemini configured and model initialized successfully.") ;;
           modify (set_gemini_model (Some model)) ;;
           modify (set_api_key_configured true) ;;
           ret (Some model))
          (fun e =>
             log_message (py "Error during Gemini configuration/initialization: "
                            ++ exc_str e) ;;
             modify (set_api_key_configured false) ;;
             modify (set_gemini_model None) ;;
             ret None)
  end.

Definition generate_speech (text lang_code : pystr) : M (option bytes) :=
  if negb (truthy text) then
    log_message (py "Cannot generate speech from empty text.") ;;
    ret None
  else
    try_except
      (log_message (py "Generating speech in language: " ++ lang_code ++ py "...") ;;
       audio <- external (call_gTTS text lang_code) (fun h => gTTS env h text lang_code) ;;
       log_message (py "Speech generated successfully.") ;;
       ret (Some audio))
      (fun e =>
         log_message (py "Speech generation error: " ++ exc_str e) ;;
         ret None).

(** The [for] loop of [translate_if_needed] over
    [range(0, len(text), max_chunk_size)].  The pause between two chunks
    changes nothing and is left out. *)
Fixpoint translate_chunks (target text : pystr) (indices : list nat)
    (translated_text : pystr) : M pystr :=
  match indices with
  | [] => ret translated_text
  | i :: rest =>
      let chunk := slice text i (i + max_chunk_size) in
      r <- external (call_translate target chunk)
                    (fun h => translator_translate env h target chunk) ;;
      translate_chunks target text rest (translated_text ++ r ++ py " ")
  end.

Definition translate_if_needed (text : pystr) (target_lang_code : option pystr)
    (target_lang_name : pystr) : M pystr :=
  match target_lang_code with
  | None => ret text
  | Some code =>
      if negb (truthy code) || str_eqb code (py "en") then ret text
      else if negb (truthy text) then
        log_message (py "Cannot translate empty text.") ;;
        ret []
      else
        try_except
          (log_message (py "Translating to " ++ target_lang_name ++ py " ("
                          ++ code ++ py ")...") ;;
           external (call_GoogleTranslator (py "auto") code)
                    (fun h => GoogleTranslator env h code) ;;
           translated_text <-
             translate_chunks code text
               (py_range 0 (List.length text) max_chunk_size) [] ;;
           log_message (py "Translation successful.") ;;
           ret (strip translated_text))
          (fun e =>
             log_message (py "Translation error: " ++ exc_str e) ;;
             ret text)
  end.

Definition get_gemini_response (prompt : pystr) (image_bytes : option bytes)
    (text_input : option pystr) : M pystr :=
  model <- configure_gemini ;;
  match model with
  | None =>
      log_message (py "get_gemini_response: Cannot proceed, Gemini model not configured.") ;;
      ret (py "Error: Gemini model failed to configure. Check API Key and logs.")
  | Some model =>
      try_except
        (content <-
           (if truthy_bytes image_bytes then
              log_message (py "Sending image to Gemini...") ;;
              try_except
                (let b := match image_bytes with Some b => b | None => [] end in
                 lift (Image_open env b) ;;
                 ret (inr [PartText prompt; PartImage b]))
                (fun img_err =>
                   log_message (py "Error opening image: " ++ exc_str img_err) ;;
                   ret (inl (py "Error: Could not read image data.")))
            else if truthy_opt text_input then
              log_message (py "Sending text to Gemini...") ;;
              ret (inr [PartText prompt;
                        PartText (match text_input with Some t => t | None => [] end)])
            else ret (inr [PartText prompt])) ;;
         match content with
         | inl early_return => ret early_return
         | inr content =>
             log_message (py "Generating content with model: " ++ model_name model
                            ++ py "...") ;;
             response <- external (call_generate_content model content 120)
                                  (fun h => model_generate_content env h model content) ;;
             log_message (py "Received response from Gemini.") ;;
             match response_parts response with
             | [] =>
                 try_except
                   (feedback <- lift (response_prompt_feedback response) ;;
                    log_message (py "Gemini response empty. Prompt feedback: "
                                   ++ feedback_repr feedback) ;;
                    reason <- lift (block_reason feedback) ;;
                    ratings <- lift (safety_ratings feedback) ;;
                    ret (py "Error: AI response blocked. Reason: " ++ reason
                           ++ py ". Ratings: " ++ ratings))
                   (fun _ =>
                      log_message (py "Gemini response received but has no text parts and no feedback info.") ;;
                      ret (py "Error: AI generated an empty response (possibly due to safety filters or content restrictions)."))
             | _ :: _ =>
                 t <- lift (response_text response) ;;
                 ret (strip t)
             end
         end)
        (fun e =>
           log_message (py "Gemini API Error during generation: " ++ exc_str e) ;;
           ret (py "Error: Could not get response from AI during generation. Details: "
                  ++ exc_str e))
  end.

(** *** Processing logic *)

(** "Action Execution Logic": the branch of the triggered action.  It
    leaves the two locals [final_text_to_speak] and [gemini_result]
    ([None] marks that the model was not called). *)
Definition action_execution (action : pystr) : M (pystr * option pystr) :=
  if str_eqb action (py "explain_image") then
    log_message (py "Processing screenshot explanation...") ;;
    s <- get_session ;;
    if negb (truthy_bytes (last_uploaded_image s))
    then raise (ValueError (py "No image data found for explanation."))
    else
      gemini_result <- get_gemini_response EXPLAIN_PROMPT_BASE (last_uploaded_image s) None ;;
      ret ([], Some gemini_result)
  else if str_eqb action (py "read_image") then
    log_message (py "Processing screenshot reading...") ;;
    s <- get_session ;;
    if negb (truthy_bytes (last_uploaded_image s))
    then raise (ValueError (py "No image data found for reading."))
    else
      gemini_result <- get_gemini_response READ_PROMPT_IMAGE (last_uploaded_image s) None ;;
      ret ([], Some gemini_result)
  else if str_eqb action (py "explain_text") then
    log_message (py "Processing pasted text explanation...") ;;
    s <- get_session ;;
    let current_pasted_text := pasted_text_area s in
    if negb (truthy current_pasted_text)
    then raise (ValueError (py "No pasted text found for explanation."))
    else
      gemini_result <- get_gemini_response EXPLAIN_PROMPT_BASE None (Some current_pasted_text) ;;
      ret ([], Some gemini_result)
  else if str_eqb action (py "read_text") then
    log_message (py "Processing pasted text reading...") ;;
    s <- get_session ;;
    let current_pasted_text := pasted_text_area s in
    if negb (truthy current_pasted_text)
    then raise (ValueError (py "No pasted text found for reading."))
    else
      let cleaned_text := join (py " ") (split current_pasted_text) in
      modify (set_last_explanation []) ;;
      final_text_to_speak <-
        translate_if_needed cleaned_text (translate_lang_code s) (translate_lang_name s) ;;
      ret (final_text_to_speak, None)
  else if str_eqb action (py "follow_up") then
    log_message (py "Processing follow-up response...") ;;
    s <- get_session ;;
    let current_feedback := feedback_input s in
    if negb (truthy current_feedback)
    then raise (ValueError (py "No follow-up text provided."))
    else if negb (truthy (last_explanation s))
    then raise (ValueError (py "No previous explanation context found for follow-up."))
    else
      prompt <- lift (format FOLLOW_UP_PROMPT []
                        [(py "previous_explanation", last_explanation s);
                         (py "user_feedback", current_feedback)]) ;;
      gemini_result <- get_gemini_response prompt None None ;;
      ret ([], Some gemini_result)
  else ret ([], Some []).

(** "Process Gemini Result (if called)" *)
Definition process_gemini_result (action final_text_to_speak : pystr)
    (gemini_result : option pystr) : M pystr :=
  match gemini_result with
  | None => ret final_text_to_speak
  | Some gemini_result =>
      if negb (contains ERROR_MARKER gemini_result) then
        if str_eqb action (py "explain_image") || str_eqb action (py "explain_text")
           || str_eqb action (py "follow_up") then
          let cleaned_explanation := clean_text_for_speech gemini_result in
          modify (set_last_explanation cleaned_explanation) ;;
          s <- get_session ;;
          translate_if_needed cleaned_explanation (translate_lang_code s) (translate_lang_name s)
        else if str_eqb action (py "read_image") then
          let cleaned_text := join (py " ") (split gemini_result) in
          modify (set_last_explanation []) ;;
          s <- get_session ;;
          translate_if_needed cleaned_text (translate_lang_code s) (translate_lang_name s)
        else ret final_text_to_speak
      else
        log_message (py "Gemini returned an error: " ++ gemini_result) ;;
        ret gemini_result
  end.

(** "Generate Audio" *)
Definition generate_audio (final_text_to_speak : pystr) : M unit :=
  if truthy final_text_to_speak && negb (contains ERROR_MARKER final_text_to_speak) then
    modify (set_current_text_to_speak final_text_to_speak) ;;
    s <- get_session ;;
    audio <- generate_speech final_text_to_speak (tts_lang_code s) ;;
    modify (set_current_audio_data audio) ;;
    if negb (truthy_bytes audio) then
      modify (fun s => set_current_text_to_speak
                         (current_text_to_speak s ++ NEWLINE ++ NEWLINE
                            ++ py "(Error generating audio for this text)") s) ;;
      log_message (py "Audio generation failed.")
    else ret tt
  else if truthy final_text_to_speak then
    log_message (py "Skipping audio generation due to error/empty text: "
                   ++ firstn 100 final_text_to_speak ++ py "...") ;;
    modify (set_current_text_to_speak final_text_to_speak) ;;
    modify (set_current_audio_data None)
  else
    log_message (py "No text generated or extracted to speak.") ;;
    modify (set_current_text_to_speak NO_CONTENT) ;;
    modify (set_current_audio_data None).

(** The body of the [try] statement. *)
Definition try_body (action : pystr) : M unit :=
  r <- action_execution action ;;
  final_text_to_speak <- process_gemini_result action (fst r) (snd r) ;;
  generate_audio final_text_to_speak.

(** The [except Exception as e] clause.  The text of the stack trace is
    not modelled. *)
Definition except_clause (action : pystr) (e : Exc) : M unit :=
  log_message (py "Error during processing action '" ++ action ++ py "': " ++ exc_str e) ;;
  log_message (py "Traceback: " ++ exc_str e) ;;
  modify (set_current_text_to_speak (py "Error during " ++ action ++ py ": " ++ exc_str e)) ;;
  modify (set_current_audio_data None).

(** The [finally] clause. *)
Definition finally_clause (action : pystr) : M unit :=
  log_message (py "Finished processing action: " ++ action) ;;
  modify (set_processing false) ;;
  modify (set_action_trigger None).

(** The block under [# --- Processing Logic ---]: one pass of the script
    over it.  [st.rerun()] ends the pass and is not modelled. *)
Definition processing_logic : M unit :=
  s <- get_session ;;
  if processing s then
    let action := action_trigger s in
    let is_api_ready := api_key_configured s in
    if truthy_opt action && is_api_ready then
      let action := match action with Some a => a | None => [] end in
      log_message (py "Starting processing for action: " ++ action) ;;
      try_finally
        (try_except (try_body action) (except_clause action))
        (finally_clause action)
    else if truthy_opt action && negb is_api_ready then
      let action := match action with Some a => a | None => [] end in
      log_message (py "Processing blocked for action '" ++ action
                     ++ py "': API not configured.") ;;
      modify (set_processing false) ;;
      modify (set_action_trigger None)
    else if negb (truthy_opt action) then
      s' <- get_session ;;
      if processing s' then
        log_message (py "Warning: Processing state was True, but no action_trigger found. Resetting.") ;;
        modify (set_processing false) ;;
        modify (set_action_trigger None)
      else ret tt
    else ret tt
  else ret tt.

End Script.

(** The choices of the "Translate Output To" box, in the order of the
    dictionary [translation_languages]. *)
Definition translation_languages : list (pystr * option pystr) :=
  [ (py "None (Original Language)", None);
    (py "Telugu", Some (py "te"));
    (py "Hindi", Some (py "hi"));
    (py "English", Some (py "en"));
    (py "Spanish", Some (py "es"));
    (py "French", Some (py "fr"));
    (py "German", Some (py "de")) ].

(** ** Notions used in the statements *)

(** The world in which the [try] statement of a turn for [action] starts:
    the line that announces the action has been logged. *)
Definition started (action : pystr) (w : World) : World :=
  snd (log_message (py "Starting processing for action: " ++ action) w).

(** The chunks the loop of [translate_if_needed] sends, in order. *)
Definition chunks_of (text : pystr) : list pystr :=
  map (fun i => slice text i (i + max_chunk_size))
      (py_range 0 (List.length text) max_chunk_size).

(** The translation of [text] to [code], started after the calls [h], fails:
    building the client raises, or the call for some chunk raises after
    the earlier chunks were answered. *)
Definition translation_fails (env : Env) (h : list Call) (text code : pystr) : Prop :=
  (exists e, GoogleTranslator env h code = Raise e) \/
  (exists k e,
      k < List.length (chunks_of text) /\
      translator_translate env
        (h ++ call_GoogleTranslator (py "auto") code
           :: map (call_translate code) (firstn k (chunks_of text)))
        code (nth k (chunks_of text) []) = Raise e).

(** How many times the trace shows [genai.configure]. *)
Definition configure_attempts (t : list Call) : nat :=
  List.length (filter (fun c => match c with call_genai_configure _ => true | _ => false end) t).

(** A configured model is kept from an earlier success: the test that
    opens [configure_gemini]. *)
Definition model_cached (s : Session) : bool :=
  match gemini_model s with
  | Some _ => api_key_configured s
  | None => false
  end.

(** The world after [st.session_state.last_explanation = v]. *)
Definition with_last_explanation (v : pystr) (w : World) : World :=
  {| sess := set_last_explanation v (sess w); trace := trace w |}.

(** The note appended to the shown text when no audio could be made. *)
Definition AUDIO_ERROR_NOTE : pystr :=
  NEWLINE ++ NEWLINE ++ py "(Error generating audio for this text)".

(** Two sessions that differ at most in the log. *)
Definition only_log (w w' : World) : Prop :=
  set_log_messages [] (sess w') = set_log_messages [] (sess w).

(** Two sessions that differ at most in the log and in what
    [configure_gemini] keeps. *)
Definition config_erased (s : Session) : Session :=
  set_log_messages [] (set_gemini_model None
    (set_api_key_configured false (set_api_key_error_logged false s))).

Definition only_config (w w' : World) : Prop :=
  config_erased (sess w') = config_erased (sess w).

(** Two sessions that differ at most in the log and in the shown text
    and audio. *)
Definition output_erased (s : Session) : Session :=
  set_log_messages [] (set_current_text_to_speak []
    (set_current_audio_data None s)).

Definition only_output (w w' : World) : Prop :=
  output_erased (sess w') = output_erased (sess w).

(** A word of a split text: not empty and free of white space. *)
Definition word_ok (w : pystr) : Prop :=
  w <> [] /\ Forall (fun c => isspace c = false) w.

(** The characters every call of the cleaner removes. *)
Definition removed_symbols : pystr :=
  Eval cbv in NEWLINE ++ py "*`~()[]{}&%=≈∝×÷°+-".

(** ** Sample services and sessions *)

Module Fixtures.

Definition key : option pystr := Some (py "a-key").
Definition source : pystr := py "Environment Variable".
Definition flash : Model := {| model_name := py "gemini-2.0-flash" |}.

Definition unavailable {A : Type} : Res A :=
  Raise (ExternalError (py "service unavailable")).

(** Every service answers; the model replies [reply], the translator puts
    the language code in front of the chunk. *)
Definition answering (reply : pystr) : Env :=
  {| genai_configure := fun _ _ => Ok tt;
     genai_GenerativeModel := fun _ name => Ok {| model_name := name |};
     model_generate_content := fun _ _ _ =>
       Ok {| response_parts := [reply]; response_text := Ok reply;
             response_prompt_feedback := unavailable |};
     Image_open := fun _ => Ok tt;
     GoogleTranslator := fun _ _ => Ok tt;
     translator_translate := fun _ target chunk => Ok (target ++ py ":" ++ chunk);
     gTTS := fun _ _ _ => Ok [73; 68; 51]%N |}.

(** No service answers. *)
Definition silent : Env :=
  {| genai_configure := fun _ _ => unavailable;
     genai_GenerativeModel := fun _ _ => unavailable;
     model_generate_content := fun _ _ _ => unavailable;
     Image_open := fun _ => unavailable;
     GoogleTranslator := fun _ _ => unavailable;
     translator_translate := fun _ _ _ => unavailable;
     gTTS := fun _ _ _ => unavailable |}.

(** The model cannot be reached; the other services answer. *)
Definition model_unreachable : Env :=
  {| genai_configure := fun _ _ => Ok tt;
     genai_GenerativeModel := fun _ name => Ok {| model_name := name |};
     model_generate_content := fun _ _ _ => unavailable;
     Image_open := fun _ => Ok tt;
     GoogleTranslator := fun _ _ => Ok tt;
     translator_translate := fun _ target chunk => Ok (target ++ py ":" ++ chunk);
     gTTS := fun _ _ _ => Ok [73; 68; 51]%N |}.

Definition translated_chunks (h : list Call) : nat :=
  List.length (filter (fun c => match c with call_translate _ _ => true | _ => false end) h).

(** The translator answers for [n] chunks and then fails. *)
Definition translator_stops_after (n : nat) : Env :=
  {| genai_configure := fun _ _ => Ok tt;
     genai_GenerativeModel := fun _ name => Ok {| model_name := name |};
     model_generate_content := fun _ _ _ => unavailable;
     Image_open := fun _ => Ok tt;
     GoogleTranslator := fun _ _ => Ok tt;
     translator_translate := fun h _ chunk =>
       if translated_chunks h <? n then Ok chunk else unavailable;
     gTTS := fun _ _ _ => Ok [73; 68; 51]%N |}.

(** A session in which [action] was triggered, with the API ready, an
    uploaded image, a pasted text and an explanation from an earlier turn. *)
Definition running (action pasted : pystr) (target : option pystr) : World :=
  {| sess :=
       {| log_messages := [py "Welcome! Ready for input."]; processing := true;
          current_audio_data := None; current_text_to_speak := [];
          last_explanation := py "An earlier explanation";
          last_uploaded_image := Some [137; 80; 78; 71]%N;
          action_trigger := Some action; tts_lang_code := py "en";
          translate_lang_code := target;
          translate_lang_name := py "Spanish";
          gemini_model := Some flash; api_key_configured := true;
          _api_key_error_logged := false;
          pasted_text_area := pasted; feedback_input := py "Why is that?" |};
     trace := [] |}.

(** The session of a fresh start. *)
Definition fresh : World := {| sess := default_values; trace := [] |}.

(** A text of 4501 characters without white space: two chunks. *)
Definition long_text : pystr := repeat 97%N 4501.

End Fixtures.

(** ** The rest of the page *)

(** *** Where the API key comes from (the top of the script) *)

(** [secrets] is what reading [st.secrets] for the key gives: [Raise] when
    the secrets cannot be read, [Ok None] when they hold no such key.
    [environ] is the environment variable.  The result is the pair of
    [GOOGLE_API_KEY] and [API_KEY_SOURCE]. *)
Definition resolve_api_key (secrets : Res (option pystr)) (environ : option pystr)
    : option pystr * pystr :=
  match secrets with
  | Ok (Some k) => (Some k, py "Streamlit Secrets")
  | Ok None =>
      match environ with
      | Some k => (Some k, py "Environment Variable")
      | None =>
          let _placeholder_key := py "YOUR_API_KEY_HERE" in
          if negb (str_eqb _placeholder_key (py "YOUR_API_KEY_HERE"))
          then (Some _placeholder_key, py "Hardcoded Script (Not Recommended)")
          else (None, py "Not Set")
      end
  | Raise _ =>
      match environ with
      | Some k => (Some k, py "Environment Variable (after secrets error)")
      | None =>
          let _placeholder_key := py "YOUR_API_KEY_HERE" in
          if negb (str_eqb _placeholder_key (py "YOUR_API_KEY_HERE"))
          then (Some _placeholder_key,
                py "Hardcoded Script (Not Recommended, after secrets error)")
          else (None, py "Not Set")
      end
  end.

(** *** The remaining keys of [st.session_state] that the page writes *)

Definition set_last_uploaded_image (v : option bytes) (s : Session) : Session :=
  {| log_messages := log_messages s; processing := processing s;
     current_audio_data := current_audio_data s;
     current_text_to_speak := current_text_to_speak s;
     last_explanation := last_explanation s;
     last_uploaded_image := v;
     action_trigger := action_trigger s; tts_lang_code := tts_lang_code s;
     translate_lang_code := translate_lang_code s;
     translate_lang_name := translate_lang_name s;
     gemini_model := gemini_model s; api_key_configured := api_key_configured s;
     _api_key_error_logged := _api_key_error_logged s;
     pasted_text_area := pasted_text_area s; feedback_input := feedback_input s |}.

Definition set_tts_lang_code (v : pystr) (s : Session) : Session :=
  {| log_messages := log_messages s; processing := processing s;
     current_audio_data := current_audio_data s;
     current_text_to_speak := current_text_to_speak s;
     last_explanation := last_explanation s;
     last_uploaded_image := last_uploaded_image s;
     action_trigger := action_trigger s; tts_lang_code := v;
     translate_lang_code := translate_lang_code s;
     translate_lang_name := translate_lang_name s;
     gemini_model := gemini_model s; api_key_configured := api_key_configured s;
     _api_key_error_logged := _api_key_error_logged s;
     pasted_text_area := pasted_text_area s; feedback_input := feedback_input s |}.

Definition set_translate_lang_code (v : option pystr) (s : Session) : Session :=
  {| log_messages := log_messages s; processing := processing s;
     current_audio_data := current_audio_data s;
     current_text_to_speak := current_text_to_speak s;
     last_explanation := last_explanation s;
     last_uploaded_image := last_uploaded_image s;
     action_trigger := action_trigger s; tts_lang_code := tts_lang_code s;
     translate_lang_code := v;
     translate_lang_name := translate_lang_name s;
     gemini_model := gemini_model s; api_key_configured := api_key_configured s;
     _api_key_error_logged := _api_key_error_logged s;
     pasted_text_area := pasted_text_area s; feedback_input := feedback_input s |}.

Definition set_translate_lang_name (v : pystr) (s : Session) : Session :=
  {| log_messages := log_messages s; processing := processing s;
     current_audio_data := current_audio_data s;
     current_text_to_speak := current_text_to_speak s;
     last_explanation := last_explanation s;
     last_uploaded_image := last_uploaded_image s;
     action_trigger := action_trigger s; tts_lang_code := tts_lang_code s;
     translate_lang_code := translate_lang_code s;
     translate_lang_name := v;
     gemini_model := gemini_model s; api_key_configured := api_key_configured s;
     _api_key_error_logged := _api_key_error_logged s;
     pasted_text_area := pasted_text_area s; feedback_input := feedback_input s |}.

Definition set_pasted_text_area (v : pystr) (s : Session) : Session :=
  {| log_messages := log_messages s; processing := processing s;
     current_audio_data := current_audio_data s;
     current_text_to_speak := current_text_to_speak s;
     last_explanation := last_explanation s;
     last_uploaded_image := last_uploaded_image s;
     action_trigger := action_trigger s; tts_lang_code := tts_lang_code s;
     translate_lang_code := translate_lang_code s;
     translate_lang_name := translate_lang_name s;
     gemini_model := gemini_model s; api_key_configured := api_key_configured s;
     _api_key_error_logged := _api_key_error_logged s;
     pasted_text_area := v; feedback_input := feedback_input s |}.

Definition set_feedback_input (v : pystr) (s : Session) : Session :=
  {| log_messages := log_messages s; processing := processing s;
     current_audio_data := current_audio_data s;
     current_text_to_speak := current_text_to_speak s;
     last_explanation := last_explanation s;
     last_uploaded_image := last_uploaded_image s;
     action_trigger := action_trigger s; tts_lang_code := tts_lang_code s;
     translate_lang_code := translate_lang_code s;
     translate_lang_name := translate_lang_name s;
     gemini_model := gemini_model s; api_key_configured := api_key_configured s;
     _api_key_error_logged := _api_key_error_logged s;
     pasted_text_area := pasted_text_area s; feedback_input := v |}.

(** *** The settings of the sidebar *)

(** The dictionary [tts_languages], in its order. *)
Definition tts_languages : list (pystr * pystr) :=
  [ (py "English (US)", py "en");
    (py "English (UK)", py "en-gb");
    (py "Spanish", py "es");
    (py "French", py "fr");
    (py "German", py "de");
    (py "Italian", py "it");
    (py "Japanese", py "ja");
    (py "Telugu", py "te");
    (py "Hindi", py "hi") ].

(** [d[k]] with [k in d] as [Some]. *)
Fixpoint dict_get {V : Type} (k : pystr) (d : list (pystr * V)) : option V :=
  match d with
  | [] => None
  | (k', v) :: rest => if str_eqb k' k then Some v else dict_get k rest
  end.

(** [l.index(x)]; [None] stands for the [ValueError]. *)
Fixpoint list_index (x : pystr) (l : list pystr) : option nat :=
  match l with
  | [] => None
  | y :: rest =>
      if str_eqb y x then Some 0
      else match list_index x rest with
           | Some i => Some (S i)
           | None => None
           end
  end.

(** The option each select box shows first. *)
Definition tts_index (s : Session) : nat :=
  match list_index (tts_lang_code s) (map snd tts_languages) with
  | Some i => i
  | None => 0
  end.

Definition trans_index (s : Session) : nat :=
  match list_index (translate_lang_name s) (map fst translation_languages) with
  | Some i => i
  | None => 0
  end.

(** "Update state if changed": what the two select boxes returned is stored
    when it is a key of its dictionary. *)
Definition update_settings (selected_tts_lang_name selected_translate_lang_name : pystr)
    (s : Session) : Session :=
  let s :=
    match dict_get selected_tts_lang_name tts_languages with
    | Some code => set_tts_lang_code code s
    | None => s
    end in
  match dict_get selected_translate_lang_name translation_languages with
  | Some code =>
      set_translate_lang_name selected_translate_lang_name
        (set_translate_lang_code code s)
  | None => s
  end.

(** *** The input column and the follow-up box *)

(** [is_api_ready], read after the sidebar ran. *)
Definition is_api_ready (s : Session) : bool := api_key_configured s.

(** What the four lines under a button that was pressed do. *)
Definition start_action (name : pystr) (s : Session) : Session :=
  set_current_text_to_speak []
    (set_current_audio_data None
       (set_action_trigger (Some name) (set_processing true s))).

(** A widget given [disabled=True] takes no input.  Each function below is
    the effect of one use of a widget, with the [disabled] expression of
    that widget as written in the script. *)

(** The [on_change] callback of the file uploader; [file] is [None] when
    the file was removed. *)
Definition upload_file (file : option bytes) (s : Session) : Session :=
  let disabled := processing s || negb (is_api_ready s) in
  if disabled then s else set_last_uploaded_image file s.

Definition edit_pasted_text (text : pystr) (s : Session) : Session :=
  let disabled := processing s || negb (is_api_ready s) in
  if disabled then s else set_pasted_text_area text s.

Definition edit_feedback (text : pystr) (s : Session) : Session :=
  let disabled :=
    processing s || negb (truthy (last_explanation s)) || negb (is_api_ready s) in
  if disabled then s else set_feedback_input text s.

Definition press_explain_img (s : Session) : Session :=
  let disabled :=
    processing s || negb (truthy_bytes (last_uploaded_image s))
    || negb (is_api_ready s) in
  if disabled then s
  else if truthy_bytes (last_uploaded_image s)
       then start_action (py "explain_image") s
       else s.

Definition press_read_img (s : Session) : Session :=
  let disabled :=
    processing s || negb (truthy_bytes (last_uploaded_image s))
    || negb (is_api_ready s) in
  if disabled then s
  else if truthy_bytes (last_uploaded_image s)
       then start_action (py "read_image") s
       else s.

Definition press_explain_txt (s : Session) : Session :=
  let pasted_text := pasted_text_area s in
  let disabled :=
    processing s || negb (truthy pasted_text) || negb (is_api_ready s) in
  if disabled then s else start_action (py "explain_text") s.

Definition press_read_txt (s : Session) : Session :=
  let pasted_text := pasted_text_area s in
  let disabled :=
    processing s || negb (truthy pasted_text) || negb (is_api_ready s) in
  if disabled then s else start_action (py "read_text") s.

Definition press_send_follow_up (s : Session) : Session :=
  let user_feedback := feedback_input s in
  let disabled :=
    processing s || negb (truthy user_feedback)
    || negb (truthy (last_explanation s)) || negb (is_api_ready s) in
  if disabled then s else start_action (py "follow_up") s.

(** The buttons of the page. *)
Inductive Button : Type :=
| explain_img | read_img | explain_txt | read_txt | send_follow_up.

Definition press (b : Button) : Session -> Session :=
  match b with
  | explain_img => press_explain_img
  | read_img => press_read_img
  | explain_txt => press_explain_txt
  | read_txt => press_read_txt
  | send_follow_up => press_send_follow_up
  end.

(** The action a button stands for. *)
Definition action_of (b : Button) : pystr :=
  match b with
  | explain_img => py "explain_image"
  | read_img => py "read_image"
  | explain_txt => py "explain_text"
  | read_txt => py "read_text"
  | send_follow_up => py "follow_up"
  end.

(** What is shown under "Audio Output". *)
Inductive AudioArea : Type :=
| AudioPlayer (data : bytes)
| GeneratingAudio
| AudioWillAppear.

Definition audio_area (s : Session) : AudioArea :=
  match current_audio_data s with
  | Some (c :: data) => AudioPlayer (c :: data)
  | _ => if processing s then GeneratingAudio else AudioWillAppear
  end.

Definition on_session (f : Session -> Session) (w : World) : World :=
  {| sess := f (sess w); trace := trace w |}.

(** What the sidebar says about the key. *)
Inductive KeyStatus : Type :=
| KeyNotFound
| KeyVerified
| KeyFailedVerification.

Section Page.

Variable env : Env.
Variable GOOGLE_API_KEY : option pystr.
Variable API_KEY_SOURCE : pystr.

(** "API Key Status" in the sidebar. *)
Definition sidebar_api_key_status : M KeyStatus :=
  if api_key_missing GOOGLE_API_KEY then ret KeyNotFound
  else
    s <- get_session ;;
    if negb (api_key_configured s) then
      configure_gemini env GOOGLE_API_KEY API_KEY_SOURCE ;;
      s' <- get_session ;;
      if api_key_configured s' then ret KeyVerified else ret KeyFailedVerification
    else ret KeyVerified.

(** One thing that happens to the session: a use of a widget, the sidebar
    of a pass over the script, or its processing logic. *)
Inductive Step : World -> World -> Prop :=
| step_upload_file (file : option bytes) (w : World) :
    Step w (on_session (upload_file file) w)
| step_edit_pasted_text (text : pystr) (w : World) :
    Step w (on_session (edit_pasted_text text) w)
| step_edit_feedback (text : pystr) (w : World) :
    Step w (on_session (edit_feedback text) w)
| step_update_settings (tts translate : pystr) (w : World) :
    In tts (map fst tts_languages) ->
    In translate (map fst translation_languages) ->
    Step w (on_session (update_settings tts translate) w)
| step_press (b : Button) (w : World) :
    Step w (on_session (press b) w)
| step_sidebar (w : World) :
    Step w (snd (sidebar_api_key_status w))
| step_processing_logic (w : World) :
    Step w (snd (processing_logic env GOOGLE_API_KEY API_KEY_SOURCE w)).

(** The sessions the page can be in, from the defaults on. *)
Inductive Reachable : World -> Prop :=
| reachable_start : Reachable {| sess := default_values; trace := [] |}
| reachable_step (w w' : World) : Reachable w -> Step w w' -> Reachable w'.

End Page.


(** ** Notions used in the further statements *)

(** A computation relates every world it starts in to the world it leaves. *)
Definition Keeps (R : World -> World -> Prop) {A : Type} (c : M A) : Prop :=
  forall w, R w (snd (c w)).

(** The assignments to [st.session_state] that the procedures make, apart
    from the log and from what [configure_gemini] keeps. *)
Inductive Writes : (Session -> Session) -> Prop :=
| writes_last_explanation (v : pystr) : Writes (set_last_explanation v)
| writes_current_text_to_speak (v : pystr) : Writes (set_current_text_to_speak v)
| writes_current_text_note (g : Session -> pystr) :
    Writes (fun s => set_current_text_to_speak (g s) s)
| writes_current_audio_data (v : option bytes) : Writes (set_current_audio_data v)
| writes_processing (v : bool) : Writes (set_processing v)
| writes_action_trigger (v : option pystr) : Writes (set_action_trigger v).

(** The assignments [configure_gemini] makes. *)
Inductive WritesConfig : (Session -> Session) -> Prop :=
| writes_gemini_model (v : option Model) : WritesConfig (set_gemini_model v)
| writes_api_key_configured (v : bool) : WritesConfig (set_api_key_configured v)
| writes_api_key_error_logged (v : bool) : WritesConfig (set_api_key_error_logged v).

(** The session keeps what the user put in and chose. *)
Definition same_inputs (w w' : World) : Prop :=
  last_uploaded_image (sess w') = last_uploaded_image (sess w) /\
  pasted_text_area (sess w') = pasted_text_area (sess w) /\
  feedback_input (sess w') = feedback_input (sess w) /\
  tts_lang_code (sess w') = tts_lang_code (sess w) /\
  translate_lang_code (sess w') = translate_lang_code (sess w) /\
  translate_lang_name (sess w') = translate_lang_name (sess w).

(** The log is as it was, or holds at most [max_log_lines] lines. *)
Definition log_kept_or_bounded (w w' : World) : Prop :=
  log_messages (sess w') = log_messages (sess w) \/
  List.length (log_messages (sess w')) <= max_log_lines.

(** The calls added to the trace all satisfy [allowed]. *)
Definition calls_added (allowed : Call -> Prop) (w w' : World) : Prop :=
  exists ext, trace w' = trace w ++ ext /\ Forall allowed ext.

(** With a model cached, the cache stays as it is and the calls added all
    satisfy [allowed]. *)
Definition cached_calls (allowed : Call -> Prop) (w w' : World) : Prop :=
  model_cached (sess w) = true ->
  gemini_model (sess w') = gemini_model (sess w) /\
  api_key_configured (sess w') = true /\
  calls_added allowed w w'.

(** The calls of the translation client. *)
Definition translator_call (c : Call) : Prop :=
  match c with
  | call_GoogleTranslator _ _ | call_translate _ _ => True
  | _ => False
  end.

(** The calls that are made once a text is there: translation and speech. *)
Definition output_call (c : Call) : Prop :=
  match c with
  | call_GoogleTranslator _ _ | call_translate _ _ | call_gTTS _ _ => True
  | _ => False
  end.

(** The calls of a turn that finds the model cached: one request to the
    model, translation and speech, and no configuration. *)
Definition turn_call (c : Call) : Prop :=
  match c with
  | call_genai_configure _ | call_GenerativeModel _ => False
  | _ => True
  end.

(** [api_key_configured] stands for a cached model and a usable key. *)
Definition coherent (GOOGLE_API_KEY : option pystr) (s : Session) : Prop :=
  api_key_configured s = true ->
  gemini_model s <> None /\ api_key_missing GOOGLE_API_KEY = false.

(** The settings are entries of the two dictionaries. *)
Definition settings_listed (s : Session) : Prop :=
  In (tts_lang_code s) (map snd tts_languages) /\
  In (translate_lang_name s, translate_lang_code s) translation_languages.

(** No action is pending unless [processing] is set. *)
Definition idle_without_action (s : Session) : Prop :=
  processing s = false -> action_trigger s = None.

(** The input an action needs is there: an image, the pasted text, or the
    feedback with an earlier explanation. *)
Definition input_present (b : Button) (s : Session) : bool :=
  match b with
  | explain_img | read_img => truthy_bytes (last_uploaded_image s)
  | explain_txt | read_txt => truthy (pasted_text_area s)
  | send_follow_up => truthy (feedback_input s) && truthy (last_explanation s)
  end.

(** A procedure that keeps [coherent]. *)
Definition coherent_kept (GOOGLE_API_KEY : option pystr) (w w' : World) : Prop :=
  coherent GOOGLE_API_KEY (sess w) -> coherent GOOGLE_API_KEY (sess w').

(** The message of the [ValueError] an action raises without its input. *)
Definition missing_input_message (b : Button) (s : Session) : pystr :=
  match b with
  | explain_img => py "No image data found for explanation."
  | read_img => py "No image data found for reading."
  | explain_txt => py "No pasted text found for explanation."
  | read_txt => py "No pasted text found for reading."
  | send_follow_up =>
      if truthy (feedback_input s)
      then py "No previous explanation context found for follow-up."
      else py "No follow-up text provided."
  end.

(** A walk through the page: the sidebar verifies the key, a text is
    pasted, "Read Pasted Text" is pressed and the processing logic runs. *)
Module Journey.

Definition env : Env := Fixtures.answering (py "2 * 3 = 6").
Definition w0 : World := {| sess := default_values; trace := [] |}.
Definition w1 : World :=
  snd (sidebar_api_key_status env Fixtures.key Fixtures.source w0).
Definition w2 : World := on_session (edit_pasted_text (py "Read  this   aloud")) w1.
Definition w3 : World := on_session (press read_txt) w2.
Definition w4 : World :=
  snd (processing_logic env Fixtures.key Fixtures.source w3).

End Journey.


(* ================================================================= *)
(** * Properties *)

(** ** Facts about the string operations *)

Module PyStrFacts.

Lemma char_eqb_eq (a b : char) : char_eqb a b = true <-> a = b.
Proof. apply N.eqb_eq. Qed.

Lemma char_eqb_neq (a b : char) : char_eqb a b = false <-> a <> b.
Proof. apply N.eqb_neq. Qed.

Lemma str_eqb_eq (a b : pystr) : str_eqb a b = true <-> a = b.
Proof.
  revert b; induction a as [|x a IH]; intros [|y b]; simpl; split; intro H;
    try reflexivity; try discriminate.
  - apply andb_true_iff in H as [Hx Ha].
    apply char_eqb_eq in Hx. apply IH in Ha. now subst.
  - injection H as -> ->. apply andb_true_iff; split.
    + now apply char_eqb_eq.
    + now apply IH.
Qed.

Lemma notin_b (c : char) (l : pystr) :
  forallb (fun y => negb (char_eqb c y)) l = true -> ~ In c l.
Proof.
  induction l as [|y l IH]; simpl; [tauto|]. intros H [E|E].
  - subst y. unfold char_eqb in H. rewrite N.eqb_refl in H. discriminate.
  - apply andb_true_iff in H as [_ H]. now apply IH in H.
Qed.

Lemma in_b (c : char) (l : pystr) :
  existsb (char_eqb c) l = true -> In c l.
Proof.
  intro H. apply existsb_exists in H as (y & Hy & E).
  apply char_eqb_eq in E. now subst.
Qed.

Lemma startswith_head_neq (c x : char) (r s : pystr) :
  c <> x -> startswith (c :: r) (x :: s) = false.
Proof.
  intro H. simpl. apply char_eqb_neq in H. now rewrite H.
Qed.

Lemma contains_absent_head (c : char) (r s : pystr) :
  ~ In c s -> contains (c :: r) s = false.
Proof.
  induction s as [|x s IH]; intro H.
  - reflexivity.
  - cbn [contains]. rewrite startswith_head_neq.
    + apply IH. intro; apply H; now right.
    + intro E; apply H; now left.
Qed.

Lemma replace_from_no_occurrence (old new s : pystr) :
  contains old s = false -> replace_from old new 0 s = s.
Proof.
  induction s as [|x s IH]; intro H.
  - reflexivity.
  - cbn [contains] in H. apply orb_false_iff in H as [H1 H2].
    cbn [replace_from]. rewrite H1. f_equal. now apply IH.
Qed.

(** A text in which [old] does not occur is left as it is. *)
Lemma replace_no_occurrence (s old new : pystr) :
  old <> [] -> contains old s = false -> replace s old new = s.
Proof.
  destruct old as [|c r]; [congruence|]. intros _ H.
  now apply replace_from_no_occurrence.
Qed.

Lemma replace_absent (s : pystr) (c : char) (r new : pystr) :
  ~ In c s -> replace s (c :: r) new = s.
Proof.
  intro H. apply replace_no_occurrence; [discriminate|].
  now apply contains_absent_head.
Qed.

Lemma in_replace_from (x : char) (old new : pystr) (s : pystr) :
  forall k, In x (replace_from old new k s) -> In x s \/ In x new.
Proof.
  induction s as [|y s IH]; intros k H.
  - now left.
  - cbn [replace_from] in H. destruct k as [|k].
    + destruct (startswith old (y :: s)).
      * apply in_app_or in H as [H|H]; [now right|].
        apply IH in H as [H|H]; [left; now right | now right].
      * destruct H as [H|H]; [left; now left|].
        apply IH in H as [H|H]; [left; now right | now right].
    + apply IH in H as [H|H]; [left; now right | now right].
Qed.

(** A replacement only brings in characters of [new]. *)
Lemma in_replace (x : char) (s old new : pystr) :
  In x (replace s old new) -> In x s \/ In x new.
Proof.
  destruct old as [|c r]; cbn [replace].
  - intro H. apply in_app_or in H as [H|H]; [now right|].
    apply in_flat_map in H as (y & Hy & [E|E]); [left; now subst | now right].
  - apply in_replace_from.
Qed.

Lemma notin_replace (c : char) (s old new : pystr) :
  ~ In c new -> ~ In c s -> ~ In c (replace s old new).
Proof.
  intros Hn Hs H. apply in_replace in H. tauto.
Qed.

(** Replacing a single character removes it. *)
Lemma notin_replace_single (c : char) (s new : pystr) :
  ~ In c new -> ~ In c (replace s [c] new).
Proof.
  intro Hn. cbn [replace].
  induction s as [|y s IH]; cbn [replace_from]; [tauto|].
  destruct (startswith [c] (y :: s)) eqn:E.
  - cbn [List.length Nat.sub]. intro H. apply in_app_or in H. tauto.
  - cbn [startswith] in E. rewrite andb_true_r in E. apply char_eqb_neq in E.
    intros [H|H]; [congruence | tauto].
Qed.

Lemma split_words (s : pystr) : Forall word_ok (split s).
Proof.
  induction s as [|c t IH]; cbn [split]; [constructor|].
  destruct (isspace c) eqn:Hc; [assumption|].
  destruct t as [|d t'].
  - repeat constructor; [discriminate | assumption].
  - destruct (isspace d) eqn:Hd.
    + constructor; [|assumption]. repeat constructor; [discriminate | assumption].
    + destruct (split (d :: t')) as [|w ws].
      * repeat constructor; [discriminate | assumption].
      * inversion IH as [|? ? [Hw1 Hw2] Hws]; subst.
        constructor; [|assumption]. split; [discriminate | now constructor].
Qed.

Lemma in_split (s : pystr) :
  forall w x, In w (split s) -> In x w -> In x s /\ isspace x = false.
Proof.
  assert (Hsingle : forall (c : char) (t : pystr) w x,
             isspace c = false -> In w [[c]] -> In x w ->
             In x (c :: t) /\ isspace x = false).
  { intros c t w x Hc Hw Hx. simpl in Hw. destruct Hw as [<-|F]; [|contradiction].
    simpl in Hx. destruct Hx as [<-|F]; [|contradiction].
    split; [now left | assumption]. }
  induction s as [|c t IH]; cbn [split]; intros w x Hw Hx; [contradiction|].
  destruct (isspace c) eqn:Hc.
  - destruct (IH w x Hw Hx). split; [now right | assumption].
  - destruct t as [|d t']; [now apply Hsingle with (w := w)|].
    destruct (isspace d) eqn:Hd.
    + destruct Hw as [Hw|Hw].
      * apply Hsingle with (w := w); [assumption | now left | assumption].
      * destruct (IH w x Hw Hx). split; [now right | assumption].
    + destruct (split (d :: t')) as [|w0 ws]; [now apply Hsingle with (w := w)|].
      destruct Hw as [<-|Hw].
      * destruct Hx as [<-|Hx]; [split; [now left | assumption]|].
        destruct (IH w0 x (or_introl eq_refl) Hx). split; [now right | assumption].
      * destruct (IH w x (or_intror Hw) Hx). split; [now right | assumption].
Qed.

Lemma split_word_then_space (w rest : pystr) :
  word_ok w -> split (w ++ 32%N :: rest) = w :: split rest.
Proof.
  intros [Hne Hw]. induction w as [|c t IH]; [congruence|].
  inversion Hw as [|? ? Hc Ht]; subst.
  destruct t as [|d t'].
  - cbn [app split]. rewrite Hc. reflexivity.
  - change ((c :: d :: t') ++ 32%N :: rest) with (c :: ((d :: t') ++ 32%N :: rest)).
    cbn [split]. rewrite Hc.
    change (d :: t' ++ 32%N :: rest) with ((d :: t') ++ 32%N :: rest).
    inversion Ht as [|? ? Hd _]; subst.
    cbn [app]. rewrite Hd.
    change (d :: t' ++ 32%N :: rest) with ((d :: t') ++ 32%N :: rest).
    rewrite IH; [reflexivity | discriminate | assumption].
Qed.

Lemma split_word (w : pystr) : word_ok w -> split w = [w].
Proof.
  intros [Hne Hw]. induction w as [|c t IH]; [congruence|].
  inversion Hw as [|? ? Hc Ht]; subst.
  destruct t as [|d t'].
  - cbn [split]. now rewrite Hc.
  - assert (E : split (d :: t') = [d :: t']) by (apply IH; [discriminate | assumption]).
    inversion Ht as [|? ? Hd _]; subst.
    change (split (c :: d :: t')) with
      (if isspace c then split (d :: t')
       else if isspace d then [c] :: split (d :: t')
            else match split (d :: t') with
                 | w :: ws => (c :: w) :: ws
                 | [] => [[c]]
                 end).
    rewrite Hc, Hd, E. reflexivity.
Qed.

End PyStrFacts.
Import PyStrFacts.

(** ** The text cleaner *)

Section CleanFacts.

Let sp : pystr := [32%N].

Lemma join_cons2 (w w2 : pystr) (ws : list pystr) :
  join sp (w :: w2 :: ws) = w ++ 32%N :: join sp (w2 :: ws).
Proof. reflexivity. Qed.

(** Splitting the joined words gives the words back. *)
Lemma split_join (ws : list pystr) :
  Forall word_ok ws -> split (join sp ws) = ws.
Proof.
  induction ws as [|w ws IH]; intro H; [reflexivity|].
  inversion H as [|? ? Hw Hws]; subst.
  destruct ws as [|w2 ws].
  - now apply split_word.
  - rewrite join_cons2, split_word_then_space by assumption.
    f_equal. now apply IH.
Qed.

Lemma in_join (x : char) (ws : list pystr) :
  In x (join sp ws) -> x = 32%N \/ exists w, In w ws /\ In x w.
Proof.
  induction ws as [|w ws IH]; [contradiction|].
  destruct ws as [|w2 ws].
  - intro H. right. exists w. split; [now left | assumption].
  - rewrite join_cons2. intro H. apply in_app_or in H as [H|[H|H]].
    + right. exists w. split; [now left | assumption].
    + now left.
    + destruct (IH H) as [E|(w' & Hw' & Hx)]; [now left|].
      right. exists w'. split; [now right | assumption].
Qed.

Lemma contains_2sp_skip_word (w rest : pystr) :
  Forall (fun c => isspace c = false) w ->
  contains [32%N; 32%N] (w ++ rest) = contains [32%N; 32%N] rest.
Proof.
  induction 1 as [|c w Hc Hw IH]; [reflexivity|].
  change ((c :: w) ++ rest) with (c :: (w ++ rest)).
  cbn [contains]. rewrite startswith_head_neq; [exact IH|].
  intros <-. discriminate.
Qed.

(** Joined words never show two spaces in a row. *)
Lemma join_no_double_space (ws : list pystr) :
  Forall word_ok ws -> contains [32%N; 32%N] (join sp ws) = false.
Proof.
  induction ws as [|w ws IH]; intro H; [reflexivity|].
  inversion H as [|? ? [Hne Hw] Hws]; subst.
  destruct ws as [|w2 ws].
  - cbn [join]. rewrite <- (app_nil_r w). now rewrite contains_2sp_skip_word.
  - rewrite join_cons2, contains_2sp_skip_word by assumption.
    specialize (IH Hws).
    inversion Hws as [|? ? [Hne2 Hw2] _]; subst.
    destruct w2 as [|d w2]; [congruence|].
    inversion Hw2 as [|? ? Hd _]; subst.
    assert (E : exists r, join sp ((d :: w2) :: ws) = d :: r).
    { destruct ws; [now exists w2 | eexists; reflexivity]. }
    destruct E as [r E]. rewrite E in IH |- *.
    cbn [contains] in IH |- *. rewrite IH, orb_false_r.
    cbn [startswith]. replace (char_eqb 32%N d) with false; [reflexivity|].
    symmetry. apply char_eqb_neq. intros <-. discriminate.
Qed.

Ltac eval_literals :=
  repeat match goal with
         | |- context [py ?s] =>
             let v := eval vm_compute in (py s) in change (py s) with v
         end.

Ltac absent_after_replaces :=
  repeat first
    [ apply notin_replace_single; apply notin_b; reflexivity
    | apply notin_replace; [apply notin_b; reflexivity|] ].

(** After the substitutions none of the symbols is left, apart from the
    line break, which the final split removes. *)
Lemma substitutions_remove_symbols (text : pystr) (c : char) :
  In c removed_symbols -> c <> 10%N ->
  ~ In c (replace (replace (symbol_substitutions text) (py "+") (py " plus "))
            (py "-") (py " minus ")).
Proof.
  intros Hc Hnl. unfold symbol_substitutions, NEWLINE. eval_literals.
  unfold removed_symbols in Hc. simpl in Hc.
  repeat (destruct Hc as [<-|Hc];
          [first [exfalso; apply Hnl; reflexivity | absent_after_replaces]|]).
  contradiction.
Qed.

Lemma clean_no_symbols (text : pystr) (c : char) :
  In c removed_symbols -> ~ In c (clean_text_for_speech text).
Proof.
  intros Hc H. unfold clean_text_for_speech in H.
  change (py " ") with sp in H.
  apply in_join in H as [->|(w & Hw & Hx)].
  - unfold removed_symbols in Hc. simpl in Hc. intuition discriminate.
  - destruct (in_split _ _ _ Hw Hx) as [Hin Hsp].
    destruct (N.eq_dec c 10) as [->|Hnl]; [vm_compute in Hsp; discriminate Hsp|].
    apply (substitutions_remove_symbols text Hc Hnl). exact Hin.
Qed.

Lemma clean_is_joined_words (text : pystr) :
  exists ws, Forall word_ok ws /\ clean_text_for_speech text = join sp ws.
Proof.
  eexists. split; [|reflexivity]. apply split_words.
Qed.

(** C7. The cleaner is idempotent: cleaning a cleaned text changes nothing,
    for every input string. *)
Theorem clean_text_for_speech_idempotent (x : pystr) :
  clean_text_for_speech (clean_text_for_speech x) = clean_text_for_speech x.
Proof.
  destruct (clean_is_joined_words x) as (ws & Hws & E).
  pose proof (clean_no_symbols x) as Habs.
  remember (clean_text_for_speech x) as t eqn:Ht. clear Ht.
  unfold clean_text_for_speech, symbol_substitutions, NEWLINE. eval_literals.
  repeat match goal with
         | |- context [replace t [32%N; 32%N] ?new] =>
             rewrite (@replace_no_occurrence t [32%N; 32%N] new)
               by (try discriminate; rewrite E; now apply join_no_double_space)
         | |- context [replace t (?c :: ?r) ?new] =>
             rewrite (@replace_absent t c r new)
               by (apply Habs; apply in_b; reflexivity)
         end.
  rewrite E. f_equal. now apply split_join.
Qed.

(** C8. On the text "100% + 5 = 105" the cleaner spells every symbol out
    once: the result holds the words percent, plus and equals and none of
    the three symbols.  The plus and minus signs are replaced after all
    other substitutions, and no cleaned text holds either sign. *)
Theorem clean_percent_plus_equals :
  let out := clean_text_for_speech (py "100% + 5 = 105") in
  out = py "100 percent plus 5 equals 105" /\
  contains (py "percent") out = true /\
  contains (py "plus") out = true /\
  contains (py "equals") out = true /\
  contains (py "%") out = false /\
  contains (py "+") out = false /\
  contains (py "=") out = false /\
  (forall text,
      clean_text_for_speech text =
      join (py " ")
        (split (replace (replace (symbol_substitutions text) (py "+") (py " plus "))
                  (py "-") (py " minus ")))) /\
  (forall text, ~ In 43%N (clean_text_for_speech text)
                /\ ~ In 45%N (clean_text_for_speech text)).
Proof.
  intro out.
  repeat match goal with |- _ /\ _ => split end;
    try (intro text; reflexivity); try (vm_compute; reflexivity).
  intro text. split; apply clean_no_symbols; apply in_b; reflexivity.
Qed.

End CleanFacts.

(** ** The script's procedures *)

(** Runs the monad's combinators and the record projections as far as the
    next call whose outcome is not known. *)
Ltac run :=
  cbv beta iota zeta delta
    [bind ret raise try_except try_finally get_session modify lift external
     log_message];
  cbn [fst snd sess trace
       log_messages processing current_audio_data current_text_to_speak
       last_explanation last_uploaded_image action_trigger tts_lang_code
       translate_lang_code translate_lang_name gemini_model api_key_configured
       _api_key_error_logged pasted_text_area feedback_input
       set_log_messages set_processing set_current_audio_data
       set_current_text_to_speak set_last_explanation set_action_trigger
       set_gemini_model set_api_key_configured set_api_key_error_logged
       config_erased output_erased].

Ltac run_in H :=
  cbv beta iota zeta delta
    [bind ret raise try_except try_finally get_session modify lift external
     log_message] in H;
  cbn [fst snd sess trace
       log_messages processing current_audio_data current_text_to_speak
       last_explanation last_uploaded_image action_trigger tts_lang_code
       translate_lang_code translate_lang_name gemini_model api_key_configured
       _api_key_error_logged pasted_text_area feedback_input
       set_log_messages set_processing set_current_audio_data
       set_current_text_to_speak set_last_explanation set_action_trigger
       set_gemini_model set_api_key_configured set_api_key_error_logged
       config_erased output_erased] in H.

Lemma only_log_config (w w' : World) : only_log w w' -> only_config w w'.
Proof.
  unfold only_log, only_config. destruct w as [[] t], w' as [[] t']. run.
  intro H. injection H. intros. subst. reflexivity.
Qed.

Lemma only_log_output (w w' : World) : only_log w w' -> only_output w w'.
Proof.
  unfold only_log, only_output. destruct w as [[] t], w' as [[] t']. run.
  intro H. injection H. intros. subst. reflexivity.
Qed.

Lemma only_config_trans (w1 w2 w3 : World) :
  only_config w1 w2 -> only_config w2 w3 -> only_config w1 w3.
Proof. unfold only_config. congruence. Qed.

(** What a change of the configuration fields and of the log leaves alone. *)
Lemma only_config_fields (w w' : World) :
  only_config w w' ->
  processing (sess w') = processing (sess w) /\
  current_audio_data (sess w') = current_audio_data (sess w) /\
  current_text_to_speak (sess w') = current_text_to_speak (sess w) /\
  last_explanation (sess w') = last_explanation (sess w) /\
  last_uploaded_image (sess w') = last_uploaded_image (sess w) /\
  action_trigger (sess w') = action_trigger (sess w) /\
  tts_lang_code (sess w') = tts_lang_code (sess w) /\
  translate_lang_code (sess w') = translate_lang_code (sess w) /\
  translate_lang_name (sess w') = translate_lang_name (sess w) /\
  pasted_text_area (sess w') = pasted_text_area (sess w) /\
  feedback_input (sess w') = feedback_input (sess w).
Proof.
  unfold only_config. destruct w as [[] t], w' as [[] t']. run.
  intro H. injection H. intros. repeat split; assumption.
Qed.

Lemma only_output_fields (w w' : World) :
  only_output w w' ->
  processing (sess w') = processing (sess w) /\
  last_explanation (sess w') = last_explanation (sess w) /\
  action_trigger (sess w') = action_trigger (sess w) /\
  tts_lang_code (sess w') = tts_lang_code (sess w) /\
  translate_lang_code (sess w') = translate_lang_code (sess w) /\
  translate_lang_name (sess w') = translate_lang_name (sess w).
Proof.
  unfold only_output. destruct w as [[] t], w' as [[] t']. run.
  intro H. injection H. intros. repeat split; assumption.
Qed.

Section Translation.

Variable env : Env.


(** The loop only adds calls to the trace. *)
Lemma translate_chunks_frame (code text : pystr) (idxs : list nat) :
  forall acc w, exists r w' ext,
    translate_chunks env code text idxs acc w = (r, w') /\
    sess w' = sess w /\ trace w' = trace w ++ ext.
Proof.
  induction idxs as [|i rest IH]; intros acc w; cbn [translate_chunks].
  - exists (Ok acc), w, []. run. now rewrite app_nil_r.
  - run. destruct (translator_translate env (trace w) code _) as [r|e].
    + edestruct IH as (r' & w' & ext & E & Hs & Ht). rewrite E.
      exists r', w', (call_translate code (slice text i (i + max_chunk_size)) :: ext).
      run_in Hs. run_in Ht. rewrite <- app_assoc in Ht. repeat split; assumption.
    + eexists _, _, [_]. repeat split.
Qed.

(** If the call for some chunk raises, the loop raises. *)
Lemma translate_chunks_fails (code text : pystr) (idxs : list nat) :
  forall acc w k e,
    k < List.length idxs ->
    translator_translate env
      (trace w ++ map (call_translate code) (firstn k (map (fun i => slice text i (i + max_chunk_size)) idxs)))
      code (nth k (map (fun i => slice text i (i + max_chunk_size)) idxs) []) = Raise e ->
    exists e' w', translate_chunks env code text idxs acc w = (Raise e', w').
Proof.
  induction idxs as [|i rest IH]; intros acc w k e Hk H; cbn [List.length] in Hk; [lia|].
  cbn [translate_chunks]. run.
  destruct (translator_translate env (trace w) code _) as [r|e1] eqn:E1.
  - destruct k as [|k].
    + cbn [map firstn nth] in H. rewrite app_nil_r in H. congruence.
    + eapply IH with (k := k) (e := e); [lia|]. run.
      cbn [map firstn nth] in H. rewrite <- app_assoc. exact H.
  - eauto.
Qed.

Lemma py_range_nonempty (n step : nat) :
  0 < n -> exists rest, py_range 0 n step = 0 :: rest.
Proof.
  intro H. unfold py_range. destruct n as [|n]; [lia|].
  cbn [range_from]. replace (0 <? S n) with true by (symmetry; now apply Nat.ltb_lt).
  eauto.
Qed.

Lemma truthy_length (s : pystr) : truthy s = true -> 0 < List.length s.
Proof. destruct s; [discriminate|]. cbn. lia. Qed.

(** [translate_if_needed] never raises, touches only the log, and gives
    the empty text back for the empty text. *)
Lemma translate_if_needed_run (text : pystr) (target : option pystr) (name : pystr)
    (w : World) :
  exists t w' ext,
    translate_if_needed env text target name w = (Ok t, w') /\
    only_log w w' /\ trace w' = trace w ++ ext /\ (text = [] -> t = []).
Proof.
  unfold translate_if_needed. destruct target as [code|].
  2:{ exists text, w, []. run. rewrite app_nil_r. repeat split; auto. }
  destruct (negb (truthy code) || str_eqb code (py "en")).
  { exists text, w, []. run. rewrite app_nil_r. repeat split; auto. }
  destruct text as [|c text']; cbn [truthy negb].
  { eexists _, _, []. run. rewrite app_nil_r. repeat split. }
  run. destruct (GoogleTranslator env (trace w) code) as [[]|e].
  - run.
    match goal with
    | |- context [translate_chunks env code ?t ?i ?a ?w0] =>
        destruct (translate_chunks_frame code t i a w0) as (r & w1 & ext & E & Hs & Ht);
        rewrite E
    end.
    run_in Hs. run_in Ht. rewrite <- app_assoc in Ht.
    destruct r as [t|e]; run.
    + eexists _, _, _. split; [reflexivity|]. unfold only_log. run. rewrite Hs.
      repeat split; [exact Ht | discriminate].
    + eexists _, _, _. split; [reflexivity|]. unfold only_log. run. rewrite Hs.
      repeat split; [exact Ht | discriminate].
  - run. eexists _, _, [_]. repeat split. discriminate.
Qed.

(** When the service fails, the text comes back as it was given. *)
Lemma translate_if_needed_failure (text code name : pystr) (w : World) :
  translation_fails env (trace w) text code ->
  fst (translate_if_needed env text (Some code) name w) = Ok text.
Proof.
  intro Hf. unfold translate_if_needed.
  destruct (negb (truthy code) || str_eqb code (py "en")); [reflexivity|].
  destruct text as [|c text']; cbn [truthy negb]; [reflexivity|].
  run. destruct (GoogleTranslator env (trace w) code) as [[]|e] eqn:EG; [|reflexivity].
  run. destruct Hf as [(e & He)|(k & e & Hk & He)]; [congruence|].
  unfold chunks_of in Hk, He. rewrite length_map in Hk.
  match goal with
  | |- context [translate_chunks env code ?t ?i ?a ?w0] =>
      destruct (@translate_chunks_fails code t i a w0 k e Hk) as (e' & w' & E)
  end.
  - run. rewrite <- app_assoc. exact He.
  - rewrite E. reflexivity.
Qed.

(** C2. What [translate_if_needed] does with each target.  It hands its
    input back, without a call to the service, when the target code is
    [None], empty or "en".  For every non-empty text and every other code
    of [translation_languages] (te, hi, es, fr and de) it takes the
    chunked translation path: the client for that language is requested,
    and once it is built the first chunk of at most 4500 characters is
    sent.  So of the targets the sidebar offers, "English" alone never
    reaches the service, although [translation_languages] lists it, beside
    the separate entry for no translation, as "useful if original is
    different". *)
Theorem translate_if_needed_paths (text name : pystr) (w : World) :
  (forall target,
      target = None \/ target = Some [] \/ target = Some (py "en") ->
      translate_if_needed env text target name w = (Ok text, w)) /\
  (forall language code,
      In (language, Some code) translation_languages ->
      code <> py "en" ->
      truthy text = true ->
      exists r w' rest,
        translate_if_needed env text (Some code) name w = (Ok r, w') /\
        trace w' = trace w ++ call_GoogleTranslator (py "auto") code :: rest /\
        (GoogleTranslator env (trace w) code = Ok tt ->
         exists rest', rest = call_translate code (firstn max_chunk_size text) :: rest')).
Proof.
  split.
  - intros target [->|[->| ->]]; reflexivity.
  - intros language code Hc Hen Ht.
    assert (Hsel : negb (truthy code) || str_eqb code (py "en") = false).
    { unfold translation_languages in Hc. cbn [In] in Hc.
      repeat (destruct Hc as [Hc|Hc];
              [first [discriminate Hc
                     | injection Hc as _ <-; first [reflexivity | now elim Hen]]|]).
      contradiction. }
    unfold translate_if_needed. rewrite Hsel, Ht. cbn [negb]. run.
    destruct (GoogleTranslator env (trace w) code) as [[]|e] eqn:EG.
    + run. destruct (@py_range_nonempty (List.length text) max_chunk_size
                       (truthy_length _ Ht)) as (idxs & Er).
      rewrite Er. cbn [translate_chunks]. run.
      destruct (translator_translate env _ code _) as [r|e].
      * match goal with
        | |- context [translate_chunks env code ?t ?i ?a ?w0] =>
            destruct (translate_chunks_frame code t i a w0) as (r' & w1 & ext & E & Hs & Htr);
            rewrite E
        end.
        run_in Htr. rewrite <- !app_assoc in Htr. cbn [app] in Htr.
        destruct r' as [t|e]; run.
        -- eexists _, _, _. split; [reflexivity|]. run. split; [exact Htr|].
           intros _. unfold slice. rewrite Nat.add_0_l, Nat.sub_0_r. cbn [skipn]. eauto.
        -- eexists _, _, _. split; [reflexivity|]. run. split; [exact Htr|].
           intros _. unfold slice. rewrite Nat.add_0_l, Nat.sub_0_r. cbn [skipn]. eauto.
      * run. eexists _, _, _. split; [reflexivity|]. run.
        rewrite <- app_assoc. cbn [app]. split; [reflexivity|].
        intros _. unfold slice. rewrite Nat.add_0_l, Nat.sub_0_r. cbn [skipn]. eauto.
    + run. eexists _, _, _. split; [reflexivity|]. run. split; [reflexivity|].
      intro; discriminate.
Qed.

End Translation.

Section Adapters.

Variable env : Env.
Variable key : option pystr.
Variable src : pystr.


(** [generate_speech] never raises; it calls the service exactly when the
    text is not empty. *)
Lemma generate_speech_run (text lang : pystr) (w : World) :
  exists a w',
    generate_speech env text lang w = (Ok a, w') /\ only_log w w' /\
    (truthy text = false -> a = None /\ trace w' = trace w) /\
    (truthy text = true ->
     a = match gTTS env (trace w) text lang with Ok b => Some b | Raise _ => None end /\
     trace w' = trace w ++ [call_gTTS text lang]).
Proof.
  unfold generate_speech. destruct (truthy text); cbn [negb]; run.
  - destruct (gTTS env (trace w) text lang) as [b|e]; run;
      eexists _, _; (split; [reflexivity|]); (split; [reflexivity|]);
      split; try discriminate; intros _; split; reflexivity.
  - eexists _, _. split; [reflexivity|]. split; [reflexivity|].
    split; try discriminate. intros _; split; reflexivity.
Qed.

Lemma model_cached_inv (s : Session) :
  model_cached s = true ->
  exists m, gemini_model s = Some m /\ api_key_configured s = true.
Proof.
  unfold model_cached. destruct (gemini_model s); [eauto | discriminate].
Qed.

(** The three ways through [configure_gemini]. *)
Lemma configure_gemini_run (w : World) :
  exists m w',
    configure_gemini env key src w = (Ok m, w') /\ only_config w w' /\
    (model_cached (sess w) = true -> m = gemini_model (sess w) /\ w' = w) /\
    (model_cached (sess w) = false -> api_key_missing key = true ->
     m = None /\ trace w' = trace w /\ api_key_configured (sess w') = false) /\
    (model_cached (sess w) = false -> api_key_missing key = false ->
     (trace w' = trace w ++ [call_genai_configure (api_key_value key)] \/
      trace w' = trace w ++ [call_genai_configure (api_key_value key);
                             call_GenerativeModel (py "gemini-2.0-flash")]) /\
     (m = None -> api_key_configured (sess w') = false)).
Proof.
  unfold configure_gemini, model_cached. run.
  destruct (gemini_model (sess w)) as [m|] eqn:Em;
    [destruct (api_key_configured (sess w)) eqn:Ec|].
  - run. exists (Some m), w. repeat split; intros; try discriminate; reflexivity.
  - destruct (api_key_missing key) eqn:Ek.
    + destruct (_api_key_error_logged (sess w)); cbn [negb]; run;
        eexists _, _; (split; [reflexivity|]);
        (split; [unfold only_config; run; reflexivity|]);
        repeat split; intros; try discriminate; reflexivity.
    + run. destruct (genai_configure env (trace w) _) as [[]|e]; run.
      * destruct (genai_GenerativeModel env _ _) as [m'|e]; run;
          eexists _, _; (split; [reflexivity|]);
          (split; [unfold only_config; run; reflexivity|]);
          repeat split; intros; try discriminate; try reflexivity;
          right; rewrite <- app_assoc; reflexivity.
      * eexists _, _. split; [reflexivity|].
        split; [unfold only_config; run; reflexivity|].
        repeat split; intros; try discriminate; try reflexivity. now left.
  - destruct (api_key_missing key) eqn:Ek.
    + destruct (_api_key_error_logged (sess w)); cbn [negb]; run;
        eexists _, _; (split; [reflexivity|]);
        (split; [unfold only_config; run; reflexivity|]);
        repeat split; intros; try discriminate; reflexivity.
    + run. destruct (genai_configure env (trace w) _) as [[]|e]; run.
      * destruct (genai_GenerativeModel env _ _) as [m'|e]; run;
          eexists _, _; (split; [reflexivity|]);
          (split; [unfold only_config; run; reflexivity|]);
          repeat split; intros; try discriminate; try reflexivity;
          right; rewrite <- app_assoc; reflexivity.
      * eexists _, _. split; [reflexivity|].
        split; [unfold only_config; run; reflexivity|].
        repeat split; intros; try discriminate; try reflexivity. now left.
Qed.

(** [get_gemini_response] never raises.  Its result either starts with
    the error marker or is the stripped text of a reply the model returned. *)
Lemma get_gemini_response_run (prompt : pystr) (image_bytes : option bytes)
    (text_input : option pystr) (w : World) :
  exists r w',
    get_gemini_response env key src prompt image_bytes text_input w = (Ok r, w') /\
    only_config w w' /\
    (startswith ERROR_MARKER r = true \/
     exists h m c resp t,
       model_generate_content env h m c = Ok resp /\
       response_text resp = Ok t /\ r = strip t).
Proof.
  unfold get_gemini_response.
  destruct (configure_gemini_run w) as (m & w1 & E & Hc & _).
  unfold only_config in Hc. run. rewrite E.
  assert (Hleaf : forall r (l : list pystr),
             startswith ERROR_MARKER r = true ->
             exists r0 w',
               (Ok r, {| sess := set_log_messages l (sess w1); trace := trace w1 |})
               = (Ok r0, w') /\ only_config w w' /\
               (startswith ERROR_MARKER r0 = true \/
                exists h m c resp t,
                  model_generate_content env h m c = Ok resp /\
                  response_text resp = Ok t /\ r0 = strip t)).
  { intros r l Hr. eexists _, _. split; [reflexivity|]. split; [exact Hc|now left]. }
  destruct m as [model|]; [|now apply Hleaf].
  destruct (truthy_bytes image_bytes).
  - run. destruct (Image_open env _) as [[]|e]; run; [|now apply Hleaf].
    destruct (model_generate_content env _ _ _) as [resp|e] eqn:Eg; run;
      [|eexists _, _; split; [reflexivity|]; split; [exact Hc|now left]].
    destruct (response_parts resp).
    + run. destruct (response_prompt_feedback resp) as [fb|e]; run;
        [|eexists _, _; split; [reflexivity|]; split; [exact Hc|now left]].
      destruct (block_reason fb) as [reason|e]; run;
        [|eexists _, _; split; [reflexivity|]; split; [exact Hc|now left]].
      destruct (safety_ratings fb) as [ratings|e]; run;
        eexists _, _; (split; [reflexivity|]); (split; [exact Hc|now left]).
    + run. destruct (response_text resp) as [t|e] eqn:Et; run;
        eexists _, _; (split; [reflexivity|]); (split; [exact Hc|]);
        [right; eauto 10 | now left].
  - destruct (truthy_opt text_input); run.
    + destruct (model_generate_content env _ _ _) as [resp|e] eqn:Eg; run;
        [|eexists _, _; split; [reflexivity|]; split; [exact Hc|now left]].
      destruct (response_parts resp).
      * run. destruct (response_prompt_feedback resp) as [fb|e]; run;
          [|eexists _, _; split; [reflexivity|]; split; [exact Hc|now left]].
        destruct (block_reason fb) as [reason|e]; run;
          [|eexists _, _; split; [reflexivity|]; split; [exact Hc|now left]].
        destruct (safety_ratings fb) as [ratings|e]; run;
          eexists _, _; (split; [reflexivity|]); (split; [exact Hc|now left]).
      * run. destruct (response_text resp) as [t|e] eqn:Et; run;
          eexists _, _; (split; [reflexivity|]); (split; [exact Hc|]);
          [right; eauto 10 | now left].
    + destruct (model_generate_content env _ _ _) as [resp|e] eqn:Eg; run;
        [|eexists _, _; split; [reflexivity|]; split; [exact Hc|now left]].
      destruct (response_parts resp).
      * run. destruct (response_prompt_feedback resp) as [fb|e]; run;
          [|eexists _, _; split; [reflexivity|]; split; [exact Hc|now left]].
        destruct (block_reason fb) as [reason|e]; run;
          [|eexists _, _; split; [reflexivity|]; split; [exact Hc|now left]].
        destruct (safety_ratings fb) as [ratings|e]; run;
          eexists _, _; (split; [reflexivity|]); (split; [exact Hc|now left]).
      * run. destruct (response_text resp) as [t|e] eqn:Et; run;
          eexists _, _; (split; [reflexivity|]); (split; [exact Hc|]);
          [right; eauto 10 | now left].
Qed.

End Adapters.

Section Configuration.

Variable env : Env.
Variable key : option pystr.
Variable src : pystr.


Lemma configure_attempts_app (t u : list Call) :
  configure_attempts (t ++ u) = configure_attempts t + configure_attempts u.
Proof.
  unfold configure_attempts. now rewrite filter_app, length_app.
Qed.

(** C4 (as amended). [configure_gemini] keeps no record of a failed
    verification.  It makes no configuration attempt when a model is cached
    from an earlier success, or when the key is missing or the placeholder.
    In every other call, also right after a failed attempt with the same
    key, it makes one new attempt against the service. *)
Theorem configure_gemini_attempts (w : World) :
  let w1 := snd (configure_gemini env key src w) in
  (model_cached (sess w) = true ->
   configure_gemini env key src w = (Ok (gemini_model (sess w)), w)) /\
  (model_cached (sess w) = false -> api_key_missing key = true ->
   fst (configure_gemini env key src w) = Ok None /\ trace w1 = trace w) /\
  (model_cached (sess w) = false -> api_key_missing key = false ->
   configure_attempts (trace w1) = S (configure_attempts (trace w))) /\
  (api_key_missing key = false ->
   fst (configure_gemini env key src w) = Ok None ->
   model_cached (sess w1) = false /\
   configure_attempts (trace (snd (configure_gemini env key src w1)))
   = S (configure_attempts (trace w1))).
Proof.
  assert (Hattempt : forall w0,
             model_cached (sess w0) = false ->
             api_key_missing key = false ->
             configure_attempts (trace (snd (configure_gemini env key src w0)))
             = S (configure_attempts (trace w0))).
  { intros w0 Hc Hk.
    destruct (configure_gemini_run env key src w0)
      as (m & w' & E & _ & _ & _ & H).
    rewrite E. cbn [snd]. destruct (H Hc Hk) as [[-> | ->] _];
      rewrite configure_attempts_app; cbn; lia. }
  intro w1. subst w1.
  destruct (configure_gemini_run env key src w)
    as (m & w' & E & _ & H1 & H2 & H3).
  assert (Hfail : api_key_missing key = false -> m = None ->
                  model_cached (sess w') = false).
  { intros Hk ->. destruct (model_cached (sess w)) eqn:Hc.
    - destruct (H1 eq_refl) as [Hm _]. apply model_cached_inv in Hc as (m & Em & _).
      congruence.
    - destruct (H3 eq_refl Hk) as [_ Hnone].
      unfold model_cached. rewrite (Hnone eq_refl). now destruct (gemini_model (sess w')). }
  rewrite E. cbn [fst snd]. split; [|split; [|split]].
  - intro Hc. destruct (H1 Hc) as [-> ->]. reflexivity.
  - intros Hc Hk. destruct (H2 Hc Hk) as (-> & Ht & _). now split.
  - intros Hc Hk. specialize (Hattempt w Hc Hk). now rewrite E in Hattempt.
  - intros Hk Hm. injection Hm as ->. split; [now apply Hfail|].
    apply Hattempt; [now apply Hfail | assumption].
Qed.

End Configuration.

Section TranslationIndependence.

Variable env : Env.

(** The text a translation gives, and the calls it makes, depend on the
    calls made before it and not on the session. *)
Lemma translate_chunks_indep (code text : pystr) (idxs : list nat) :
  forall acc w w',
    trace w = trace w' ->
    fst (translate_chunks env code text idxs acc w)
    = fst (translate_chunks env code text idxs acc w') /\
    trace (snd (translate_chunks env code text idxs acc w))
    = trace (snd (translate_chunks env code text idxs acc w')).
Proof.
  induction idxs as [|i rest IH]; intros acc w w' Ht; cbn [translate_chunks]; run.
  - now split.
  - rewrite Ht. destruct (translator_translate env (trace w') code _) as [r|e].
    + apply IH. cbn [trace]. now rewrite ?Ht.
    + cbn [fst snd trace]. now rewrite ?Ht.
Qed.

Lemma translate_if_needed_indep (text : pystr) (target : option pystr) (name : pystr)
    (w w' : World) :
  trace w = trace w' ->
  fst (translate_if_needed env text target name w)
  = fst (translate_if_needed env text target name w') /\
  trace (snd (translate_if_needed env text target name w))
  = trace (snd (translate_if_needed env text target name w')).
Proof.
  intro Ht. unfold translate_if_needed. destruct target as [code|]; [|now split].
  destruct (negb (truthy code) || str_eqb code (py "en")); [now split|].
  destruct (negb (truthy text)); [now split|].
  run. rewrite Ht.
  destruct (GoogleTranslator env (trace w') code) as [[]|e]; run;
    [|cbn [fst snd trace]; now rewrite ?Ht].
  match goal with
  | |- context [translate_chunks env code ?t ?i ?a ?w0] =>
      match goal with
      | |- context [translate_chunks env code t i a ?w1] =>
          assert_fails (constr_eq w0 w1);
          destruct (@translate_chunks_indep code t i a w0 w1) as [Hf Hs];
          [cbn [trace]; now rewrite ?Ht|];
          destruct (translate_chunks env code t i a w0) as [[r0|e0] x0];
          destruct (translate_chunks env code t i a w1) as [[r1|e1] x1]
      end
  end; cbn [fst snd] in Hf, Hs; try discriminate; try injection Hf as ->; run;
    cbn [fst snd trace]; now split.
Qed.

End TranslationIndependence.

Section Orchestrator.

Variable env : Env.
Variable key : option pystr.
Variable src : pystr.


(** The three outcomes of the "Generate Audio" step. *)
Lemma generate_audio_run (text : pystr) (w : World) :
  exists w',
    generate_audio env text w = (Ok tt, w') /\ only_output w w' /\
    (truthy text = false ->
     current_text_to_speak (sess w') = NO_CONTENT /\
     current_audio_data (sess w') = None /\ trace w' = trace w) /\
    (truthy text = true -> contains ERROR_MARKER text = true ->
     current_text_to_speak (sess w') = text /\
     current_audio_data (sess w') = None /\ trace w' = trace w) /\
    (truthy text = true -> contains ERROR_MARKER text = false ->
     trace w' = trace w ++ [call_gTTS text (tts_lang_code (sess w))] /\
     current_audio_data (sess w')
     = match gTTS env (trace w) text (tts_lang_code (sess w)) with
       | Ok b => Some b
       | Raise _ => None
       end /\
     (current_text_to_speak (sess w') = text \/
      current_text_to_speak (sess w') = text ++ AUDIO_ERROR_NOTE)).
Proof.
  unfold generate_audio.
  destruct (truthy text) eqn:Et; [destruct (contains ERROR_MARKER text) eqn:Ec|];
    cbn [andb negb]; run.
  - eexists. split; [reflexivity|]. split; [reflexivity|].
    repeat split; intros; try discriminate; reflexivity.
  - match goal with
    | |- context [generate_speech env text ?l ?w0] =>
        destruct (generate_speech_run env text l w0) as (a & w1 & E & Hl & _ & H);
        rewrite E; destruct (H Et) as [Ha Ht]; clear H
    end.
    pose proof (only_log_output Hl) as Ho.
    destruct (only_config_fields (only_log_config Hl)) as (_ & _ & Htext & _).
    unfold only_output in Ho. cbn [sess trace current_text_to_speak] in Ht, Htext, Ha.
    run. destruct (truthy_bytes a); cbn [negb]; run.
    + eexists. split; [reflexivity|]. split; [exact Ho|].
      split; [intro; discriminate|]. split; [intros; discriminate|].
      intros _ _. run. rewrite Htext. repeat split; [exact Ht | exact Ha | now left].
    + eexists. split; [reflexivity|]. split; [exact Ho|].
      split; [intro; discriminate|]. split; [intros; discriminate|].
      intros _ _. run. rewrite Htext. repeat split; [exact Ht | exact Ha | now right].
  - eexists. split; [reflexivity|]. split; [reflexivity|].
    repeat split; intros; try discriminate; reflexivity.
Qed.

(** The four ways through "Process Gemini Result". *)
Lemma process_gemini_result_none (a f : pystr) (w : World) :
  process_gemini_result env a f None w = (Ok f, w).
Proof. reflexivity. Qed.

Lemma process_gemini_result_error (a f r : pystr) (w : World) :
  contains ERROR_MARKER r = true ->
  exists w', process_gemini_result env a f (Some r) w = (Ok r, w') /\
             only_log w w' /\ trace w' = trace w.
Proof.
  intro H. unfold process_gemini_result. rewrite H. cbn [negb]. run.
  eexists. repeat split.
Qed.

Lemma process_gemini_result_explain (a f r : pystr) (w : World) :
  In a [py "explain_image"; py "explain_text"; py "follow_up"] ->
  contains ERROR_MARKER r = false ->
  process_gemini_result env a f (Some r) w
  = translate_if_needed env (clean_text_for_speech r)
      (translate_lang_code (sess w)) (translate_lang_name (sess w))
      (with_last_explanation (clean_text_for_speech r) w).
Proof.
  intros Ha H. unfold process_gemini_result. rewrite H. cbn [negb].
  assert (E : str_eqb a (py "explain_image") || str_eqb a (py "explain_text")
              || str_eqb a (py "follow_up") = true).
  { cbn [In] in Ha. repeat (destruct Ha as [<-|Ha]; [reflexivity|]). contradiction. }
  rewrite E. reflexivity.
Qed.

Lemma process_gemini_result_read_image (f r : pystr) (w : World) :
  contains ERROR_MARKER r = false ->
  process_gemini_result env (py "read_image") f (Some r) w
  = translate_if_needed env (join (py " ") (split r))
      (translate_lang_code (sess w)) (translate_lang_name (sess w))
      (with_last_explanation [] w).
Proof.
  intros H. unfold process_gemini_result. rewrite H. reflexivity.
Qed.

(** "Process Gemini Result" never raises. *)
Lemma process_gemini_result_run (a f : pystr) (g : option pystr) (w : World) :
  exists final w', process_gemini_result env a f g w = (Ok final, w').
Proof.
  unfold process_gemini_result. destruct g as [r|]; [|eexists _, _; reflexivity].
  destruct (contains ERROR_MARKER r); cbn [negb]; [eexists _, _; reflexivity|].
  destruct (_ || _).
  - run. edestruct translate_if_needed_run as (t & w' & ext & E & _). rewrite E. eauto.
  - destruct (str_eqb a (py "read_image")); [|eexists _, _; reflexivity].
    run. edestruct translate_if_needed_run as (t & w' & ext & E & _). rewrite E. eauto.
Qed.

Lemma finally_clause_run (a : pystr) (w : World) :
  exists w',
    finally_clause a w = (Ok tt, w') /\
    processing (sess w') = false /\ action_trigger (sess w') = None /\
    last_explanation (sess w') = last_explanation (sess w) /\
    current_text_to_speak (sess w') = current_text_to_speak (sess w) /\
    current_audio_data (sess w') = current_audio_data (sess w) /\
    trace w' = trace w.
Proof. eexists. repeat split. Qed.

Lemma except_clause_run (a : pystr) (e : Exc) (w : World) :
  exists w',
    except_clause a e w = (Ok tt, w') /\
    last_explanation (sess w') = last_explanation (sess w) /\
    current_text_to_speak (sess w') = py "Error during " ++ a ++ py ": " ++ exc_str e /\
    current_audio_data (sess w') = None /\
    trace w' = trace w.
Proof. eexists. repeat split. Qed.

(** A turn for a named action with the API ready is the [try] statement. *)
Lemma processing_logic_running (w : World) (a : pystr) :
  processing (sess w) = true -> api_key_configured (sess w) = true ->
  action_trigger (sess w) = Some a -> truthy a = true ->
  processing_logic env key src w
  = try_finally (try_except (try_body env key src a) (except_clause a)) (finally_clause a)
      (started a w).
Proof.
  intros Hp Hr Ha Ht. unfold processing_logic.
  cbv beta iota zeta delta [bind get_session]. rewrite Hp, Ha, Hr.
  destruct a as [|c a]; [discriminate|]. reflexivity.
Qed.

(** How a running turn unfolds from the outcome of the action's branch. *)
Lemma turn_run (w : World) (a : pystr) :
  processing (sess w) = true -> api_key_configured (sess w) = true ->
  action_trigger (sess w) = Some a -> truthy a = true ->
  forall r1 w1,
    action_execution env key src a (started a w) = (r1, w1) ->
    match r1 with
    | Raise e =>
        exists w',
          processing_logic env key src w = (Ok tt, w') /\
          last_explanation (sess w') = last_explanation (sess w1) /\
          current_text_to_speak (sess w')
          = py "Error during " ++ a ++ py ": " ++ exc_str e /\
          current_audio_data (sess w') = None /\
          trace w' = trace w1
    | Ok (f, g) =>
        exists final w2 w3 w',
          process_gemini_result env a f g w1 = (Ok final, w2) /\
          generate_audio env final w2 = (Ok tt, w3) /\
          processing_logic env key src w = (Ok tt, w') /\
          last_explanation (sess w') = last_explanation (sess w2) /\
          current_text_to_speak (sess w') = current_text_to_speak (sess w3) /\
          current_audio_data (sess w') = current_audio_data (sess w3) /\
          trace w' = trace w3
    end.
Proof.
  intros Hp Hr Ha Ht r1 w1 E.
  rewrite (processing_logic_running w Hp Hr Ha Ht).
  unfold try_finally, try_except, try_body.
  cbv beta iota zeta delta [bind]. rewrite E.
  destruct r1 as [[f g]|e].
  - cbn [fst snd].
    destruct (process_gemini_result_run a f g w1) as (final & w2 & E2). rewrite E2.
    destruct (generate_audio_run final w2) as (w3 & E3 & Ho & _). rewrite E3.
    destruct (only_output_fields Ho) as (_ & Hl & _).
    destruct (finally_clause_run a w3) as (w' & E4 & _ & _ & H1 & H2 & H3 & H4).
    rewrite E4. exists final, w2, w3, w'. rewrite H1, Hl. auto 10.
  - destruct (except_clause_run a e w1) as (w2 & E2 & G1 & G2 & G3 & G4). rewrite E2.
    destruct (finally_clause_run a w2) as (w' & E4 & _ & _ & H1 & H2 & H3 & H4).
    rewrite E4. exists w'. rewrite H1, H2, H3, H4. auto 10.
Qed.

Lemma contains_truthy (sub s : pystr) :
  truthy sub = true -> contains sub s = true -> truthy s = true.
Proof.
  destruct s; [|reflexivity]. destruct sub; [discriminate|]. discriminate.
Qed.

(** The branch of "read_text". *)
Lemma action_execution_read_text (w : World) :
  let pasted := pasted_text_area (sess w) in
  (truthy pasted = false /\
   exists e w1, action_execution env key src (py "read_text") w = (Raise e, w1) /\
                only_log w w1 /\ trace w1 = trace w) \/
  (truthy pasted = true /\
   exists final w0 w1,
     trace w0 = trace w /\
     translate_if_needed env (join (py " ") (split pasted))
       (translate_lang_code (sess w)) (translate_lang_name (sess w)) w0
     = (Ok final, w1) /\
     action_execution env key src (py "read_text") w = (Ok (final, None), w1) /\
     last_explanation (sess w1) = [] /\
     tts_lang_code (sess w1) = tts_lang_code (sess w)).
Proof.
  intro pasted. subst pasted.
  change (action_execution env key src (py "read_text") w) with
    ((log_message (py "Processing pasted text reading...") ;;
      s <- get_session ;;
      let current_pasted_text := pasted_text_area s in
      if negb (truthy current_pasted_text)
      then raise (ValueError (py "No pasted text found for reading."))
      else
        let cleaned_text := join (py " ") (split current_pasted_text) in
        modify (set_last_explanation []) ;;
        final_text_to_speak <-
          translate_if_needed env cleaned_text (translate_lang_code s) (translate_lang_name s) ;;
        ret (final_text_to_speak, @None (list N)))%py w).
  run. destruct (truthy (pasted_text_area (sess w))); cbn [negb]; run.
  - right. split; [reflexivity|].
    match goal with
    | |- context [translate_if_needed env ?t ?c ?n ?w0] =>
        destruct (translate_if_needed_run env t c n w0) as (final & w1 & ext & E & Hl & _)
    end.
    eexists final, _, w1. split; [|split; [exact E|]]; [reflexivity|].
    rewrite E. split; [reflexivity|].
    destruct (only_config_fields (only_log_config Hl))
      as (_ & _ & _ & H & _ & _ & H' & _).
    split; [exact H | exact H'].
  - left. split; [reflexivity|]. eexists _, _. repeat split.
Qed.

(** The branch of "read_image". *)
Lemma action_execution_read_image (w : World) :
  (exists e w1, action_execution env key src (py "read_image") w = (Raise e, w1) /\
                only_log w w1 /\ trace w1 = trace w) \/
  (exists r w1, action_execution env key src (py "read_image") w = (Ok ([], Some r), w1) /\
                only_config w w1).
Proof.
  change (action_execution env key src (py "read_image") w) with
    ((log_message (py "Processing screenshot reading...") ;;
      s <- get_session ;;
      if negb (truthy_bytes (last_uploaded_image s))
      then raise (ValueError (py "No image data found for reading."))
      else
        gemini_result <- get_gemini_response env key src READ_PROMPT_IMAGE (last_uploaded_image s) None ;;
        ret (@nil N, Some gemini_result))%py w).
  run. destruct (truthy_bytes (last_uploaded_image (sess w))); cbn [negb]; run.
  - right.
    match goal with
    | |- context [get_gemini_response env ?k ?s ?p ?i ?t ?w0] =>
        destruct (get_gemini_response_run env k s p i t w0) as (r & w1 & E & Hc & _)
    end.
    rewrite E. exists r, w1. split; [reflexivity|]. exact Hc.
  - left. eexists _, _. repeat split.
Qed.

(** C5. Every pass over the processing logic that starts with [processing]
    set ends normally with [processing] false and [action_trigger] none,
    whatever the action's branch did: success, an error string from the
    model, a missing input or any other exception. *)
Theorem processing_logic_resets_processing (w : World) :
  processing (sess w) = true ->
  exists w',
    processing_logic env key src w = (Ok tt, w') /\
    processing (sess w') = false /\ action_trigger (sess w') = None.
Proof.
  intro Hp. unfold processing_logic. run. rewrite Hp.
  destruct (truthy_opt (action_trigger (sess w))) eqn:Ea;
    destruct (api_key_configured (sess w)) eqn:Hr; cbn [andb negb]; run.
  - match goal with
    | |- context [try_body ?e ?k ?s ?a ?w0] =>
        destruct (try_body e k s a w0) as [[[]|e0] w1]
    end; run; eexists; repeat split.
  - eexists. repeat split.
  - rewrite Hp. eexists. repeat split.
  - rewrite Hp. eexists. repeat split.
Qed.

(** C9. In a "read_text" turn whose pasted text, once its white space is
    collapsed and it went through [translate_if_needed], holds "Error:"
    anywhere, no speech is synthesised: the text is shown as it is,
    [current_audio_data] is none and the turn makes no call after the
    translation. *)
Theorem read_text_error_marker_skips_audio (w : World) (final : pystr) :
  processing (sess w) = true -> api_key_configured (sess w) = true ->
  action_trigger (sess w) = Some (py "read_text") ->
  let translation :=
    translate_if_needed env (join (py " ") (split (pasted_text_area (sess w))))
      (translate_lang_code (sess w)) (translate_lang_name (sess w)) w in
  fst translation = Ok final ->
  contains ERROR_MARKER final = true ->
  exists w',
    processing_logic env key src w = (Ok tt, w') /\
    current_text_to_speak (sess w') = final /\
    current_audio_data (sess w') = None /\
    trace w' = trace (snd translation).
Proof.
  intros Hp Hr Ha translation Hf Hc. subst translation.
  assert (Ht : truthy final = true) by (now apply contains_truthy with ERROR_MARKER).
  destruct (action_execution_read_text (started (py "read_text") w))
    as [(Hempty & _)|(_ & final' & w0 & w1 & Htr & Etr & E & _ & _)].
  - (* an empty pasted text cannot give a text with the marker *)
    cbn [started snd log_message modify sess pasted_text_area set_log_messages] in Hempty.
    destruct (pasted_text_area (sess w)); [|discriminate]. exfalso.
    edestruct translate_if_needed_run as (t & w' & ext & E & _ & _ & Hnil).
    rewrite E in Hf. cbn [fst] in Hf. injection Hf as <-.
    rewrite (Hnil eq_refl) in Ht. discriminate.
  - change (pasted_text_area (sess (started (py "read_text") w)))
      with (pasted_text_area (sess w)) in Etr.
    change (translate_lang_code (sess (started (py "read_text") w)))
      with (translate_lang_code (sess w)) in Etr.
    change (translate_lang_name (sess (started (py "read_text") w)))
      with (translate_lang_name (sess w)) in Etr.
    match type of Etr with
    | translate_if_needed env ?t ?c ?n w0 = _ =>
        destruct (@translate_if_needed_indep env t c n w0 w) as [Hi1 Hi2];
        [exact Htr|]
    end.
    rewrite Etr in Hi1, Hi2. cbn [fst snd] in Hi1, Hi2.
    rewrite Hf in Hi1. injection Hi1 as ->.
    pose proof (turn_run w Hp Hr Ha eq_refl E) as (f2 & w2 & w3 & w' & E2 & E3 & E4 & _ & H2 & H3 & H4).
    rewrite process_gemini_result_none in E2. injection E2 as <- <-.
    destruct (generate_audio_run final w1) as (w3' & E3' & _ & _ & G & _).
    rewrite E3' in E3. injection E3 as ->.
    destruct (G Ht Hc) as (G1 & G2 & G3).
    exists w'. rewrite H2, H3, H4, G1, G2, G3, Hi2. auto.
Qed.

(** C10. In an "explain_image", "explain_text" or "follow_up" turn in which
    the model returned a string without the marker that the cleaner turns
    into the empty string, [last_explanation] becomes empty, whatever it
    held, the placeholder text is shown and [current_audio_data] is none. *)
Theorem empty_explanation_overwrites_context (w : World) (a g : pystr) :
  processing (sess w) = true -> api_key_configured (sess w) = true ->
  action_trigger (sess w) = Some a ->
  In a [py "explain_image"; py "explain_text"; py "follow_up"] ->
  (exists f w1, action_execution env key src a (started a w) = (Ok (f, Some g), w1)) ->
  contains ERROR_MARKER g = false ->
  clean_text_for_speech g = [] ->
  exists w',
    processing_logic env key src w = (Ok tt, w') /\
    last_explanation (sess w') = [] /\
    current_text_to_speak (sess w') = NO_CONTENT /\
    current_audio_data (sess w') = None.
Proof.
  intros Hp Hr Ha Hin (f & w1 & E) Hc Hclean.
  assert (Ht : truthy a = true).
  { cbn [In] in Hin. repeat (destruct Hin as [<-|Hin]; [reflexivity|]). contradiction. }
  pose proof (turn_run w Hp Hr Ha Ht E) as (final & w2 & w3 & w' & E2 & E3 & E4 & H1 & H2 & H3 & _).
  rewrite (@process_gemini_result_explain a f g w1 Hin Hc), Hclean in E2.
  edestruct translate_if_needed_run as (t & w2' & ext & E2' & Hl & _ & Hnil).
  rewrite E2' in E2. injection E2 as -> ->. rewrite (Hnil eq_refl) in *.
  destruct (only_config_fields (only_log_config Hl)) as (_ & _ & _ & Hlast & _).
  cbn [with_last_explanation sess last_explanation set_last_explanation] in Hlast.
  destruct (generate_audio_run [] w2) as (w3' & E3' & _ & G & _).
  rewrite E3' in E3. injection E3 as ->.
  destruct (G eq_refl) as (G1 & G2 & _).
  exists w'. rewrite H1, H2, H3, Hlast, G1, G2. auto.
Qed.


(** The template of the follow-up prompt holds a bare pair of braces, so
    [format] asks for a positional argument that is not given. *)
Lemma format_follow_up_prompt (previous_explanation user_feedback : pystr) :
  format FOLLOW_UP_PROMPT []
    [(py "previous_explanation", previous_explanation);
     (py "user_feedback", user_feedback)]
  = Raise (IndexError (py "Replacement index 0 out of range for positional args tuple")).
Proof. vm_compute. reflexivity. Qed.

(** Hence the branch of "follow_up" raises before the model is asked. *)
Lemma action_execution_follow_up (w : World) :
  exists e w1,
    action_execution env key src (py "follow_up") w = (Raise e, w1) /\ trace w1 = trace w.
Proof.
  change (action_execution env key src (py "follow_up") w) with
    ((log_message (py "Processing follow-up response...") ;;
      s <- get_session ;;
      let current_feedback := feedback_input s in
      if negb (truthy current_feedback)
      then raise (ValueError (py "No follow-up text provided."))
      else if negb (truthy (last_explanation s))
      then raise (ValueError (py "No previous explanation context found for follow-up."))
      else
        prompt <- lift (format FOLLOW_UP_PROMPT []
                          [(py "previous_explanation", last_explanation s);
                           (py "user_feedback", current_feedback)]) ;;
        gemini_result <- get_gemini_response env key src prompt None None ;;
        ret (@nil N, Some gemini_result))%py w).
  run. destruct (truthy (feedback_input (sess w))); cbn [negb]; run;
    [|eexists _, _; split; reflexivity].
  destruct (truthy (last_explanation (sess w))); cbn [negb]; run;
    [|eexists _, _; split; reflexivity].
  rewrite format_follow_up_prompt. eexists _, _; split; reflexivity.
Qed.

(** A "follow_up" turn therefore ends without any call to a service. *)
Lemma follow_up_turn_makes_no_call (w : World) :
  processing (sess w) = true -> api_key_configured (sess w) = true ->
  action_trigger (sess w) = Some (py "follow_up") ->
  exists w',
    processing_logic env key src w = (Ok tt, w') /\
    current_audio_data (sess w') = None /\ trace w' = trace w.
Proof.
  intros Hp Hr Ha.
  destruct (action_execution_follow_up (started (py "follow_up") w))
    as (e & w1 & E & Ht).
  pose proof (turn_run w Hp Hr Ha eq_refl E) as (w' & E' & _ & _ & Haudio & Htr).
  exists w'. rewrite Htr, Ht. auto.
Qed.

(** A turn whose model result [g] is put through [translate_if_needed] as
    [text], after [last_explanation] was set to [last]. *)
Lemma translated_turn (w : World) (a f g : pystr) (w1 : World) (text last : pystr) :
  processing (sess w) = true -> api_key_configured (sess w) = true ->
  action_trigger (sess w) = Some a -> truthy a = true ->
  action_execution env key src a (started a w) = (Ok (f, Some g), w1) ->
  process_gemini_result env a f (Some g) w1
  = translate_if_needed env text (translate_lang_code (sess w1))
      (translate_lang_name (sess w1)) (with_last_explanation last w1) ->
  let translation :=
    translate_if_needed env text (translate_lang_code (sess w1))
      (translate_lang_name (sess w1)) w1 in
  exists w' final,
    processing_logic env key src w = (Ok tt, w') /\
    last_explanation (sess w') = last /\
    fst translation = Ok final /\
    (truthy final = false ->
     current_text_to_speak (sess w') = NO_CONTENT /\
     current_audio_data (sess w') = None /\ trace w' = trace (snd translation)) /\
    (truthy final = true -> contains ERROR_MARKER final = true ->
     current_text_to_speak (sess w') = final /\
     current_audio_data (sess w') = None /\ trace w' = trace (snd translation)) /\
    (truthy final = true -> contains ERROR_MARKER final = false ->
     trace w' = trace (snd translation) ++ [call_gTTS final (tts_lang_code (sess w1))] /\
     current_audio_data (sess w')
     = match gTTS env (trace (snd translation)) final (tts_lang_code (sess w1)) with
       | Ok b => Some b
       | Raise _ => None
       end /\
     (current_text_to_speak (sess w') = final \/
      current_text_to_speak (sess w') = final ++ AUDIO_ERROR_NOTE)).
Proof.
  intros Hp Hr Ha Ht E Eproc translation. subst translation.
  pose proof (turn_run w Hp Hr Ha Ht E)
    as (final & w2 & w3 & w' & E2 & E3 & E4 & H1 & H2 & H3 & H4).
  rewrite Eproc in E2.
  destruct (translate_if_needed_run env text (translate_lang_code (sess w1))
              (translate_lang_name (sess w1)) (with_last_explanation last w1))
    as (t & w2' & ext & E2' & Hl & _).
  rewrite E2' in E2. injection E2 as -> ->.
  destruct (only_config_fields (only_log_config Hl))
    as (_ & _ & _ & Hlast & _ & _ & Htts & _).
  cbn [with_last_explanation sess last_explanation set_last_explanation tts_lang_code]
    in Hlast, Htts.
  destruct (@translate_if_needed_indep env text (translate_lang_code (sess w1))
              (translate_lang_name (sess w1)) (with_last_explanation last w1) w1
              eq_refl) as [Hi1 Hi2].
  rewrite E2' in Hi1, Hi2. cbn [fst snd] in Hi1, Hi2.
  destruct (generate_audio_run final w2) as (w3' & E3' & _ & G1 & G2 & G3).
  rewrite E3' in E3. injection E3 as ->.
  exists w', final. rewrite H1, H2, H3, H4, Hlast, <- Hi1, <- Hi2, <- Htts.
  split; [exact E4|]. split; [reflexivity|]. split; [reflexivity|].
  split; [exact G1|]. split; [exact G2 | exact G3].
Qed.

(** A "read_text" turn that finds pasted text. *)
Lemma read_text_turn (w : World) :
  processing (sess w) = true -> api_key_configured (sess w) = true ->
  action_trigger (sess w) = Some (py "read_text") ->
  truthy (pasted_text_area (sess w)) = true ->
  let translation :=
    translate_if_needed env (join (py " ") (split (pasted_text_area (sess w))))
      (translate_lang_code (sess w)) (translate_lang_name (sess w)) w in
  exists w' final,
    processing_logic env key src w = (Ok tt, w') /\
    last_explanation (sess w') = [] /\
    fst translation = Ok final /\
    (truthy final = true -> contains ERROR_MARKER final = false ->
     trace w' = trace (snd translation) ++ [call_gTTS final (tts_lang_code (sess w))] /\
     (current_text_to_speak (sess w') = final \/
      current_text_to_speak (sess w') = final ++ AUDIO_ERROR_NOTE)).
Proof.
  intros Hp Hr Ha Hpasted translation. subst translation.
  destruct (action_execution_read_text (started (py "read_text") w))
    as [(Hempty & _)|(_ & final & w0 & w1 & Htr & Etr & E & Hlast & Htts)].
  { cbn [started snd log_message modify sess pasted_text_area set_log_messages] in Hempty.
    congruence. }
  change (pasted_text_area (sess (started (py "read_text") w)))
    with (pasted_text_area (sess w)) in Etr.
  change (translate_lang_code (sess (started (py "read_text") w)))
    with (translate_lang_code (sess w)) in Etr.
  change (translate_lang_name (sess (started (py "read_text") w)))
    with (translate_lang_name (sess w)) in Etr.
  change (tts_lang_code (sess (started (py "read_text") w)))
    with (tts_lang_code (sess w)) in Htts.
  match type of Etr with
  | translate_if_needed env ?t ?c ?n w0 = _ =>
      destruct (@translate_if_needed_indep env t c n w0 w) as [Hi1 Hi2];
      [exact Htr|]
  end.
  rewrite Etr in Hi1, Hi2. cbn [fst snd] in Hi1, Hi2.
  pose proof (turn_run w Hp Hr Ha eq_refl E)
    as (f2 & w2 & w3 & w' & E2 & E3 & E4 & H1 & H2 & H3 & H4).
  rewrite process_gemini_result_none in E2. injection E2 as <- <-.
  destruct (generate_audio_run final w1) as (w3' & E3' & _ & _ & _ & G).
  rewrite E3' in E3. injection E3 as ->.
  exists w', final. rewrite H1, H2, H4, Hlast, <- Hi1, <- Hi2, <- Htts.
  split; [exact E4|]. split; [reflexivity|]. split; [reflexivity|].
  intros Ht Hc. destruct (G Ht Hc) as (G1 & _ & G3). now split.
Qed.

(** C3 (as amended). A "read_text" turn that finds pasted text, and a
    "read_image" turn whose model result holds no error marker, leave
    [last_explanation] empty.  When the model result of a "read_image" turn
    holds the marker, or the branch stops on a missing input,
    [last_explanation] keeps the value it had before the turn.  So a
    reading turn never sets [last_explanation] to a value that is not
    empty. *)
Theorem reading_and_last_explanation (w : World) (a : pystr) :
  processing (sess w) = true -> api_key_configured (sess w) = true ->
  action_trigger (sess w) = Some a ->
  In a [py "read_image"; py "read_text"] ->
  exists w',
    processing_logic env key src w = (Ok tt, w') /\
    match fst (action_execution env key src a (started a w)) with
    | Ok (_, None) => last_explanation (sess w') = []
    | Ok (_, Some gemini_result) =>
        if contains ERROR_MARKER gemini_result
        then last_explanation (sess w') = last_explanation (sess w)
        else last_explanation (sess w') = []
    | Raise _ => last_explanation (sess w') = last_explanation (sess w)
    end /\
    (last_explanation (sess w) = [] -> last_explanation (sess w') = []).
Proof.
  intros Hp Hr Ha Hin.
  assert (Hstart : forall w1, only_config (started a w) w1 ->
                   last_explanation (sess w1) = last_explanation (sess w)).
  { intros w1 Hc. now destruct (only_config_fields Hc) as (_ & _ & _ & H & _). }
  assert (Hcases :
    exists w',
      processing_logic env key src w = (Ok tt, w') /\
      match fst (action_execution env key src a (started a w)) with
      | Ok (_, None) => last_explanation (sess w') = []
      | Ok (_, Some gemini_result) =>
          if contains ERROR_MARKER gemini_result
          then last_explanation (sess w') = last_explanation (sess w)
          else last_explanation (sess w') = []
      | Raise _ => last_explanation (sess w') = last_explanation (sess w)
      end).
  { cbn [In] in Hin. destruct Hin as [<-|[<-|[]]].
    - destruct (action_execution_read_image (started (py "read_image") w))
        as [(e & w1 & E & Hl & _)|(r & w1 & E & Hc)].
      + pose proof (turn_run w Hp Hr Ha eq_refl E) as (w' & E' & H1 & _).
        exists w'. rewrite E. cbn [fst]. split; [exact E'|].
        rewrite H1. apply Hstart. now apply only_log_config.
      + pose proof (turn_run w Hp Hr Ha eq_refl E)
          as (final & w2 & w3 & w' & E2 & _ & E' & H1 & _).
        exists w'. rewrite E. cbn [fst]. split; [exact E'|]. rewrite H1.
        destruct (contains ERROR_MARKER r) eqn:Em.
        * destruct (@process_gemini_result_error (py "read_image") [] r w1 Em)
            as (w2' & E2' & Hl & _).
          rewrite E2' in E2. injection E2 as _ ->.
          apply Hstart. eapply only_config_trans; [exact Hc|].
          now apply only_log_config.
        * rewrite (@process_gemini_result_read_image [] r w1 Em) in E2.
          edestruct translate_if_needed_run as (t & w2' & ext & E2' & Hl & _).
          rewrite E2' in E2. injection E2 as _ ->.
          now destruct (only_config_fields (only_log_config Hl)) as (_ & _ & _ & H & _).
    - destruct (action_execution_read_text (started (py "read_text") w))
        as [(_ & e & w1 & E & Hl & _)|(_ & final & w0 & w1 & _ & _ & E & Hlast & _)].
      + pose proof (turn_run w Hp Hr Ha eq_refl E) as (w' & E' & H1 & _).
        exists w'. rewrite E. cbn [fst]. split; [exact E'|].
        rewrite H1. apply Hstart. now apply only_log_config.
      + pose proof (turn_run w Hp Hr Ha eq_refl E)
          as (final' & w2 & w3 & w' & E2 & _ & E' & H1 & _).
        rewrite process_gemini_result_none in E2. injection E2 as _ <-.
        exists w'. rewrite E. cbn [fst]. split; [exact E'|]. now rewrite H1. }
  destruct Hcases as (w' & E' & H). exists w'. split; [exact E'|]. split; [exact H|].
  intro Hnil. destruct (fst (action_execution env key src a (started a w))) as [[f [r|]]|e];
    [destruct (contains ERROR_MARKER r)| |]; congruence.
Qed.

(** A branch of "Action Execution Logic" that hands a model result on has
    not written [last_explanation]. *)
Lemma action_execution_model_result (a f g : pystr) (w w1 : World) :
  action_execution env key src a w = (Ok (f, Some g), w1) ->
  last_explanation (sess w1) = last_explanation (sess w).
Proof.
  assert (Hg : forall prompt image text w0 w2 r,
             last_explanation (sess w0) = last_explanation (sess w) ->
             get_gemini_response env key src prompt image text w0 = (r, w2) ->
             last_explanation (sess w2) = last_explanation (sess w)).
  { intros prompt image text w0 w2 r H0 E.
    destruct (get_gemini_response_run env key src prompt image text w0)
      as (r' & w' & E' & Hc & _).
    rewrite E' in E. injection E as _ <-.
    destruct (only_config_fields Hc) as (_ & _ & _ & Hl & _). now rewrite Hl. }
  unfold action_execution. intro E.
  destruct (str_eqb a (py "explain_image")).
  { run_in E. destruct (truthy_bytes (last_uploaded_image (sess w)));
      cbn [negb] in E; run_in E; [|discriminate E].
    match type of E with
    | context [get_gemini_response env key src ?p ?i ?t ?w0] =>
        destruct (get_gemini_response env key src p i t w0) as [[r|e] w2] eqn:Eg;
        run_in E; [|discriminate E];
        injection E as _ _ <-; exact (Hg p i t w0 w2 _ eq_refl Eg)
    end. }
  destruct (str_eqb a (py "read_image")).
  { run_in E. destruct (truthy_bytes (last_uploaded_image (sess w)));
      cbn [negb] in E; run_in E; [|discriminate E].
    match type of E with
    | context [get_gemini_response env key src ?p ?i ?t ?w0] =>
        destruct (get_gemini_response env key src p i t w0) as [[r|e] w2] eqn:Eg;
        run_in E; [|discriminate E];
        injection E as _ _ <-; exact (Hg p i t w0 w2 _ eq_refl Eg)
    end. }
  destruct (str_eqb a (py "explain_text")).
  { run_in E. destruct (truthy (pasted_text_area (sess w)));
      cbn [negb] in E; run_in E; [|discriminate E].
    match type of E with
    | context [get_gemini_response env key src ?p ?i ?t ?w0] =>
        destruct (get_gemini_response env key src p i t w0) as [[r|e] w2] eqn:Eg;
        run_in E; [|discriminate E];
        injection E as _ _ <-; exact (Hg p i t w0 w2 _ eq_refl Eg)
    end. }
  destruct (str_eqb a (py "read_text")).
  { run_in E. destruct (truthy (pasted_text_area (sess w)));
      cbn [negb] in E; run_in E; [|discriminate E].
    match type of E with
    | context [translate_if_needed env ?t ?c ?n ?w0] =>
        destruct (translate_if_needed env t c n w0) as [[r|e] w2];
        run_in E; discriminate E
    end. }
  destruct (str_eqb a (py "follow_up")).
  { run_in E. destruct (truthy (feedback_input (sess w)));
      cbn [negb] in E; run_in E; [|discriminate E].
    destruct (truthy (last_explanation (sess w)));
      cbn [negb] in E; run_in E; [|discriminate E].
    rewrite format_follow_up_prompt in E. discriminate E. }
  run_in E. now injection E as _ _ <-.
Qed.

(** C1 (as amended). [get_gemini_response] never raises: it returns a
    string, which starts with the error marker unless it is the stripped
    text of a reply the model gave.  The processing logic tells failure
    from success by looking for the marker anywhere in that string, not
    only at its start.  A result that holds the marker is shown as it is,
    with no audio, and [last_explanation] is what it was before the turn.
    A result without the marker in an "explain_image" or "explain_text"
    turn is cleaned and becomes [last_explanation], the cleaned text is
    translated, and speech is synthesised for the translation whenever
    that is not empty and holds no marker.  In a "read_image" turn such a
    result has its white space collapsed, [last_explanation] is emptied,
    and the text is translated and spoken in the same way.  "Process
    Gemini Result" treats the result of a "follow_up" as that of an
    explanation; but "Action Execution Logic" never has such a result to
    hand on, since a "follow_up" always raises before the model is
    called. *)
Theorem gemini_result_handling :
  (forall prompt image_bytes text_input w,
      exists r w',
        get_gemini_response env key src prompt image_bytes text_input w = (Ok r, w') /\
        (startswith ERROR_MARKER r = true \/
         exists h m c resp t,
           model_generate_content env h m c = Ok resp /\
           response_text resp = Ok t /\ r = strip t)) /\
  (forall w a f g w1,
      processing (sess w) = true -> api_key_configured (sess w) = true ->
      action_trigger (sess w) = Some a -> truthy a = true ->
      action_execution env key src a (started a w) = (Ok (f, Some g), w1) ->
      contains ERROR_MARKER g = true ->
      exists w',
        processing_logic env key src w = (Ok tt, w') /\
        current_text_to_speak (sess w') = g /\
        current_audio_data (sess w') = None /\
        last_explanation (sess w') = last_explanation (sess w) /\
        trace w' = trace w1) /\
  (forall w a f g w1,
      processing (sess w) = true -> api_key_configured (sess w) = true ->
      action_trigger (sess w) = Some a ->
      In a [py "explain_image"; py "explain_text"] ->
      action_execution env key src a (started a w) = (Ok (f, Some g), w1) ->
      contains ERROR_MARKER g = false ->
      let translation :=
        translate_if_needed env (clean_text_for_speech g)
          (translate_lang_code (sess w1)) (translate_lang_name (sess w1)) w1 in
      exists w' final,
        processing_logic env key src w = (Ok tt, w') /\
        last_explanation (sess w') = clean_text_for_speech g /\
        fst translation = Ok final /\
        (truthy final = true -> contains ERROR_MARKER final = false ->
         trace w' = trace (snd translation)
                    ++ [call_gTTS final (tts_lang_code (sess w1))] /\
         (current_text_to_speak (sess w') = final \/
          current_text_to_speak (sess w') = final ++ AUDIO_ERROR_NOTE))) /\
  (forall w f g w1,
      processing (sess w) = true -> api_key_configured (sess w) = true ->
      action_trigger (sess w) = Some (py "read_image") ->
      action_execution env key src (py "read_image") (started (py "read_image") w)
      = (Ok (f, Some g), w1) ->
      contains ERROR_MARKER g = false ->
      let translation :=
        translate_if_needed env (join (py " ") (split g))
          (translate_lang_code (sess w1)) (translate_lang_name (sess w1)) w1 in
      exists w' final,
        processing_logic env key src w = (Ok tt, w') /\
        last_explanation (sess w') = [] /\
        fst translation = Ok final /\
        (truthy final = true -> contains ERROR_MARKER final = false ->
         trace w' = trace (snd translation)
                    ++ [call_gTTS final (tts_lang_code (sess w1))] /\
         (current_text_to_speak (sess w') = final \/
          current_text_to_speak (sess w') = final ++ AUDIO_ERROR_NOTE))) /\
  (forall a f g w,
      In a [py "explain_image"; py "explain_text"; py "follow_up"] ->
      contains ERROR_MARKER g = false ->
      exists final w2,
        process_gemini_result env a f (Some g) w = (Ok final, w2) /\
        last_explanation (sess w2) = clean_text_for_speech g /\
        fst (translate_if_needed env (clean_text_for_speech g)
               (translate_lang_code (sess w)) (translate_lang_name (sess w))
               (with_last_explanation (clean_text_for_speech g) w))
        = Ok final) /\
  (forall w,
      exists e w1,
        action_execution env key src (py "follow_up") w = (Raise e, w1) /\
        trace w1 = trace w).
Proof.
  split; [|split; [|split; [|split; [|split]]]].
  - intros prompt image_bytes text_input w.
    destruct (get_gemini_response_run env key src
                prompt image_bytes text_input w) as (r & w' & E & _ & H).
    exists r, w'. now split.
  - intros w a f g w1 Hp Hr Ha Ht E Hm.
    pose proof (turn_run w Hp Hr Ha Ht E)
      as (final & w2 & w3 & w' & E2 & E3 & E' & H1 & H2 & H3 & H4).
    destruct (@process_gemini_result_error a f g w1 Hm) as (w2' & E2' & Hl & Htr).
    rewrite E2' in E2. injection E2 as <- <-.
    destruct (generate_audio_run g w2') as (w3' & E3' & _ & _ & G & _).
    rewrite E3' in E3. injection E3 as ->.
    destruct (G (@contains_truthy ERROR_MARKER g eq_refl Hm) Hm) as (G1 & G2 & G3).
    destruct (only_config_fields (only_log_config Hl)) as (_ & _ & _ & Hlast & _).
    pose proof (@action_execution_model_result a f g (started a w) w1 E) as Hkept.
    change (last_explanation (sess (started a w))) with (last_explanation (sess w))
      in Hkept.
    exists w'. rewrite H1, H2, H3, H4, G1, G2, G3, Hlast, Htr, Hkept. auto.
  - intros w a f g w1 Hp Hr Ha Hin E Hm translation. subst translation.
    assert (Ht : truthy a = true).
    { cbn [In] in Hin. repeat (destruct Hin as [<-|Hin]; [reflexivity|]). contradiction. }
    assert (Hin' : In a [py "explain_image"; py "explain_text"; py "follow_up"]).
    { cbn [In] in Hin |- *. tauto. }
    destruct (@translated_turn w a f g w1 (clean_text_for_speech g)
                (clean_text_for_speech g) Hp Hr Ha Ht E
                (@process_gemini_result_explain a f g w1 Hin' Hm))
      as (w' & final & E' & Hlast & Hf & _ & _ & G).
    exists w', final. split; [exact E'|]. split; [exact Hlast|]. split; [exact Hf|].
    intros Htf Hmf. destruct (G Htf Hmf) as (G1 & _ & G3). now split.
  - intros w f g w1 Hp Hr Ha E Hm translation. subst translation.
    destruct (@translated_turn w (py "read_image") f g w1 (join (py " ") (split g))
                [] Hp Hr Ha eq_refl E
                (@process_gemini_result_read_image f g w1 Hm))
      as (w' & final & E' & Hlast & Hf & _ & _ & G).
    exists w', final. split; [exact E'|]. split; [exact Hlast|]. split; [exact Hf|].
    intros Htf Hmf. destruct (G Htf Hmf) as (G1 & _ & G3). now split.
  - intros a f g w Hin Hm.
    rewrite (@process_gemini_result_explain a f g w Hin Hm).
    destruct (translate_if_needed_run env (clean_text_for_speech g)
                (translate_lang_code (sess w)) (translate_lang_name (sess w))
                (with_last_explanation (clean_text_for_speech g) w))
      as (final & w2 & ext & E & Hl & _).
    exists final, w2. rewrite E. split; [reflexivity|]. split; [|reflexivity].
    destruct (only_config_fields (only_log_config Hl)) as (_ & _ & _ & Hlast & _).
    exact Hlast.
  - intro w. apply action_execution_follow_up.
Qed.

(** An empty text is never sent anywhere. *)
Lemma translate_if_needed_empty (target : option pystr) (name : pystr) (w : World) :
  trace (snd (translate_if_needed env [] target name w)) = trace w.
Proof.
  unfold translate_if_needed. destruct target as [code|]; [|reflexivity].
  destruct (negb (truthy code) || str_eqb code (py "en")); reflexivity.
Qed.

(** "Generate Audio" for a text that is empty or holds the marker: no
    call, no audio. *)
Lemma generate_audio_unspoken (text : pystr) (w : World) :
  truthy text = false \/ contains ERROR_MARKER text = true ->
  exists w',
    generate_audio env text w = (Ok tt, w') /\
    current_audio_data (sess w') = None /\ trace w' = trace w /\
    (truthy text = true -> current_text_to_speak (sess w') = text).
Proof.
  intro H. destruct (generate_audio_run text w) as (w' & E & _ & G0 & Gm & _).
  exists w'. split; [exact E|].
  destruct (truthy text) eqn:Et.
  - destruct H as [H|H]; [discriminate H|].
    destruct (Gm eq_refl H) as (G1 & G2 & G3). auto.
  - destruct (G0 eq_refl) as (G1 & G2 & G3).
    split; [exact G2|]. split; [exact G3|]. intro H'. discriminate H'.
Qed.

(** A "read_text" turn whose text, after the translation step, is empty or
    holds the marker makes no call after that step and no audio. *)
Lemma read_text_turn_unspoken (w : World) (final : pystr) :
  processing (sess w) = true -> api_key_configured (sess w) = true ->
  action_trigger (sess w) = Some (py "read_text") ->
  let translation :=
    translate_if_needed env (join (py " ") (split (pasted_text_area (sess w))))
      (translate_lang_code (sess w)) (translate_lang_name (sess w)) w in
  fst translation = Ok final ->
  truthy final = false \/ contains ERROR_MARKER final = true ->
  exists w',
    processing_logic env key src w = (Ok tt, w') /\
    current_audio_data (sess w') = None /\
    trace w' = trace (snd translation) /\
    (truthy final = true -> current_text_to_speak (sess w') = final).
Proof.
  intros Hp Hr Ha translation Hf Hc. subst translation.
  destruct (action_execution_read_text (started (py "read_text") w))
    as [(Hempty & e & w1 & E & _ & Htr)|(_ & final' & w0 & w1 & Htr & Etr & E & _ & _)].
  - cbn [started snd log_message modify sess pasted_text_area set_log_messages] in Hempty.
    destruct (pasted_text_area (sess w)); [|discriminate Hempty].
    change (join (py " ") (split [])) with (@nil N) in Hf |- *.
    pose proof (turn_run w Hp Hr Ha eq_refl E) as (w' & E' & _ & _ & Haudio & Htrace).
    exists w'. split; [exact E'|]. split; [exact Haudio|].
    split; [rewrite Htrace, Htr, translate_if_needed_empty; reflexivity|].
    intro Ht. exfalso.
    edestruct translate_if_needed_run as (t & w2 & ext & E2 & _ & _ & Hnil).
    rewrite E2 in Hf. cbn [fst] in Hf. injection Hf as <-.
    rewrite (Hnil eq_refl) in Ht. discriminate Ht.
  - change (pasted_text_area (sess (started (py "read_text") w)))
      with (pasted_text_area (sess w)) in Etr.
    change (translate_lang_code (sess (started (py "read_text") w)))
      with (translate_lang_code (sess w)) in Etr.
    change (translate_lang_name (sess (started (py "read_text") w)))
      with (translate_lang_name (sess w)) in Etr.
    match type of Etr with
    | translate_if_needed env ?t ?c ?n w0 = _ =>
        destruct (@translate_if_needed_indep env t c n w0 w) as [Hi1 Hi2];
        [exact Htr|]
    end.
    rewrite Etr in Hi1, Hi2. cbn [fst snd] in Hi1, Hi2.
    rewrite Hf in Hi1. injection Hi1 as ->.
    pose proof (turn_run w Hp Hr Ha eq_refl E)
      as (f2 & w2 & w3 & w' & E2 & E3 & E4 & _ & H2 & H3 & H4).
    rewrite process_gemini_result_none in E2. injection E2 as <- <-.
    destruct (generate_audio_unspoken final w1 Hc) as (w3' & E3' & G2 & G3 & G1).
    rewrite E3' in E3. injection E3 as ->.
    exists w'. split; [exact E4|]. rewrite H2, H3, H4, G2, G3, Hi2. auto.
Qed.

(** C6 (as amended). When the translation service fails, at the client or
    at any chunk, [translate_if_needed] gives back the text it was given.
    The failure does not stop the turn, which goes on to "Generate Audio"
    with that same text.  Whether speech is then asked for depends on the
    text: a text that is not empty and holds no marker is sent to the
    speech service, and a "read_text" turn ends with that call; for a text
    that is empty or holds the marker no call is made and there is no
    audio. *)
Theorem translation_failure_is_not_fatal (text code name : pystr) (w : World) :
  translation_fails env (trace w) text code ->
  let translation := translate_if_needed env text (Some code) name w in
  fst translation = Ok text /\
  (truthy text = true -> contains ERROR_MARKER text = false ->
   trace (snd (generate_audio env text (snd translation)))
   = trace (snd translation) ++ [call_gTTS text (tts_lang_code (sess w))]) /\
  (truthy text = false \/ contains ERROR_MARKER text = true ->
   trace (snd (generate_audio env text (snd translation))) = trace (snd translation) /\
   current_audio_data (sess (snd (generate_audio env text (snd translation)))) = None) /\
  (processing (sess w) = true -> api_key_configured (sess w) = true ->
   action_trigger (sess w) = Some (py "read_text") ->
   translate_lang_code (sess w) = Some code ->
   translate_lang_name (sess w) = name ->
   join (py " ") (split (pasted_text_area (sess w))) = text ->
   truthy text = true -> contains ERROR_MARKER text = false ->
   exists w',
     processing_logic env key src w = (Ok tt, w') /\
     trace w' = trace (snd translation) ++ [call_gTTS text (tts_lang_code (sess w))] /\
     (current_text_to_speak (sess w') = text \/
      current_text_to_speak (sess w') = text ++ AUDIO_ERROR_NOTE)) /\
  (processing (sess w) = true -> api_key_configured (sess w) = true ->
   action_trigger (sess w) = Some (py "read_text") ->
   translate_lang_code (sess w) = Some code ->
   translate_lang_name (sess w) = name ->
   join (py " ") (split (pasted_text_area (sess w))) = text ->
   truthy text = false \/ contains ERROR_MARKER text = true ->
   exists w',
     processing_logic env key src w = (Ok tt, w') /\
     trace w' = trace (snd translation) /\
     current_audio_data (sess w') = None /\
     (truthy text = true -> current_text_to_speak (sess w') = text)).
Proof.
  intros Hfail translation. subst translation.
  pose proof (@translate_if_needed_failure env text code name w Hfail) as Hf.
  split; [exact Hf|]. split; [|split; [|split]].
  - intros Ht Hm.
    destruct (translate_if_needed_run env text (Some code) name w)
      as (t & w1 & ext & E & Hl & _).
    rewrite E. cbn [snd].
    destruct (generate_audio_run text w1) as (w2 & E2 & _ & _ & _ & G).
    rewrite E2. cbn [snd]. destruct (G Ht Hm) as (G1 & _).
    rewrite G1.
    now destruct (only_config_fields (only_log_config Hl))
      as (_ & _ & _ & _ & _ & _ & -> & _).
  - intro Hc.
    destruct (generate_audio_unspoken text
                (snd (translate_if_needed env text (Some code) name w)) Hc)
      as (w2 & E2 & G2 & G3 & _).
    rewrite E2. cbn [snd]. split; [exact G3 | exact G2].
  - intros Hp Hr Ha Hcode Hname Htext Ht Hm.
    assert (Hpasted : truthy (pasted_text_area (sess w)) = true).
    { destruct (pasted_text_area (sess w)); [|reflexivity].
      cbn in Htext. subst text. discriminate. }
    destruct (@read_text_turn w Hp Hr Ha Hpasted) as (w' & final & E' & _ & Hfin & G).
    rewrite Hcode, Hname, Htext in Hfin, G. rewrite Hf in Hfin. injection Hfin as <-.
    exists w'. split; [exact E'|]. now apply G.
  - intros Hp Hr Ha Hcode Hname Htext Hc.
    pose proof (@read_text_turn_unspoken w text Hp Hr Ha) as H.
    cbv zeta in H. rewrite Hcode, Hname, Htext in H.
    destruct (H Hf Hc) as (w' & E' & Haudio & Htrace & Hshown).
    exists w'. auto.
Qed.

End Orchestrator.

(** ** The properties at sample inputs *)

Section Samples.

Import Fixtures.

(** A model reply that holds the marker after its first words is handled as
    a failure, although it does not start with the marker: the explanation
    of the earlier turn stays, the reply is shown as it is and no speech
    call is made. *)
Lemma marker_inside_result_counts_as_failure :
  let env := answering (py "See the Error: label") in
  let w := running (py "explain_text") (py "What does the screen say?") None in
  let w' := snd (processing_logic env key source w) in
  fst (action_execution env key source (py "explain_text")
         (started (py "explain_text") w))
  = Ok ([], Some (py "See the Error: label")) /\
  startswith ERROR_MARKER (py "See the Error: label") = false /\
  last_explanation (sess w') = py "An earlier explanation" /\
  current_text_to_speak (sess w') = py "See the Error: label" /\
  current_audio_data (sess w') = None /\
  trace w'
  = [call_generate_content flash
       [PartText EXPLAIN_PROMPT_BASE; PartText (py "What does the screen say?")] 120].
Proof. vm_compute. repeat split. Qed.

Lemma gemini_result_handling_witness :
  exists w',
    processing_logic (answering (py "2 * 3 = 6")) key source
      (running (py "explain_text") (py "What is 2 * 3?") None) = (Ok tt, w') /\
    last_explanation (sess w') = py "2 3 equals 6".
Proof.
  pose (env := answering (py "2 * 3 = 6")).
  pose (w := running (py "explain_text") (py "What is 2 * 3?") None).
  pose (w1 := snd (action_execution env key source (py "explain_text")
                     (started (py "explain_text") w))).
  assert (E : action_execution env key source (py "explain_text")
                (started (py "explain_text") w)
              = (Ok ([], Some (py "2 * 3 = 6")), w1))
    by (vm_compute; reflexivity).
  assert (Hin : In (py "explain_text") [py "explain_image"; py "explain_text"])
    by (right; left; reflexivity).
  destruct (proj1 (proj2 (proj2 (gemini_result_handling env key source)))
              w (py "explain_text") [] (py "2 * 3 = 6") w1
              eq_refl eq_refl eq_refl Hin E eq_refl)
    as (w' & final & E' & Hlast & _).
  exists w'. split; [exact E'|]. rewrite Hlast. vm_compute. reflexivity.
Defined.

(** English is one of the choices of [translation_languages]; with it a
    Spanish text is handed back as it is and no call is made, while the
    same text with French chosen goes to the service. *)
Lemma english_target_is_not_translated :
  In (py "English", Some (py "en")) translation_languages /\
  truthy (py "hola") = true /\
  translate_if_needed (answering []) (py "hola") (Some (py "en")) (py "English") fresh
  = (Ok (py "hola"), fresh) /\
  trace (snd (translate_if_needed (answering []) (py "hola") (Some (py "fr"))
                (py "French") fresh))
  = [call_GoogleTranslator (py "auto") (py "fr"); call_translate (py "fr") (py "hola")].
Proof.
  split; [do 3 right; left; reflexivity|]. split; [reflexivity|].
  split; [reflexivity | vm_compute; reflexivity].
Qed.

Lemma translate_if_needed_paths_witness :
  exists r w' rest,
    translate_if_needed (answering []) (py "hello") (Some (py "te")) (py "Telugu") fresh
    = (Ok r, w') /\
    trace w' = trace fresh ++ call_GoogleTranslator (py "auto") (py "te") :: rest.
Proof.
  assert (Hin : In (py "Telugu", Some (py "te")) translation_languages)
    by (right; left; reflexivity).
  assert (Hen : py "te" <> py "en") by (vm_compute; discriminate).
  destruct (proj2 (translate_if_needed_paths (answering []) (py "hello") (py "Telugu") fresh)
              (py "Telugu") (py "te") Hin Hen eq_refl) as (r & w' & rest & E & Ht & _).
  exists r, w', rest. split; assumption.
Defined.

(** A "read_image" turn in which the model cannot be reached ends with the
    explanation of the earlier turn still in place. *)
Lemma read_image_error_keeps_last_explanation :
  let w := running (py "read_image") [] None in
  let w' := snd (processing_logic model_unreachable key source w) in
  startswith ERROR_MARKER (current_text_to_speak (sess w')) = true /\
  last_explanation (sess w) = py "An earlier explanation" /\
  last_explanation (sess w') = py "An earlier explanation" /\
  last_explanation (sess w') <> [].
Proof. vm_compute. repeat split. discriminate. Qed.

Lemma reading_and_last_explanation_witness :
  exists w',
    processing_logic (answering []) key source
      (running (py "read_text") (py "Some  pasted text") None) = (Ok tt, w') /\
    last_explanation (sess w') = [].
Proof.
  assert (Hin : In (py "read_text") [py "read_image"; py "read_text"])
    by (right; left; reflexivity).
  destruct (@reading_and_last_explanation (answering []) key source
              (running (py "read_text") (py "Some  pasted text") None) (py "read_text")
              eq_refl eq_refl eq_refl Hin) as (w' & E & H & _).
  exists w'. split; [exact E|]. vm_compute in H. exact H.
Defined.

(** After a failed verification the next two calls, with the same key, each
    ask the service again. *)
Lemma failed_verification_is_retried :
  let w1 := snd (configure_gemini silent key source fresh) in
  let w2 := snd (configure_gemini silent key source w1) in
  let w3 := snd (configure_gemini silent key source w2) in
  fst (configure_gemini silent key source fresh) = Ok None /\
  api_key_configured (sess w1) = false /\
  trace w1 = [call_genai_configure (py "a-key")] /\
  trace w2 = [call_genai_configure (py "a-key"); call_genai_configure (py "a-key")] /\
  configure_attempts (trace w3) = 3.
Proof. vm_compute. repeat split. Qed.

Lemma configure_gemini_attempts_witness :
  let w1 := snd (configure_gemini silent key source fresh) in
  model_cached (sess w1) = false /\
  configure_attempts (trace (snd (configure_gemini silent key source w1)))
  = S (configure_attempts (trace w1)).
Proof.
  assert (Hnone : fst (configure_gemini silent key source fresh) = Ok None)
    by (vm_compute; reflexivity).
  exact (proj2 (proj2 (proj2 (configure_gemini_attempts silent key source fresh)))
           eq_refl Hnone).
Defined.

Lemma processing_logic_resets_processing_witness :
  exists w',
    processing_logic (answering []) key source
      (running (py "follow_up") [] None) = (Ok tt, w') /\
    processing (sess w') = false /\ action_trigger (sess w') = None.
Proof.
  exact (@processing_logic_resets_processing (answering []) key source
           (running (py "follow_up") [] None) eq_refl).
Defined.

(** A pasted text that holds the marker, with Spanish chosen and a
    translator that fails: the collapsed text comes back from the failed
    translation and is shown, but the turn does not go on to the speech
    service and there is no audio. *)
Lemma failed_translation_of_marked_text_is_not_spoken :
  let env := translator_stops_after 0 in
  let w := running (py "read_text") (py "Error:  disk   full") (Some (py "es")) in
  let text := py "Error: disk full" in
  let w' := snd (processing_logic env key source w) in
  join (py " ") (split (pasted_text_area (sess w))) = text /\
  translation_fails env (trace w) text (py "es") /\
  fst (translate_if_needed env text (Some (py "es")) (py "Spanish") w) = Ok text /\
  current_text_to_speak (sess w') = text /\
  current_audio_data (sess w') = None /\
  trace w'
  = [call_GoogleTranslator (py "auto") (py "es"); call_translate (py "es") text].
Proof.
  intros env w text w'. split; [vm_compute; reflexivity|]. split.
  - right. exists 0. eexists. split.
    + apply Nat.ltb_lt. vm_compute. reflexivity.
    + vm_compute. reflexivity.
  - vm_compute. repeat split.
Qed.

Lemma translation_failure_is_not_fatal_witness :
  let env := translator_stops_after 1 in
  let w := running (py "read_text") long_text (Some (py "es")) in
  let translation := translate_if_needed env long_text (Some (py "es")) (py "Spanish") w in
  fst translation = Ok long_text /\
  exists w',
    processing_logic env key source w = (Ok tt, w') /\
    trace w' = trace (snd translation) ++ [call_gTTS long_text (py "en")].
Proof.
  intros env w translation.
  assert (Hfail : translation_fails env (trace w) long_text (py "es")).
  { right. exists 1. eexists. split.
    - apply Nat.ltb_lt. vm_compute. reflexivity.
    - vm_compute. reflexivity. }
  assert (Hjoin : join (py " ") (split (pasted_text_area (sess w))) = long_text)
    by (vm_compute; reflexivity).
  assert (Hm : contains ERROR_MARKER long_text = false) by (vm_compute; reflexivity).
  destruct (@translation_failure_is_not_fatal env key source long_text (py "es")
              (py "Spanish") w Hfail) as (Hf & _ & _ & Hturn & _).
  split; [exact Hf|].
  destruct (Hturn eq_refl eq_refl eq_refl eq_refl eq_refl Hjoin eq_refl Hm)
    as (w' & E & Ht & _).
  exists w'. split; [exact E | exact Ht].
Defined.

Lemma read_text_error_marker_skips_audio_witness :
  exists w',
    processing_logic (answering []) key source
      (running (py "read_text") (py "Error:  disk   full") None) = (Ok tt, w') /\
    current_text_to_speak (sess w') = py "Error: disk full" /\
    current_audio_data (sess w') = None.
Proof.
  pose (w := running (py "read_text") (py "Error:  disk   full") None).
  assert (Hf : fst (translate_if_needed (answering [])
                      (join (py " ") (split (pasted_text_area (sess w))))
                      (translate_lang_code (sess w)) (translate_lang_name (sess w)) w)
               = Ok (py "Error: disk full")) by (vm_compute; reflexivity).
  assert (Hm : contains ERROR_MARKER (py "Error: disk full") = true)
    by (vm_compute; reflexivity).
  destruct (@read_text_error_marker_skips_audio (answering []) key source w
              (py "Error: disk full") eq_refl eq_refl eq_refl Hf Hm)
    as (w' & E & Ht & Ha & _).
  exists w'. repeat split; assumption.
Defined.

Lemma empty_explanation_overwrites_context_witness :
  exists w',
    processing_logic (answering (py "**")) key source
      (running (py "explain_text") (py "What is this?") None) = (Ok tt, w') /\
    last_explanation (sess w') = [] /\
    current_text_to_speak (sess w') = NO_CONTENT /\
    current_audio_data (sess w') = None.
Proof.
  pose (env := answering (py "**")).
  pose (w := running (py "explain_text") (py "What is this?") None).
  assert (E : exists f w1,
             action_execution env key source (py "explain_text")
               (started (py "explain_text") w) = (Ok (f, Some (py "**")), w1))
    by (eexists _, _; vm_compute; reflexivity).
  assert (Hin : In (py "explain_text")
                  [py "explain_image"; py "explain_text"; py "follow_up"])
    by (right; left; reflexivity).
  assert (Hclean : clean_text_for_speech (py "**") = []) by (vm_compute; reflexivity).
  exact (@empty_explanation_overwrites_context env key source w (py "explain_text")
           (py "**") eq_refl eq_refl eq_refl Hin E eq_refl Hclean).
Defined.

End Samples.

(* ================================================================= *)
(** * Further properties *)

(** ** What every procedure keeps *)

(** The tests of [action_execution] on the name of an action. *)
Ltac decide_action :=
  repeat match goal with
         | |- context [str_eqb (py ?a) (py ?b)] =>
             let v := eval vm_compute in (str_eqb (py a) (py b)) in
             change (str_eqb (py a) (py b)) with v
         end;
  cbv iota.

Section KeepsRules.

Variable R : World -> World -> Prop.
Variable allowed : Call -> Prop.

Hypothesis R_refl : forall w, R w w.
Hypothesis R_trans : forall w1 w2 w3, R w1 w2 -> R w2 w3 -> R w1 w3.
Hypothesis R_log : forall m w, R w (snd (log_message m w)).
Hypothesis R_writes : forall f, Writes f -> forall w, R w (on_session f w).
Hypothesis R_external :
  forall c, allowed c -> forall w, R w {| sess := sess w; trace := trace w ++ [c] |}.

Lemma keeps_ret {A} (a : A) : Keeps R (ret a).
Proof. intro w. apply R_refl. Qed.

Lemma keeps_raise {A} (e : Exc) : Keeps R (@raise A e).
Proof. intro w. apply R_refl. Qed.

Lemma keeps_lift {A} (r : Res A) : Keeps R (lift r).
Proof. intro w. apply R_refl. Qed.

Lemma keeps_get_session : Keeps R get_session.
Proof. intro w. apply R_refl. Qed.

Lemma keeps_log_message (m : pystr) : Keeps R (log_message m).
Proof. intro w. apply R_log. Qed.

Lemma keeps_modify (f : Session -> Session) : Writes f -> Keeps R (modify f).
Proof. intros H w. now apply R_writes. Qed.

Lemma keeps_external {A} (c : Call) (answer : list Call -> Res A) :
  allowed c -> Keeps R (external c answer).
Proof. intros H w. now apply R_external. Qed.

Lemma keeps_bind {A B} (c : M A) (k : A -> M B) :
  Keeps R c -> (forall a, Keeps R (k a)) -> Keeps R (bind c k).
Proof.
  intros Hc Hk w. unfold bind. specialize (Hc w).
  destruct (c w) as [[a|e] w1]; cbn [snd] in *; [|exact Hc].
  eapply R_trans; [exact Hc | apply Hk].
Qed.

Lemma keeps_try_except {A} (body : M A) (handler : Exc -> M A) :
  Keeps R body -> (forall e, Keeps R (handler e)) -> Keeps R (try_except body handler).
Proof.
  intros Hc Hk w. unfold try_except. specialize (Hc w).
  destruct (body w) as [[a|e] w1]; cbn [snd] in *; [exact Hc|].
  eapply R_trans; [exact Hc | apply Hk].
Qed.

Lemma keeps_try_finally {A} (body : M A) (fin : M unit) :
  Keeps R body -> Keeps R fin -> Keeps R (try_finally body fin).
Proof.
  intros Hc Hf w. unfold try_finally. specialize (Hc w).
  destruct (body w) as [r w1]; cbn [snd] in *. specialize (Hf w1).
  destruct (fin w1) as [[u|e] w2]; cbn [snd] in *; eapply R_trans; eassumption.
Qed.

(** Goes through a procedure along its syntax. *)
Ltac keeps_step :=
  match goal with
  | |- Keeps _ (ret _) => apply keeps_ret
  | |- Keeps _ (raise _) => apply keeps_raise
  | |- Keeps _ (lift _) => apply keeps_lift
  | |- Keeps _ get_session => apply keeps_get_session
  | |- Keeps _ (log_message _) => apply keeps_log_message
  | |- Keeps _ (modify _) =>
      apply keeps_modify; solve [constructor | apply writes_current_text_note]
  | |- Keeps _ (bind _ _) => apply keeps_bind; [|intro]
  | |- Keeps _ (try_except _ _) => apply keeps_try_except; [|intro]
  | |- Keeps _ (try_finally _ _) => apply keeps_try_finally
  | |- Keeps _ (if ?b then _ else _) => destruct b
  | |- Keeps _ (match ?x with _ => _ end) => destruct x
  end.

Ltac keeps := cbv zeta; repeat keeps_step.

Variable env : Env.

Lemma keeps_generate_speech (text lang : pystr) :
  allowed (call_gTTS text lang) -> Keeps R (generate_speech env text lang).
Proof.
  intro Ha. unfold generate_speech. keeps. now apply keeps_external.
Qed.

Lemma keeps_translate_chunks (code text : pystr) (idxs : list nat) :
  (forall chunk, allowed (call_translate code chunk)) ->
  forall acc, Keeps R (translate_chunks env code text idxs acc).
Proof.
  intro Ha. induction idxs as [|i rest IH]; intro acc; cbn [translate_chunks]; keeps.
  - now apply keeps_external.
  - apply IH.
Qed.

Lemma keeps_translate_if_needed (text : pystr) (target : option pystr) (name : pystr) :
  (forall c, translator_call c -> allowed c) ->
  Keeps R (translate_if_needed env text target name).
Proof.
  intro Ha. unfold translate_if_needed. keeps.
  - apply keeps_external. now apply Ha.
  - apply keeps_translate_chunks. intro chunk. now apply Ha.
Qed.

Lemma keeps_generate_audio (text : pystr) :
  (forall t l, allowed (call_gTTS t l)) -> Keeps R (generate_audio env text).
Proof.
  intro Ha. unfold generate_audio. keeps. now apply keeps_generate_speech.
Qed.

Lemma keeps_except_clause (a : pystr) (e : Exc) : Keeps R (except_clause a e).
Proof. unfold except_clause. keeps. Qed.

Lemma keeps_finally_clause (a : pystr) : Keeps R (finally_clause a).
Proof. unfold finally_clause. keeps. Qed.

Lemma keeps_process_gemini_result (a f : pystr) (g : option pystr) :
  (forall c, translator_call c -> allowed c) ->
  Keeps R (process_gemini_result env a f g).
Proof.
  intro Ha. unfold process_gemini_result. keeps; now apply keeps_translate_if_needed.
Qed.

Variable key : option pystr.
Variable src : pystr.

Lemma keeps_modify_config (f : Session -> Session) :
  (forall f, WritesConfig f -> forall w, R w (on_session f w)) ->
  WritesConfig f -> Keeps R (modify f).
Proof. intros Hc H w. now apply Hc. Qed.

Lemma keeps_configure_gemini :
  (forall f, WritesConfig f -> forall w, R w (on_session f w)) ->
  (forall c, allowed c) ->
  Keeps R (configure_gemini env key src).
Proof.
  intros Hc Ha. unfold configure_gemini. keeps;
    first [ apply keeps_external; apply Ha
          | apply keeps_modify_config; [exact Hc | constructor] ].
Qed.

Hypothesis R_configure : Keeps R (configure_gemini env key src).

Lemma keeps_get_gemini_response (prompt : pystr) (image_bytes : option bytes)
    (text_input : option pystr) :
  (forall m c t, allowed (call_generate_content m c t)) ->
  Keeps R (get_gemini_response env key src prompt image_bytes text_input).
Proof.
  intro Ha. unfold get_gemini_response. keeps;
    try (apply keeps_external; apply Ha); exact R_configure.
Qed.

Lemma keeps_action_execution (a : pystr) :
  (forall m c t, allowed (call_generate_content m c t)) ->
  (forall c, translator_call c -> allowed c) ->
  Keeps R (action_execution env key src a).
Proof.
  intros Hg Ht. unfold action_execution. keeps;
    first [ now apply keeps_get_gemini_response
          | now apply keeps_translate_if_needed ].
Qed.

Lemma keeps_try_body (a : pystr) :
  (forall m c t, allowed (call_generate_content m c t)) ->
  (forall c, output_call c -> allowed c) ->
  Keeps R (try_body env key src a).
Proof.
  intros Hg Ho.
  assert (Ht : forall c, translator_call c -> allowed c).
  { intros [] H; try contradiction; now apply Ho. }
  unfold try_body. keeps.
  - now apply keeps_action_execution.
  - now apply keeps_process_gemini_result.
  - apply keeps_generate_audio. intros t l. now apply Ho.
Qed.

(** Reading the pasted text needs no model: the whole [try] statement of a
    "read_text" turn under translation and speech calls only. *)
Lemma keeps_read_text_try :
  (forall c, output_call c -> allowed c) ->
  Keeps R (try_finally
             (try_except (try_body env key src (py "read_text"))
                         (except_clause (py "read_text")))
             (finally_clause (py "read_text"))).
Proof.
  intro Ho.
  assert (Ht : forall c, translator_call c -> allowed c).
  { intros [] H; try contradiction; now apply Ho. }
  apply keeps_try_finally; [apply keeps_try_except; [|intro]|].
  - unfold try_body. apply keeps_bind; [|intro; apply keeps_bind; [|intro]].
    + unfold action_execution. decide_action. keeps.
      now apply keeps_translate_if_needed.
    + now apply keeps_process_gemini_result.
    + apply keeps_generate_audio. intros t l. now apply Ho.
  - apply keeps_except_clause.
  - apply keeps_finally_clause.
Qed.

Lemma keeps_processing_logic :
  (forall m c t, allowed (call_generate_content m c t)) ->
  (forall c, output_call c -> allowed c) ->
  Keeps R (processing_logic env key src).
Proof.
  intros Hg Ho. unfold processing_logic. keeps.
  - now apply keeps_try_body.
  - apply keeps_except_clause.
  - apply keeps_finally_clause.
Qed.

End KeepsRules.

(** ** Four relations every procedure keeps *)

Lemma log_message_bounded (m : pystr) (w : World) :
  List.length (log_messages (sess (snd (log_message m w)))) <= max_log_lines.
Proof.
  unfold log_message, modify. cbn [snd sess log_messages set_log_messages].
  destruct (max_log_lines <? _) eqn:E.
  - apply firstn_le_length.
  - now apply Nat.ltb_ge in E.
Qed.

Lemma same_inputs_refl (w : World) : same_inputs w w.
Proof. repeat split. Qed.

Lemma same_inputs_trans (w1 w2 w3 : World) :
  same_inputs w1 w2 -> same_inputs w2 w3 -> same_inputs w1 w3.
Proof.
  unfold same_inputs. intros (A1 & A2 & A3 & A4 & A5 & A6) (B1 & B2 & B3 & B4 & B5 & B6).
  repeat split; congruence.
Qed.

Lemma only_config_same_inputs (w w' : World) : only_config w w' -> same_inputs w w'.
Proof.
  intro H. destruct (only_config_fields H) as (_ & _ & _ & _ & H1 & _ & H2 & H3 & H4 & H5 & H6).
  repeat split; assumption.
Qed.

Lemma log_kept_or_bounded_trans (w1 w2 w3 : World) :
  log_kept_or_bounded w1 w2 -> log_kept_or_bounded w2 w3 -> log_kept_or_bounded w1 w3.
Proof.
  unfold log_kept_or_bounded. intros [A|A] [B|B]; try (right; assumption).
  - left. congruence.
  - right. now rewrite B.
Qed.

Lemma calls_added_refl (allowed : Call -> Prop) (w : World) : calls_added allowed w w.
Proof. exists []. split; [now rewrite app_nil_r | constructor]. Qed.

Lemma calls_added_same_trace (allowed : Call -> Prop) (w w' : World) :
  trace w' = trace w -> calls_added allowed w w'.
Proof. intro H. exists []. split; [now rewrite app_nil_r | constructor]. Qed.

Lemma calls_added_trans (allowed : Call -> Prop) (w1 w2 w3 : World) :
  calls_added allowed w1 w2 -> calls_added allowed w2 w3 -> calls_added allowed w1 w3.
Proof.
  intros (e1 & E1 & F1) (e2 & E2 & F2). exists (e1 ++ e2). split.
  - now rewrite E2, E1, app_assoc.
  - apply Forall_app. now split.
Qed.

Lemma calls_added_weaken (P Q : Call -> Prop) (w w' : World) :
  (forall c, P c -> Q c) -> calls_added P w w' -> calls_added Q w w'.
Proof.
  intros H (e & E & F). exists e. split; [exact E|].
  eapply Forall_impl; [|exact F]. exact H.
Qed.

Section Kept.

Variable env : Env.
Variable key : option pystr.
Variable src : pystr.

(** *** Inputs and settings *)

Lemma same_inputs_writes (f : Session -> Session) :
  Writes f -> forall w, same_inputs w (on_session f w).
Proof. intros [] w; repeat split. Qed.

Lemma same_inputs_configure : Keeps same_inputs (configure_gemini env key src).
Proof.
  intro w. destruct (configure_gemini_run env key src w) as (m & w' & E & H & _).
  rewrite E. now apply only_config_same_inputs.
Qed.

Lemma same_inputs_processing_logic :
  Keeps same_inputs (processing_logic env key src).
Proof.
  apply keeps_processing_logic with (allowed := fun _ => True);
    try (intros; exact I).
  - apply same_inputs_refl.
  - apply same_inputs_trans.
  - intros m w. repeat split.
  - apply same_inputs_writes.
  - intros c _ w. repeat split.
  - apply same_inputs_configure.
Qed.

(** *** The length of the log *)

Lemma log_kept_or_bounded_configure :
  Keeps log_kept_or_bounded (configure_gemini env key src).
Proof.
  apply keeps_configure_gemini with (allowed := fun _ => True).
  - intro w. now left.
  - apply log_kept_or_bounded_trans.
  - intros m w. right. apply log_message_bounded.
  - intros c _ w. now left.
  - intros f [] w; now left.
  - intro c. exact I.
Qed.

Lemma log_kept_or_bounded_processing_logic :
  Keeps log_kept_or_bounded (processing_logic env key src).
Proof.
  apply keeps_processing_logic with (allowed := fun _ => True);
    try (intros; exact I).
  - intro w. now left.
  - apply log_kept_or_bounded_trans.
  - intros m w. right. apply log_message_bounded.
  - intros f [] w; now left.
  - intros c _ w. now left.
  - apply log_kept_or_bounded_configure.
Qed.

(** *** The cache and the key *)

Lemma coherent_kept_writes (f : Session -> Session) :
  Writes f -> forall w, coherent_kept key w (on_session f w).
Proof. intros [] w H; exact H. Qed.

Lemma coherent_kept_configure :
  Keeps (coherent_kept key) (configure_gemini env key src).
Proof.
  intros w H. unfold configure_gemini. run.
  destruct (gemini_model (sess w)) as [m|] eqn:Em;
    [destruct (api_key_configured (sess w)) eqn:Ec|].
  - exact H.
  - destruct (api_key_missing key) eqn:Ek.
    + destruct (_api_key_error_logged (sess w)); cbn [negb]; run; intro; discriminate.
    + run. destruct (genai_configure env (trace w) _) as [[]|e]; run;
        [destruct (genai_GenerativeModel env _ _) as [m'|e]; run|];
        intro Hc; try discriminate; cbn; split; [discriminate | exact Ek].
  - destruct (api_key_missing key) eqn:Ek.
    + destruct (_api_key_error_logged (sess w)); cbn [negb]; run; intro; discriminate.
    + run. destruct (genai_configure env (trace w) _) as [[]|e]; run;
        [destruct (genai_GenerativeModel env _ _) as [m'|e]; run|];
        intro Hc; try discriminate; cbn; split; [discriminate | exact Ek].
Qed.

Lemma coherent_kept_processing_logic :
  Keeps (coherent_kept key) (processing_logic env key src).
Proof.
  apply keeps_processing_logic with (allowed := fun _ => True);
    try (intros; exact I).
  - intros w H. exact H.
  - intros w1 w2 w3 A B H. apply B, A, H.
  - intros m w H. exact H.
  - apply coherent_kept_writes.
  - intros c _ w H. exact H.
  - apply coherent_kept_configure.
Qed.

(** *** The calls of a turn that finds the model cached *)

Lemma cached_calls_trans (allowed : Call -> Prop) (w1 w2 w3 : World) :
  cached_calls allowed w1 w2 -> cached_calls allowed w2 w3 -> cached_calls allowed w1 w3.
Proof.
  intros A B H. destruct (A H) as (A1 & A2 & A3).
  assert (H2 : model_cached (sess w2) = true).
  { unfold model_cached in *. rewrite A1. destruct (gemini_model (sess w1)); [exact A2|discriminate]. }
  destruct (B H2) as (B1 & B2 & B3). split; [congruence|]. split; [exact B2|].
  eapply calls_added_trans; eassumption.
Qed.

Lemma cached_calls_same_session (allowed : Call -> Prop) (w w' : World) :
  gemini_model (sess w') = gemini_model (sess w) ->
  api_key_configured (sess w') = api_key_configured (sess w) ->
  calls_added allowed w w' ->
  cached_calls allowed w w'.
Proof.
  intros A B C H. split; [exact A|]. split; [|exact C].
  rewrite B. unfold model_cached in H. now destruct (gemini_model (sess w)).
Qed.

Lemma cached_calls_configure (allowed : Call -> Prop) :
  Keeps (cached_calls allowed) (configure_gemini env key src).
Proof.
  intros w H. destruct (configure_gemini_run env key src w) as (m & w' & E & _ & Hc & _).
  rewrite E. cbn [snd]. destruct (Hc H) as [_ ->].
  split; [reflexivity|]. split; [|apply calls_added_refl].
  unfold model_cached in H. now destruct (gemini_model (sess w)).
Qed.

Lemma cached_calls_processing_logic :
  Keeps (cached_calls turn_call) (processing_logic env key src).
Proof.
  apply keeps_processing_logic with (allowed := turn_call).
  - intro w. apply cached_calls_same_session; try reflexivity.
    now apply calls_added_same_trace.
  - apply cached_calls_trans.
  - intros m w. apply cached_calls_same_session; try reflexivity.
    now apply calls_added_same_trace.
  - intros f [] w; (apply cached_calls_same_session; try reflexivity;
                    now apply calls_added_same_trace).
  - intros c Hc w. apply cached_calls_same_session; try reflexivity.
    exists [c]. split; [reflexivity|]. now constructor.
  - apply cached_calls_configure.
  - intros; exact I.
  - intros [] H; try contradiction; exact I.
Qed.

End Kept.

(** ** The sessions the page can reach *)

Lemma dict_get_in {V : Type} (k : pystr) (d : list (pystr * V)) (v : V) :
  dict_get k d = Some v -> In (k, v) d.
Proof.
  induction d as [|[k' v'] d IH]; cbn [dict_get]; [discriminate|].
  destruct (str_eqb k' k) eqn:E.
  - intro H. injection H as ->. apply str_eqb_eq in E. subst. now left.
  - intro H. right. now apply IH.
Qed.

Lemma dict_get_key {V : Type} (k : pystr) (d : list (pystr * V)) :
  In k (map fst d) -> exists v, dict_get k d = Some v.
Proof.
  induction d as [|[k' v'] d IH]; cbn [map fst In dict_get]; [contradiction|].
  intros [->|H].
  - replace (str_eqb k k) with true by (symmetry; now apply str_eqb_eq). eauto.
  - destruct (str_eqb k' k); [eauto | now apply IH].
Qed.

(** A use of a widget changes neither the log, nor the cache, nor the
    trace; it leaves the session alone or starts an action. *)
Lemma widget_use (f : Session -> Session) (s : Session) :
  (exists file, f = upload_file file) \/ (exists t, f = edit_pasted_text t) \/
  (exists t, f = edit_feedback t) \/ (exists b, f = press b) ->
  log_messages (f s) = log_messages s /\
  gemini_model (f s) = gemini_model s /\
  api_key_configured (f s) = api_key_configured s /\
  tts_lang_code (f s) = tts_lang_code s /\
  translate_lang_code (f s) = translate_lang_code s /\
  translate_lang_name (f s) = translate_lang_name s /\
  (processing (f s) = true \/
   processing (f s) = processing s /\ action_trigger (f s) = action_trigger s).
Proof.
  intros [(file & ->)|[(t & ->)|[(t & ->)|(b & ->)]]].
  - unfold upload_file. destruct (_ || _); repeat split; right; split; reflexivity.
  - unfold edit_pasted_text. destruct (_ || _); repeat split; right; split; reflexivity.
  - unfold edit_feedback. destruct (_ || _); repeat split; right; split; reflexivity.
  - destruct b; cbn [press];
      unfold press_explain_img, press_read_img, press_explain_txt, press_read_txt,
        press_send_follow_up;
      cbv zeta;
      repeat match goal with
             | |- context [if ?c then _ else _] => destruct c
             end;
      repeat split; first [left; reflexivity | right; split; reflexivity].
Qed.

(** Two names of the select boxes are stored as their entries; the rest of
    the session is as it was. *)
Lemma update_settings_fields (tts tr : pystr) (s : Session) :
  In tts (map fst tts_languages) -> In tr (map fst translation_languages) ->
  processing (update_settings tts tr s) = processing s /\
  action_trigger (update_settings tts tr s) = action_trigger s /\
  log_messages (update_settings tts tr s) = log_messages s /\
  gemini_model (update_settings tts tr s) = gemini_model s /\
  api_key_configured (update_settings tts tr s) = api_key_configured s /\
  settings_listed (update_settings tts tr s).
Proof.
  intros Htts Htr. unfold update_settings.
  destruct (dict_get_key tts tts_languages Htts) as (c1 & E1).
  destruct (dict_get_key tr translation_languages Htr) as (c2 & E2).
  rewrite E1, E2. repeat (split; [reflexivity|]).
  apply dict_get_in in E1, E2. split.
  - change (In (snd (tts, c1)) (map snd tts_languages)). now apply in_map.
  - exact E2.
Qed.

Lemma settings_listed_default : settings_listed default_values.
Proof. split; vm_compute; left; reflexivity. Qed.

Section Reach.

Variable env : Env.
Variable key : option pystr.
Variable src : pystr.

(** A pass over the processing logic does nothing without [processing];
    with it, it ends normally and clears [processing] and the action. *)
Lemma processing_logic_pass (w : World) :
  (processing (sess w) = false /\ processing_logic env key src w = (Ok tt, w)) \/
  (processing (sess w) = true /\
   exists w', processing_logic env key src w = (Ok tt, w') /\
              processing (sess w') = false /\ action_trigger (sess w') = None).
Proof.
  unfold processing_logic. run. destruct (processing (sess w)) eqn:Hp.
  - right.
    destruct (truthy_opt (action_trigger (sess w)));
      destruct (api_key_configured (sess w)); cbn [andb negb]; run;
      try rewrite Hp;
      try solve [split; [reflexivity|]; eexists; repeat split].
    match goal with
    | |- context [try_body ?e ?k ?s ?a ?w0] =>
        destruct (try_body e k s a w0) as [[[]|e0] w1]
    end; run; (split; [reflexivity|]; eexists; repeat split).
  - left. split; reflexivity.
Qed.

Lemma sidebar_world (w : World) :
  snd (sidebar_api_key_status env key src w) = w \/
  snd (sidebar_api_key_status env key src w) = snd (configure_gemini env key src w).
Proof.
  unfold sidebar_api_key_status. destruct (api_key_missing key); [now left|].
  run. destruct (api_key_configured (sess w)); cbn [negb]; [now left|].
  right. run. destruct (configure_gemini env key src w) as [[m|e] w']; run; [|reflexivity].
  now destruct (api_key_configured (sess w')).
Qed.

(** What holds in every session the page can reach. *)
Lemma reachable_invariants (w : World) :
  Reachable env key src w ->
  idle_without_action (sess w) /\
  List.length (log_messages (sess w)) <= max_log_lines /\
  coherent key (sess w) /\
  settings_listed (sess w).
Proof.
  induction 1 as [|w w' Hr (I1 & I2 & I3 & I4) Hs].
  - split; [intro; reflexivity|]. split; [cbn; unfold max_log_lines; lia|].
    split; [intro; discriminate|].
    exact settings_listed_default.
  - assert (Hwidget : forall f,
               (exists file, f = upload_file file) \/ (exists t, f = edit_pasted_text t) \/
               (exists t, f = edit_feedback t) \/ (exists b, f = press b) ->
               idle_without_action (f (sess w)) /\
               List.length (log_messages (f (sess w))) <= max_log_lines /\
               coherent key (f (sess w)) /\ settings_listed (f (sess w))).
    { intros f Hf.
      destruct (widget_use (sess w) Hf) as (A1 & A2 & A3 & A4 & A5 & A6 & A7).
      split; [|split; [|split]].
      - destruct A7 as [A7|[A7 A8]]; intro Hp; [congruence|].
        rewrite A8. apply I1. congruence.
      - now rewrite A1.
      - unfold coherent. rewrite A2, A3. exact I3.
      - unfold settings_listed. rewrite A4, A5, A6. exact I4. }
    assert (Hconf : forall w1,
               only_config w w1 -> log_kept_or_bounded w w1 -> coherent_kept key w w1 ->
               idle_without_action (sess w1) /\
               List.length (log_messages (sess w1)) <= max_log_lines /\
               coherent key (sess w1) /\ settings_listed (sess w1)).
    { intros w1 Hc Hl Hk.
      destruct (only_config_fields Hc) as (C1 & _ & _ & _ & _ & C2 & C3 & C4 & C5 & _).
      split; [|split; [|split]].
      - unfold idle_without_action. rewrite C1, C2. exact I1.
      - destruct Hl as [->|Hl]; assumption.
      - now apply Hk.
      - unfold settings_listed. rewrite C3, C4, C5. exact I4. }
    destruct Hs as [file w|t w|t w|tts tr w Htts Htr|b w|w|w].
    + apply Hwidget; eauto.
    + apply Hwidget; eauto 6.
    + apply Hwidget; eauto 6.
    + destruct (update_settings_fields (sess w) Htts Htr) as (U1 & U2 & U3 & U4 & U5 & U6).
      cbn [on_session sess].
      split; [|split; [|split]].
      * unfold idle_without_action. rewrite U1, U2. exact I1.
      * now rewrite U3.
      * unfold coherent. rewrite U4, U5. exact I3.
      * exact U6.
    + apply Hwidget; eauto 6.
    + destruct (sidebar_world w) as [->| ->]; [auto|].
      apply Hconf.
      * destruct (configure_gemini_run env key src w) as (m & w1 & E & Hc & _).
        now rewrite E.
      * apply log_kept_or_bounded_configure.
      * apply coherent_kept_configure.
    + pose proof (@same_inputs_processing_logic env key src w)
        as (_ & _ & _ & S4 & S5 & S6).
      split; [|split; [|split]].
      * destruct (processing_logic_pass w) as [[Hp E]|[Hp (w' & E & P1 & P2)]];
          rewrite E; cbn [snd]; [exact I1 | intro; exact P2].
      * destruct (@log_kept_or_bounded_processing_logic env key src w) as [->|Hl];
          assumption.
      * now apply (@coherent_kept_processing_logic env key src w).
      * unfold settings_listed. rewrite S4, S5, S6. exact I4.
Qed.

End Reach.

(** ** What the page can reach *)

Section ReachFacts.

Variable env : Env.
Variable key : option pystr.
Variable src : pystr.

(** Without the API marked as configured a pass makes no call and shows
    nothing new. *)
Lemma processing_logic_not_ready (w : World) :
  api_key_configured (sess w) = false ->
  exists w',
    processing_logic env key src w = (Ok tt, w') /\
    trace w' = trace w /\
    api_key_configured (sess w') = false /\
    current_text_to_speak (sess w') = current_text_to_speak (sess w) /\
    current_audio_data (sess w') = current_audio_data (sess w) /\
    last_explanation (sess w') = last_explanation (sess w) /\
    (processing (sess w) = true ->
     processing (sess w') = false /\ action_trigger (sess w') = None).
Proof.
  intro Hr. unfold processing_logic. run. rewrite Hr.
  destruct (processing (sess w)) eqn:Hp.
  - destruct (truthy_opt (action_trigger (sess w))); cbn [andb negb]; run;
      try rewrite Hp; run; (eexists; split; [reflexivity|]);
      repeat split; assumption.
  - eexists. split; [reflexivity|]. repeat split; try assumption; discriminate.
Qed.

(** With no usable key nothing is ever called. *)
Lemma reachable_trace_without_key (w : World) :
  Reachable env key src w -> api_key_missing key = true ->
  trace w = [] /\ api_key_configured (sess w) = false.
Proof.
  intros Hr Hk.
  assert (Hflag : forall w0, Reachable env key src w0 -> api_key_configured (sess w0) = false).
  { intros w0 H0. destruct (reachable_invariants H0) as (_ & _ & Hc & _).
    destruct (api_key_configured (sess w0)) eqn:E; [|reflexivity].
    destruct (Hc E) as (_ & Hc'). congruence. }
  split; [|now apply Hflag].
  induction Hr as [|w w' Hr IH Hs]; [reflexivity|].
  destruct Hs as [file w|t w|t w|tts tr w Htts Htr|b w|w|w]; try exact IH.
  - unfold sidebar_api_key_status. rewrite Hk. exact IH.
  - destruct (processing_logic_not_ready w (Hflag w Hr)) as (w' & E & Ht & _).
    rewrite E. cbn [snd]. now rewrite Ht.
Qed.

End ReachFacts.

Section ReachTheorems.

Variable env : Env.
Variable key : option pystr.
Variable src : pystr.

(** X1: however the page is used, the log never holds more than
    [max_log_lines] lines. *)
Theorem reachable_log_bounded (w : World) :
  Reachable env key src w ->
  List.length (log_messages (sess w)) <= max_log_lines.
Proof. intro H. now destruct (reachable_invariants H) as (_ & ? & _). Qed.

(** X2: in every session the page can reach, an action is pending only
    while [processing] is set. *)
Theorem reachable_no_pending_action (w : World) :
  Reachable env key src w ->
  processing (sess w) = false -> action_trigger (sess w) = None.
Proof. intro H. now destruct (reachable_invariants H) as (? & _). Qed.

(** X3: in every session the page can reach, [api_key_configured] is set
    only with a model in the cache and a key that is neither missing nor
    the placeholder. *)
Theorem reachable_ready_means_model (w : World) :
  Reachable env key src w ->
  api_key_configured (sess w) = true ->
  model_cached (sess w) = true /\ api_key_missing key = false.
Proof.
  intros H Hr. destruct (reachable_invariants H) as (_ & _ & Hc & _).
  destruct (Hc Hr) as (Hm & Hk). split; [|exact Hk].
  unfold model_cached. destruct (gemini_model (sess w)); [exact Hr | now elim Hm].
Qed.

(** X4: in every session the page can reach, the speech language is a
    value of [tts_languages], and the translation name and code are one
    entry of [translation_languages]. *)
Theorem reachable_settings_listed (w : World) :
  Reachable env key src w ->
  In (tts_lang_code (sess w)) (map snd tts_languages) /\
  In (translate_lang_name (sess w), translate_lang_code (sess w)) translation_languages.
Proof. intro H. now destruct (reachable_invariants H) as (_ & _ & _ & ?). Qed.

(** X5: with a key that is missing or the placeholder, the page never
    calls a service and never marks the API as configured. *)
Theorem no_key_no_call (w : World) :
  Reachable env key src w -> api_key_missing key = true ->
  trace w = [] /\ api_key_configured (sess w) = false.
Proof. apply reachable_trace_without_key. Qed.

End ReachTheorems.

(** The walk of [Journey] is one the page allows. *)
Lemma journey_reachable :
  Reachable Journey.env Fixtures.key Fixtures.source Journey.w4.
Proof.
  unfold Journey.w4. eapply reachable_step; [|apply step_processing_logic].
  unfold Journey.w3. eapply reachable_step; [|apply step_press].
  unfold Journey.w2. eapply reachable_step; [|apply step_edit_pasted_text].
  unfold Journey.w1. eapply reachable_step; [|apply step_sidebar].
  apply reachable_start.
Qed.

(** Without a key, a press on "Read Pasted Text" is reachable too. *)
Lemma keyless_reachable :
  Reachable Fixtures.silent None (py "Not Set")
    (snd (processing_logic Fixtures.silent None (py "Not Set")
            (on_session (press read_txt) Fixtures.fresh))).
Proof.
  eapply reachable_step; [|apply step_processing_logic].
  eapply reachable_step; [|apply step_press].
  apply reachable_start.
Qed.

Lemma reachable_log_bounded_witness :
  List.length (log_messages (sess Journey.w4)) <= max_log_lines.
Proof. exact (reachable_log_bounded journey_reachable). Defined.

Lemma reachable_no_pending_action_witness :
  processing (sess Journey.w4) = false /\ action_trigger (sess Journey.w4) = None.
Proof.
  assert (H : processing (sess Journey.w4) = false) by (vm_compute; reflexivity).
  split; [exact H|]. exact (reachable_no_pending_action journey_reachable H).
Defined.

Lemma reachable_ready_means_model_witness :
  api_key_configured (sess Journey.w4) = true /\
  model_cached (sess Journey.w4) = true /\ api_key_missing Fixtures.key = false.
Proof.
  assert (H : api_key_configured (sess Journey.w4) = true) by (vm_compute; reflexivity).
  split; [exact H|]. exact (reachable_ready_means_model journey_reachable H).
Defined.

Lemma reachable_settings_listed_witness :
  In (tts_lang_code (sess Journey.w4)) (map snd tts_languages) /\
  In (translate_lang_name (sess Journey.w4), translate_lang_code (sess Journey.w4))
     translation_languages.
Proof. exact (reachable_settings_listed journey_reachable). Defined.

Lemma no_key_no_call_witness :
  api_key_missing None = true /\
  trace (snd (processing_logic Fixtures.silent None (py "Not Set")
                (on_session (press read_txt) Fixtures.fresh))) = [].
Proof.
  split; [reflexivity|].
  exact (proj1 (no_key_no_call keyless_reachable eq_refl)).
Defined.

(** ** The widgets and the turn they start *)

(** A press starts the action of its button when the button is enabled,
    and does nothing otherwise. *)
Lemma press_cases (b : Button) (s : Session) :
  press b s
  = if negb (processing s) && input_present b s && is_api_ready s
    then start_action (action_of b) s
    else s.
Proof.
  destruct b; cbn [press input_present action_of];
    unfold press_explain_img, press_read_img, press_explain_txt, press_read_txt,
      press_send_follow_up, is_api_ready; cbv zeta;
    destruct (processing s); cbn [negb orb andb]; try reflexivity.
  - destruct (truthy_bytes (last_uploaded_image s)); cbn [negb orb andb]; [|reflexivity].
    now destruct (api_key_configured s).
  - destruct (truthy_bytes (last_uploaded_image s)); cbn [negb orb andb]; [|reflexivity].
    now destruct (api_key_configured s).
  - destruct (truthy (pasted_text_area s)); cbn [negb orb andb]; [|reflexivity].
    now destruct (api_key_configured s).
  - destruct (truthy (pasted_text_area s)); cbn [negb orb andb]; [|reflexivity].
    now destruct (api_key_configured s).
  - destruct (truthy (feedback_input s)); cbn [negb orb andb]; [|reflexivity].
    destruct (truthy (last_explanation s)); cbn [negb orb andb]; [|reflexivity].
    now destruct (api_key_configured s).
Qed.

Lemma truthy_action_of (b : Button) : truthy (action_of b) = true.
Proof. now destruct b. Qed.

Section Turns.

Variable env : Env.
Variable key : option pystr.
Variable src : pystr.

(** An action without its input raises before anything is called. *)
Lemma action_execution_missing_input (b : Button) (w : World) :
  input_present b (sess w) = false ->
  exists w1,
    action_execution env key src (action_of b) w
    = (Raise (ValueError (missing_input_message b (sess w))), w1) /\
    only_log w w1 /\ trace w1 = trace w.
Proof.
  destruct b; cbn [action_of input_present missing_input_message]; intro H;
    unfold action_execution; decide_action; run; try rewrite H; cbn [negb]; run;
    try solve [eexists; repeat split].
  destruct (truthy (feedback_input (sess w))); cbn [andb] in H; cbn [negb]; run;
    [rewrite H; cbn [negb]; run|]; eexists; repeat split.
Qed.

(** An action other than the follow-up that finds its input ends
    normally. *)
Lemma action_execution_with_input (b : Button) (w : World) :
  b <> send_follow_up -> input_present b (sess w) = true ->
  exists f g w1, action_execution env key src (action_of b) w = (Ok (f, g), w1).
Proof.
  destruct b; cbn [action_of input_present]; intros Hb H; try (now elim Hb);
    unfold action_execution; decide_action; run; rewrite H; cbn [negb]; run.
  1-3: match goal with
       | |- context [get_gemini_response env key src ?p ?i ?t ?w0] =>
           destruct (get_gemini_response_run env key src p i t w0) as (r & w1 & E & _);
           rewrite E
       end; eexists _, _, _; reflexivity.
  match goal with
  | |- context [translate_if_needed env ?t ?c ?n ?w0] =>
      destruct (translate_if_needed_run env t c n w0) as (r & w1 & ext & E & _);
      rewrite E
  end. eexists _, _, _; reflexivity.
Qed.

End Turns.

Lemma truthy_app (a b : pystr) : truthy a = true -> truthy (a ++ b) = true.
Proof. now destruct a. Qed.

Lemma str_eqb_neq (a b : pystr) : a <> b -> str_eqb a b = false.
Proof.
  intro H. destruct (str_eqb a b) eqn:E; [|reflexivity].
  apply str_eqb_eq in E. contradiction.
Qed.

Lemma calls_added_log (allowed : Call -> Prop) (m : pystr) (w : World) :
  calls_added allowed w (snd (log_message m w)).
Proof. now apply calls_added_same_trace. Qed.

Lemma calls_added_writes (allowed : Call -> Prop) (f : Session -> Session) (w : World) :
  calls_added allowed w (on_session f w).
Proof. now apply calls_added_same_trace. Qed.

Lemma calls_added_external (allowed : Call -> Prop) (c : Call) (w : World) :
  allowed c -> calls_added allowed w {| sess := sess w; trace := trace w ++ [c] |}.
Proof. intro H. exists [c]. split; [reflexivity|]. now constructor. Qed.

Section TurnFacts.

Variable env : Env.
Variable key : option pystr.
Variable src : pystr.

Lemma same_inputs_action_execution (a : pystr) :
  Keeps same_inputs (action_execution env key src a).
Proof.
  apply keeps_action_execution with (allowed := fun _ => True);
    try (intros; exact I).
  - apply same_inputs_refl.
  - apply same_inputs_trans.
  - intros m w. repeat split.
  - apply same_inputs_writes.
  - intros c _ w. repeat split.
  - apply same_inputs_configure.
Qed.

Lemma same_inputs_process_gemini_result (a f : pystr) (g : option pystr) :
  Keeps same_inputs (process_gemini_result env a f g).
Proof.
  apply keeps_process_gemini_result with (allowed := fun _ => True);
    try (intros; exact I).
  - apply same_inputs_refl.
  - apply same_inputs_trans.
  - intros m w. repeat split.
  - apply same_inputs_writes.
  - intros c _ w. repeat split.
Qed.

(** What "Generate Audio" leaves on the page: a text that is never empty,
    and an audio only together with the very text it was made from. *)
Lemma generate_audio_shown (text : pystr) (w : World) :
  exists w',
    generate_audio env text w = (Ok tt, w') /\
    truthy (current_text_to_speak (sess w')) = true /\
    (forall b, current_audio_data (sess w') = Some b -> b <> [] ->
       current_text_to_speak (sess w') = text /\
       contains ERROR_MARKER text = false /\
       gTTS env (trace w) text (tts_lang_code (sess w)) = Ok b) /\
    (truthy_bytes (current_audio_data (sess w')) = false ->
     truthy text = true -> contains ERROR_MARKER text = false ->
     current_text_to_speak (sess w') = text ++ AUDIO_ERROR_NOTE).
Proof.
  unfold generate_audio.
  destruct (truthy text) eqn:Et; [destruct (contains ERROR_MARKER text) eqn:Ec|];
    cbn [andb negb]; run.
  - eexists. split; [reflexivity|]. run. split; [exact Et|].
    split; [intros b Hb; discriminate Hb | intros; discriminate].
  - match goal with
    | |- context [generate_speech env text ?l ?w0] =>
        destruct (generate_speech_run env text l w0) as (a & w1 & E & Hl & _ & H);
        rewrite E; destruct (H Et) as [Ha Ht]; clear H
    end.
    destruct (only_config_fields (only_log_config Hl)) as (_ & _ & Htext & _).
    cbn [sess trace current_text_to_speak] in Ht, Htext, Ha.
    run. destruct (truthy_bytes a) eqn:Eb; cbn [negb]; run.
    + eexists. split; [reflexivity|]. run. rewrite Htext. split; [exact Et|].
      split.
      * intros b Hb _. split; [reflexivity|]. split; [reflexivity|].
        rewrite Hb in Ha.
        destruct (gTTS env (trace w) text (tts_lang_code (sess w)));
          [now injection Ha as -> | discriminate Ha].
      * intro Hf. rewrite Hf in Eb. discriminate Eb.
    + eexists. split; [reflexivity|]. run. rewrite Htext.
      split; [now apply truthy_app|]. split.
      * intros b Hb Hne. rewrite Hb in Eb. destruct b; [now elim Hne | discriminate Eb].
      * intros _ _ _. reflexivity.
  - eexists. split; [reflexivity|]. run. split; [reflexivity|].
    split; [intros b Hb; discriminate Hb | intros; discriminate].
Qed.

(** The page at the end of a turn that ran an action. *)
Lemma turn_shown (w : World) (a : pystr) :
  processing (sess w) = true -> api_key_configured (sess w) = true ->
  action_trigger (sess w) = Some a -> truthy a = true ->
  exists w',
    processing_logic env key src w = (Ok tt, w') /\
    processing (sess w') = false /\
    truthy (current_text_to_speak (sess w')) = true /\
    (forall b, current_audio_data (sess w') = Some b -> b <> [] ->
       contains ERROR_MARKER (current_text_to_speak (sess w')) = false /\
       exists h,
         gTTS env h (current_text_to_speak (sess w')) (tts_lang_code (sess w)) = Ok b).
Proof.
  intros Hp Hr Ha Ht.
  destruct (processing_logic_pass env key src w) as [[Hp' _]|[_ (w' & E' & Hp' & _)]];
    [congruence|].
  destruct (action_execution env key src a (started a w)) as [r1 w1] eqn:E.
  pose proof (@turn_run env key src w a Hp Hr Ha Ht r1 w1 E) as Hturn.
  exists w'. split; [exact E'|]. split; [exact Hp'|].
  destruct r1 as [[f g]|e].
  - destruct Hturn as (final & w2 & w3 & w'' & E2 & E3 & E4 & _ & Htext & Haudio & _).
    rewrite E' in E4. injection E4 as <-.
    destruct (generate_audio_shown final w2) as (w3' & E3' & Hshown & Hb & _).
    rewrite E3 in E3'. injection E3' as <-.
    rewrite Htext, Haudio. split; [exact Hshown|].
    intros b Hsome Hne. destruct (Hb b Hsome Hne) as (-> & Hc & Hg).
    split; [exact Hc|]. exists (trace w2).
    pose proof (same_inputs_action_execution a (started a w)) as (_ & _ & _ & S1 & _).
    pose proof (same_inputs_process_gemini_result a f g w1) as (_ & _ & _ & S2 & _).
    rewrite E in S1. rewrite E2 in S2. cbn [snd] in S1, S2.
    rewrite S2, S1 in Hg. exact Hg.
  - destruct Hturn as (w'' & E4 & _ & Htext & Haudio & _).
    rewrite E' in E4. injection E4 as <-.
    rewrite Htext, Haudio. split; [now apply truthy_app|].
    intros b Hb. discriminate Hb.
Qed.

(** The follow-up with its two inputs stops at the prompt. *)
Lemma action_execution_follow_up_raises (w : World) :
  input_present send_follow_up (sess w) = true ->
  exists w1,
    action_execution env key src (py "follow_up") w
    = (Raise (IndexError
                (py "Replacement index 0 out of range for positional args tuple")), w1) /\
    only_log w w1 /\ trace w1 = trace w.
Proof.
  cbn [input_present]. intro H. apply andb_prop in H. destruct H as [Hf Hl].
  unfold action_execution. decide_action. run. rewrite Hf, Hl. cbn [negb]. run.
  rewrite format_follow_up_prompt. eexists. repeat split.
Qed.

(** A turn whose action raises shows the error and calls nothing more. *)
Lemma turn_raised (w : World) (a : pystr) (e : Exc) (w1 : World) :
  processing (sess w) = true -> api_key_configured (sess w) = true ->
  action_trigger (sess w) = Some a -> truthy a = true ->
  action_execution env key src a (started a w) = (Raise e, w1) ->
  only_log (started a w) w1 -> trace w1 = trace w ->
  exists w',
    processing_logic env key src w = (Ok tt, w') /\
    current_text_to_speak (sess w') = py "Error during " ++ a ++ py ": " ++ exc_str e /\
    current_audio_data (sess w') = None /\
    last_explanation (sess w') = last_explanation (sess w) /\
    trace w' = trace w.
Proof.
  intros Hp Hr Ha Ht E Hl Htr.
  destruct (@turn_run env key src w a Hp Hr Ha Ht _ _ E) as (w' & E' & Hlast & Htext & Haudio & Htrace).
  exists w'. split; [exact E'|]. split; [exact Htext|]. split; [exact Haudio|].
  destruct (only_config_fields (only_log_config Hl)) as (_ & _ & _ & Hl1 & _).
  split; [now rewrite Hlast, Hl1 | now rewrite Htrace].
Qed.

End TurnFacts.

(** Logging leaves the inputs of the actions alone. *)
Lemma input_present_started (b : Button) (a : pystr) (w : World) :
  input_present b (sess (started a w)) = input_present b (sess w).
Proof. destruct b; cbn [input_present]; unfold started; run; reflexivity. Qed.

Lemma missing_input_message_started (b : Button) (a : pystr) (w : World) :
  missing_input_message b (sess (started a w)) = missing_input_message b (sess w).
Proof. destruct b; cbn [missing_input_message]; unfold started; run; reflexivity. Qed.

Section TurnTheorems.

Variable env : Env.
Variable key : option pystr.
Variable src : pystr.

(** A session the page can reach with [processing] set is ready for its
    turn: the API is configured, the action is that of a button, and the
    input of the action is there. *)
Lemma reachable_prepared (w : World) :
  Reachable env key src w ->
  processing (sess w) = true ->
  api_key_configured (sess w) = true /\
  exists b, action_trigger (sess w) = Some (action_of b) /\
            input_present b (sess w) = true.
Proof.
  induction 1 as [|w w' Hr IH Hs]; [discriminate|].
  destruct Hs as [file w|t w|t w|tts tr w Htts Htr|b w|w|w]; cbn [on_session sess].
  - unfold upload_file. cbv zeta. unfold is_api_ready.
    destruct (processing (sess w)) eqn:Hp; cbn [orb]; [intros _; now apply IH|].
    destruct (api_key_configured (sess w)); cbn [negb]; [|congruence].
    cbn. congruence.
  - unfold edit_pasted_text. cbv zeta. unfold is_api_ready.
    destruct (processing (sess w)) eqn:Hp; cbn [orb]; [intros _; now apply IH|].
    destruct (api_key_configured (sess w)); cbn [negb]; [|congruence].
    cbn. congruence.
  - unfold edit_feedback. cbv zeta. unfold is_api_ready.
    destruct (processing (sess w)) eqn:Hp; cbn [orb]; [intros _; now apply IH|].
    destruct (truthy (last_explanation (sess w))); cbn [negb orb]; [|congruence].
    destruct (api_key_configured (sess w)); cbn [negb]; [|congruence].
    cbn. congruence.
  - destruct (update_settings_fields (sess w) Htts Htr) as (U1 & U2 & _ & _ & U5 & _).
    rewrite U1, U2, U5. intro Hp. destruct (IH Hp) as (Hr' & b & Ha & Hi).
    split; [exact Hr'|]. exists b. split; [exact Ha|].
    rewrite <- Hi. unfold update_settings.
    destruct (dict_get tts tts_languages), (dict_get tr translation_languages);
      destruct b; reflexivity.
  - rewrite press_cases. unfold is_api_ready.
    destruct (processing (sess w)) eqn:Hp; cbn [negb andb]; [intros _; now apply IH|].
    destruct (input_present b (sess w)) eqn:Hi; cbn [andb]; [|congruence].
    destruct (api_key_configured (sess w)) eqn:Hr'; [|congruence].
    intros _. split; [exact Hr'|]. exists b. split; [reflexivity|].
    rewrite <- Hi. destruct b; reflexivity.
  - destruct (sidebar_world env key src w) as [->|E]; [exact IH|].
    destruct (configure_gemini_run env key src w) as (m & w1 & Ec & Hc & Hcached & _).
    rewrite E, Ec. cbn [snd].
    destruct (only_config_fields Hc) as (C1 & _). rewrite C1. intro Hp.
    destruct (IH Hp) as (Hr' & _).
    destruct (reachable_invariants Hr) as (_ & _ & Hcoh & _).
    destruct (Hcoh Hr') as (Hm & _).
    assert (Hmc : model_cached (sess w) = true).
    { unfold model_cached. destruct (gemini_model (sess w)); [exact Hr' | now elim Hm]. }
    destruct (Hcached Hmc) as (_ & ->). now apply IH.
  - destruct (processing_logic_pass env key src w) as [[Hp E]|[Hp (w' & E & P1 & P2)]];
      rewrite E; cbn [snd]; [exact IH | congruence].
Qed.

(** X6: while a turn is processing, or while the API is not configured,
    the uploader, the two text boxes and the five buttons are disabled:
    using them leaves the session as it is. *)
Theorem widgets_disabled (s : Session) :
  processing s = true \/ api_key_configured s = false ->
  (forall file, upload_file file s = s) /\
  (forall text, edit_pasted_text text s = s) /\
  (forall text, edit_feedback text s = s) /\
  (forall b, press b s = s).
Proof.
  intro H.
  assert (Hd : processing s || negb (is_api_ready s) = true).
  { unfold is_api_ready. destruct H as [-> | ->]; [reflexivity | apply orb_true_r]. }
  split; [|split; [|split]].
  - intro file. unfold upload_file. cbv zeta. now rewrite Hd.
  - intro text. unfold edit_pasted_text. cbv zeta. now rewrite Hd.
  - intro text. unfold edit_feedback. cbv zeta.
    unfold is_api_ready in *.
    destruct (processing s), (truthy (last_explanation s)), (api_key_configured s);
      try reflexivity; discriminate Hd.
  - intro b. rewrite press_cases. unfold is_api_ready in *.
    destruct (processing s), (input_present b s), (api_key_configured s);
      try reflexivity; discriminate Hd.
Qed.

(** X7: a press that is accepted clears the shown text and audio, sets
    [processing] and the action of its button, and the action of every
    button but "Send Response" then finds its input and ends normally. *)
Theorem accepted_press_runs_its_action (b : Button) (w : World) :
  press b (sess w) <> sess w ->
  let w0 := on_session (press b) w in
  processing (sess w0) = true /\
  action_trigger (sess w0) = Some (action_of b) /\
  current_text_to_speak (sess w0) = [] /\
  current_audio_data (sess w0) = None /\
  (b <> send_follow_up ->
   exists f g w1,
     action_execution env key src (action_of b) (started (action_of b) w0)
     = (Ok (f, g), w1)).
Proof.
  intros Hne w0.
  assert (Hc : negb (processing (sess w)) && input_present b (sess w)
               && is_api_ready (sess w) = true).
  { destruct (negb (processing (sess w)) && input_present b (sess w)
              && is_api_ready (sess w)) eqn:Hc; [reflexivity|].
    elim Hne. now rewrite press_cases, Hc. }
  assert (Hpress : press b (sess w) = start_action (action_of b) (sess w))
    by now rewrite press_cases, Hc.
  subst w0. cbn [on_session sess]. rewrite Hpress.
  repeat (split; [reflexivity|]). intro Hb.
  apply action_execution_with_input; [exact Hb|].
  unfold started, on_session. run. rewrite Hpress.
  apply andb_prop in Hc. destruct Hc as [Hc _]. apply andb_prop in Hc.
  destruct Hc as [_ Hi]. rewrite <- Hi. destruct b; reflexivity.
Qed.

(** X8: a turn whose action does not find its input shows which input is
    missing, keeps the last explanation and calls no service. *)
Theorem missing_input_is_reported (b : Button) (w : World) :
  processing (sess w) = true -> api_key_configured (sess w) = true ->
  action_trigger (sess w) = Some (action_of b) ->
  input_present b (sess w) = false ->
  exists w',
    processing_logic env key src w = (Ok tt, w') /\
    current_text_to_speak (sess w')
    = py "Error during " ++ action_of b ++ py ": " ++ missing_input_message b (sess w) /\
    current_audio_data (sess w') = None /\
    last_explanation (sess w') = last_explanation (sess w) /\
    trace w' = trace w.
Proof.
  intros Hp Hr Ha Hi.
  assert (Hi' : input_present b (sess (started (action_of b) w)) = false)
    by now rewrite input_present_started.
  destruct (@action_execution_missing_input env key src b _ Hi') as (w1 & E & Hl & Ht).
  rewrite missing_input_message_started in E.
  exact (@turn_raised env key src w _ _ w1 Hp Hr Ha (truthy_action_of b) E Hl Ht).
Qed.

(** X9: a pass over the processing logic never touches what the user put
    in or chose: the image, the pasted text, the feedback and the three
    language settings. *)
Theorem processing_logic_keeps_inputs (w : World) :
  let w' := snd (processing_logic env key src w) in
  last_uploaded_image (sess w') = last_uploaded_image (sess w) /\
  pasted_text_area (sess w') = pasted_text_area (sess w) /\
  feedback_input (sess w') = feedback_input (sess w) /\
  tts_lang_code (sess w') = tts_lang_code (sess w) /\
  translate_lang_code (sess w') = translate_lang_code (sess w) /\
  translate_lang_name (sess w') = translate_lang_name (sess w).
Proof. exact (@same_inputs_processing_logic env key src w). Qed.

(** X10: with a model in the cache, a pass over the processing logic
    keeps the cache and never calls [genai.configure] or
    [genai.GenerativeModel] again. *)
Theorem cached_turn_never_configures (w : World) :
  model_cached (sess w) = true ->
  let w' := snd (processing_logic env key src w) in
  gemini_model (sess w') = gemini_model (sess w) /\
  api_key_configured (sess w') = true /\
  exists ext, trace w' = trace w ++ ext /\ Forall turn_call ext.
Proof. exact (@cached_calls_processing_logic env key src w). Qed.

(** X11: a turn that finds the API not configured is dropped: nothing is
    called, the shown text and audio and the last explanation stay, and
    [processing] and the action are cleared. *)
Theorem blocked_turn_changes_nothing (w : World) :
  processing (sess w) = true -> api_key_configured (sess w) = false ->
  exists w',
    processing_logic env key src w = (Ok tt, w') /\
    trace w' = trace w /\
    current_text_to_speak (sess w') = current_text_to_speak (sess w) /\
    current_audio_data (sess w') = current_audio_data (sess w) /\
    last_explanation (sess w') = last_explanation (sess w) /\
    processing (sess w') = false /\ action_trigger (sess w') = None.
Proof.
  intros Hp Hr.
  destruct (@processing_logic_not_ready env key src w Hr)
    as (w' & E & Ht & _ & H1 & H2 & H3 & H4).
  destruct (H4 Hp) as (H5 & H6). exists w'. auto 10.
Qed.

(** X12: a turn for an action that is none of the five shows the
    placeholder for "no content", makes no audio, calls nothing and keeps
    the last explanation. *)
Theorem unknown_action_shows_no_content (w : World) (a : pystr) :
  processing (sess w) = true -> api_key_configured (sess w) = true ->
  action_trigger (sess w) = Some a -> truthy a = true ->
  (forall b, a <> action_of b) ->
  exists w',
    processing_logic env key src w = (Ok tt, w') /\
    current_text_to_speak (sess w') = NO_CONTENT /\
    current_audio_data (sess w') = None /\
    last_explanation (sess w') = last_explanation (sess w) /\
    trace w' = trace w.
Proof.
  intros Hp Hr Ha Ht Hb.
  pose proof (str_eqb_neq (Hb explain_img)) as N1.
  pose proof (str_eqb_neq (Hb read_img)) as N2.
  pose proof (str_eqb_neq (Hb explain_txt)) as N3.
  pose proof (str_eqb_neq (Hb read_txt)) as N4.
  pose proof (str_eqb_neq (Hb send_follow_up)) as N5.
  cbn [action_of] in N1, N2, N3, N4, N5.
  assert (E : action_execution env key src a (started a w)
              = (Ok ([], Some []), started a w)).
  { unfold action_execution. now rewrite N1, N2, N3, N4, N5. }
  destruct (@turn_run env key src w a Hp Hr Ha Ht _ _ E)
    as (final & w2 & w3 & w' & E2 & E3 & E4 & Hlast & Htext & Haudio & Htrace).
  assert (E2' : process_gemini_result env a [] (Some []) (started a w)
                = (Ok [], started a w)).
  { unfold process_gemini_result.
    change (contains ERROR_MARKER []) with false. cbn [negb].
    now rewrite N1, N2, N3, N5. }
  cbn [fst snd] in E2. rewrite E2' in E2. injection E2 as <- <-.
  destruct (generate_audio_run env [] (started a w)) as (w3' & E3' & _ & H0 & _).
  rewrite E3 in E3'. injection E3' as <-.
  destruct (H0 eq_refl) as (T1 & T2 & T3).
  exists w'. split; [exact E4|]. rewrite Htext, Haudio, Hlast, Htrace, T3.
  repeat split; assumption.
Qed.

(** X13: a follow-up turn that has both the feedback and an earlier
    explanation never reaches the model: formatting [FOLLOW_UP_PROMPT]
    raises, the turn shows that error, and the last explanation stays. *)
Theorem follow_up_turn_reports_format_error (w : World) :
  processing (sess w) = true -> api_key_configured (sess w) = true ->
  action_trigger (sess w) = Some (py "follow_up") ->
  truthy (feedback_input (sess w)) = true ->
  truthy (last_explanation (sess w)) = true ->
  exists w',
    processing_logic env key src w = (Ok tt, w') /\
    current_text_to_speak (sess w')
    = py "Error during follow_up: Replacement index 0 out of range for positional args tuple" /\
    current_audio_data (sess w') = None /\
    last_explanation (sess w') = last_explanation (sess w) /\
    trace w' = trace w.
Proof.
  intros Hp Hr Ha Hf Hl.
  assert (Hi : input_present send_follow_up (sess (started (py "follow_up") w)) = true).
  { rewrite input_present_started. cbn [input_present]. now rewrite Hf, Hl. }
  destruct (@action_execution_follow_up_raises env key src _ Hi) as (w1 & E & Hlog & Ht).
  destruct (@turn_raised env key src w _ _ w1 Hp Hr Ha eq_refl E Hlog Ht)
    as (w' & E' & Htext & Hrest).
  exists w'. split; [exact E'|]. split; [|exact Hrest].
  rewrite Htext. vm_compute. reflexivity.
Qed.

(** X14: a "read_text" turn never calls the model: whatever the pasted
    text and the services, the calls it adds are translation and speech
    calls. *)
Theorem read_text_turn_never_calls_model (w : World) :
  processing (sess w) = true -> api_key_configured (sess w) = true ->
  action_trigger (sess w) = Some (py "read_text") ->
  exists ext,
    trace (snd (processing_logic env key src w)) = trace w ++ ext /\
    Forall output_call ext.
Proof.
  intros Hp Hr Ha.
  rewrite (@processing_logic_running env key src w (py "read_text") Hp Hr Ha eq_refl).
  assert (K : Keeps (calls_added output_call)
                (try_finally
                   (try_except (try_body env key src (py "read_text"))
                               (except_clause (py "read_text")))
                   (finally_clause (py "read_text")))).
  { apply keeps_read_text_try with (allowed := output_call).
    - apply calls_added_refl.
    - apply calls_added_trans.
    - apply calls_added_log.
    - intros f _ w0. apply calls_added_writes.
    - intros c Hc w0. now apply calls_added_external.
    - auto. }
  exact (K (started (py "read_text") w)).
Qed.

(** X15: at the end of a turn that ran an action, an audio is shown only
    with the text it was made from: the audio is what the speech service
    answered for exactly the shown text in the chosen speech language, and
    that text is free of the error marker. *)
Theorem shown_audio_is_speech_of_shown_text (w : World) (a : pystr) (b : bytes) :
  processing (sess w) = true -> api_key_configured (sess w) = true ->
  action_trigger (sess w) = Some a -> truthy a = true ->
  let w' := snd (processing_logic env key src w) in
  current_audio_data (sess w') = Some b -> b <> [] ->
  contains ERROR_MARKER (current_text_to_speak (sess w')) = false /\
  exists h, gTTS env h (current_text_to_speak (sess w')) (tts_lang_code (sess w)) = Ok b.
Proof.
  intros Hp Hr Ha Ht w'. subst w'.
  destruct (@turn_shown env key src w a Hp Hr Ha Ht) as (w' & E & _ & _ & H).
  rewrite E. cbn [snd]. apply H.
Qed.

(** X16: a turn that ran an action always leaves a text on the page, and
    the audio area no longer says that audio is being generated. *)
Theorem turn_always_shows_text (w : World) (a : pystr) :
  processing (sess w) = true -> api_key_configured (sess w) = true ->
  action_trigger (sess w) = Some a -> truthy a = true ->
  let w' := snd (processing_logic env key src w) in
  current_text_to_speak (sess w') <> [] /\
  audio_area (sess w') <> GeneratingAudio.
Proof.
  intros Hp Hr Ha Ht w'. subst w'.
  destruct (@turn_shown env key src w a Hp Hr Ha Ht) as (w' & E & Hproc & Htext & _).
  rewrite E. cbn [snd]. split.
  - intro H0. rewrite H0 in Htext. discriminate Htext.
  - unfold audio_area. rewrite Hproc.
    destruct (current_audio_data (sess w')) as [[|c d]|]; discriminate.
Qed.

(** X17: whenever the page reaches a session with [processing] set, the
    API is configured, the pending action is that of one of the five
    buttons, and the input of that action is present: the checks for a
    blocked turn, a lost action and a missing input never fire. *)
Theorem reachable_turn_is_prepared (w : World) :
  Reachable env key src w ->
  processing (sess w) = true ->
  api_key_configured (sess w) = true /\
  exists b, action_trigger (sess w) = Some (action_of b) /\
            input_present b (sess w) = true.
Proof. apply reachable_prepared. Qed.

End TurnTheorems.

Section TurnSamples.

Import Fixtures.

Lemma journey_pressed_reachable : Reachable Journey.env key source Journey.w3.
Proof.
  unfold Journey.w3. eapply reachable_step; [|apply step_press].
  unfold Journey.w2. eapply reachable_step; [|apply step_edit_pasted_text].
  unfold Journey.w1. eapply reachable_step; [|apply step_sidebar].
  apply reachable_start.
Qed.

Lemma widgets_disabled_witness :
  let s := sess (running (py "read_text") (py "Read this") None) in
  processing s = true /\ press read_txt s = s /\ edit_pasted_text (py "other") s = s.
Proof.
  intro s. split; [reflexivity|].
  pose proof (widgets_disabled s (or_introl eq_refl)) as (_ & Hedit & _ & Hpress).
  split; [apply Hpress | apply Hedit].
Defined.

Lemma accepted_press_runs_its_action_witness :
  press read_txt (sess Journey.w2) <> sess Journey.w2 /\
  exists f g w1,
    action_execution Journey.env key source (py "read_text")
      (started (py "read_text") (on_session (press read_txt) Journey.w2))
    = (Ok (f, g), w1).
Proof.
  assert (Hne : press read_txt (sess Journey.w2) <> sess Journey.w2).
  { intro H. apply (f_equal processing) in H. vm_compute in H. discriminate H. }
  split; [exact Hne|].
  apply (accepted_press_runs_its_action Journey.env key source read_txt Journey.w2 Hne).
  intro H. discriminate H.
Defined.

Lemma missing_input_is_reported_witness :
  exists w',
    processing_logic (answering []) key source (running (py "read_text") [] None)
    = (Ok tt, w') /\
    current_text_to_speak (sess w')
    = py "Error during read_text: No pasted text found for reading." /\
    trace w' = [].
Proof.
  destruct (missing_input_is_reported (answering []) key source read_txt
              (running (py "read_text") [] None) eq_refl eq_refl eq_refl eq_refl)
    as (w' & E & Htext & _ & _ & Htrace).
  exists w'. split; [exact E|]. split; [|exact Htrace].
  rewrite Htext. vm_compute. reflexivity.
Defined.

Lemma cached_turn_never_configures_witness :
  let w := running (py "explain_text") (py "What is 2 * 3?") None in
  let w' := snd (processing_logic (answering (py "2 * 3 = 6")) key source w) in
  model_cached (sess w) = true /\
  gemini_model (sess w') = Some flash /\ api_key_configured (sess w') = true.
Proof.
  intros w w'. split; [reflexivity|].
  destruct (cached_turn_never_configures (answering (py "2 * 3 = 6")) key source w eq_refl)
    as (Hm & Hr & _).
  split; [exact Hm | exact Hr].
Defined.

Lemma blocked_turn_changes_nothing_witness :
  let w := on_session (set_api_key_configured false)
             (running (py "read_text") (py "Read this") None) in
  exists w',
    processing_logic (answering []) key source w = (Ok tt, w') /\
    trace w' = [] /\ processing (sess w') = false.
Proof.
  intro w.
  destruct (blocked_turn_changes_nothing (answering []) key source w eq_refl eq_refl)
    as (w' & E & Ht & _ & _ & _ & Hp & _).
  exists w'. split; [exact E|]. split; [exact Ht | exact Hp].
Defined.

Lemma unknown_action_shows_no_content_witness :
  exists w',
    processing_logic (answering []) key source
      (running (py "summarise") (py "Read this") None) = (Ok tt, w') /\
    current_text_to_speak (sess w') = NO_CONTENT /\ trace w' = [].
Proof.
  assert (Hb : forall b, py "summarise" <> action_of b).
  { intros b H. destruct b; vm_compute in H; discriminate H. }
  destruct (unknown_action_shows_no_content (answering []) key source
              (running (py "summarise") (py "Read this") None) (a := py "summarise")
              eq_refl eq_refl eq_refl eq_refl Hb)
    as (w' & E & Htext & _ & _ & Htrace).
  exists w'. split; [exact E|]. split; [exact Htext | exact Htrace].
Defined.

Lemma follow_up_turn_reports_format_error_witness :
  exists w',
    processing_logic (answering (py "A clearer answer")) key source
      (running (py "follow_up") [] None) = (Ok tt, w') /\
    current_text_to_speak (sess w')
    = py "Error during follow_up: Replacement index 0 out of range for positional args tuple" /\
    trace w' = [].
Proof.
  destruct (follow_up_turn_reports_format_error (answering (py "A clearer answer"))
              key source (running (py "follow_up") [] None)
              eq_refl eq_refl eq_refl eq_refl eq_refl)
    as (w' & E & Htext & _ & _ & Htrace).
  exists w'. split; [exact E|]. split; [exact Htext | exact Htrace].
Defined.

Lemma read_text_turn_never_calls_model_witness :
  exists ext,
    trace (snd (processing_logic (answering []) key source
                  (running (py "read_text") (py "Read this") (Some (py "es")))))
    = [] ++ ext /\
    Forall output_call ext.
Proof.
  exact (read_text_turn_never_calls_model (answering []) key source
           (running (py "read_text") (py "Read this") (Some (py "es")))
           eq_refl eq_refl eq_refl).
Defined.

Lemma shown_audio_is_speech_of_shown_text_witness :
  let w := running (py "read_text") (py "Read this") None in
  let w' := snd (processing_logic (answering []) key source w) in
  current_audio_data (sess w') = Some [73; 68; 51]%N /\
  exists h,
    gTTS (answering []) h (current_text_to_speak (sess w')) (py "en")
    = Ok [73; 68; 51]%N.
Proof.
  intros w w'.
  assert (Ha : current_audio_data (sess w') = Some [73; 68; 51]%N)
    by (vm_compute; reflexivity).
  assert (Hne : [73; 68; 51]%N <> @nil N) by (intro H; discriminate H).
  split; [exact Ha|].
  exact (proj2 (shown_audio_is_speech_of_shown_text (answering []) key source w
                  (a := py "read_text") eq_refl eq_refl eq_refl eq_refl Ha Hne)).
Defined.

Lemma turn_always_shows_text_witness :
  let w := running (py "explain_image") [] None in
  let w' := snd (processing_logic silent key source w) in
  current_text_to_speak (sess w') <> [] /\ audio_area (sess w') <> GeneratingAudio.
Proof.
  intros w w'.
  exact (turn_always_shows_text silent key source w (a := py "explain_image")
           eq_refl eq_refl eq_refl eq_refl).
Defined.

Lemma reachable_turn_is_prepared_witness :
  processing (sess Journey.w3) = true /\
  api_key_configured (sess Journey.w3) = true /\
  exists b, action_trigger (sess Journey.w3) = Some (action_of b) /\
            input_present b (sess Journey.w3) = true.
Proof.
  assert (Hp : processing (sess Journey.w3) = true) by (vm_compute; reflexivity).
  split; [exact Hp|].
  exact (reachable_turn_is_prepared journey_pressed_reachable Hp).
Defined.

End TurnSamples.

(** ** The adapters *)




Section AdapterFacts.

Variable env : Env.

(** The loop over the chunks when the client answers every chunk. *)
Lemma translate_chunks_answers (code text : pystr) (f : pystr -> pystr) :
  (forall h chunk, translator_translate env h code chunk = Ok (f chunk)) ->
  forall idxs acc w,
    translate_chunks env code text idxs acc w
    = (Ok (acc ++ List.concat (map (fun i => f (slice text i (i + max_chunk_size)) ++ py " ")
                              idxs)),
       {| sess := sess w;
          trace := trace w
                   ++ map (fun i => call_translate code (slice text i (i + max_chunk_size)))
                          idxs |}).
Proof.
  intro Hf. induction idxs as [|i rest IH]; intros acc w; cbn [translate_chunks].
  - run. cbn [map List.concat]. rewrite !app_nil_r. now destruct w.
  - run. rewrite Hf. rewrite IH. run. cbn [map List.concat].
    rewrite <- !app_assoc. reflexivity.
Qed.

End AdapterFacts.

Section AdapterTheorems.

Variable env : Env.
Variable key : option pystr.
Variable src : pystr.


(** X19: when the translation client is built and answers [f chunk] for
    every chunk, the translation of a non-empty text to a language other
    than English is the answers in order, each followed by a space, with
    the white space at both ends stripped; the client is built once and
    called once per chunk, in order. *)
Theorem translate_if_needed_success (text code name : pystr) (f : pystr -> pystr)
    (w : World) :
  truthy code = true -> code <> py "en" -> truthy text = true ->
  GoogleTranslator env (trace w) code = Ok tt ->
  (forall h chunk, translator_translate env h code chunk = Ok (f chunk)) ->
  let r := translate_if_needed env text (Some code) name w in
  fst r = Ok (strip (List.concat (map (fun c => f c ++ py " ") (chunks_of text)))) /\
  trace (snd r)
  = trace w ++ call_GoogleTranslator (py "auto") code
              :: map (call_translate code) (chunks_of text).
Proof.
  intros Hc Hen Ht Hg Hf r. subst r. unfold translate_if_needed.
  rewrite Hc, Ht, (str_eqb_neq Hen). cbn [negb orb]. run. rewrite Hg.
  rewrite (@translate_chunks_answers env code text f Hf). run.
  unfold chunks_of. rewrite !map_map. cbn [app]. split; [reflexivity|].
  rewrite <- app_assoc. reflexivity.
Qed.

End AdapterTheorems.

Lemma translate_if_needed_success_witness :
  let r := translate_if_needed (Fixtures.answering []) (py "good morning")
             (Some (py "es")) (py "Spanish") Fixtures.fresh in
  fst r = Ok (py "es:good morning") /\
  trace (snd r)
  = [call_GoogleTranslator (py "auto") (py "es");
     call_translate (py "es") (py "good morning")].
Proof.
  assert (Hen : py "es" <> py "en") by (intro H; vm_compute in H; discriminate H).
  pose proof (@translate_if_needed_success (Fixtures.answering []) (py "good morning")
                (py "es") (py "Spanish") (fun c => py "es" ++ py ":" ++ c)
                Fixtures.fresh eq_refl Hen eq_refl eq_refl (fun _ _ => eq_refl))
    as [H1 H2].
  split; [rewrite H1 | rewrite H2]; vm_compute; reflexivity.
Defined.

(** ** The cleaner, the key and the settings *)

Lemma lstrip_word_first (s : pystr) :
  (forall c t, s = c :: t -> isspace c = false) -> lstrip s = s.
Proof.
  destruct s as [|c t]; [reflexivity|]. intro H. cbn [lstrip].
  now rewrite (H c t eq_refl).
Qed.

Lemma join_words_first (ws : list pystr) :
  Forall word_ok ws ->
  forall c t, join [32%N] ws = c :: t -> isspace c = false.
Proof.
  intros Hws c t E. destruct ws as [|w ws]; [discriminate E|].
  apply Forall_inv in Hws. destruct Hws as [Hne Hw].
  destruct w as [|c' w']; [now elim Hne|].
  apply Forall_inv in Hw.
  destruct ws; cbn [join app] in E; injection E as <- _; exact Hw.
Qed.

Lemma join_words_last (ws : list pystr) :
  Forall word_ok ws -> ws <> [] ->
  exists t c, join [32%N] ws = t ++ [c] /\ isspace c = false.
Proof.
  induction ws as [|w ws IH]; intros Hws Hne; [now elim Hne|].
  pose proof (Forall_inv Hws) as [Hw Hsp].
  destruct ws as [|w2 ws].
  - cbn [join]. destruct (exists_last Hw) as (t & c & ->).
    exists t, c. split; [reflexivity|].
    rewrite Forall_forall in Hsp. apply Hsp. apply in_or_app. right. now left.
  - destruct (IH (Forall_inv_tail Hws)) as (t & c & E & Hc); [discriminate|].
    exists (w ++ [32%N] ++ t), c. split; [|exact Hc].
    change (join [32%N] (w :: w2 :: ws)) with (w ++ [32%N] ++ join [32%N] (w2 :: ws)).
    rewrite E. now rewrite <- !app_assoc.
Qed.

Lemma strip_joined_words (ws : list pystr) :
  Forall word_ok ws -> strip (join [32%N] ws) = join [32%N] ws.
Proof.
  intro Hws. unfold strip.
  rewrite (@lstrip_word_first (join [32%N] ws) (@join_words_first ws Hws)).
  destruct ws as [|w ws]; [reflexivity|].
  destruct (join_words_last Hws) as (t & c & E & Hc); [discriminate|].
  rewrite E, rev_app_distr. cbn [rev app lstrip]. rewrite Hc.
  change (c :: rev t) with (rev [c] ++ rev t). rewrite <- rev_app_distr.
  apply rev_involutive.
Qed.

Lemma update_settings_tts (tts tr : pystr) (s : Session) :
  tts_lang_code (update_settings tts tr s)
  = match dict_get tts tts_languages with
    | Some code => code
    | None => tts_lang_code s
    end.
Proof.
  unfold update_settings.
  now destruct (dict_get tts tts_languages), (dict_get tr translation_languages).
Qed.

Lemma update_settings_name (tts tr : pystr) (s : Session) :
  translate_lang_name (update_settings tts tr s)
  = match dict_get tr translation_languages with
    | Some _ => tr
    | None => translate_lang_name s
    end.
Proof.
  unfold update_settings.
  now destruct (dict_get tts tts_languages), (dict_get tr translation_languages).
Qed.

Section MoreTheorems.

Variable env : Env.
Variable key : option pystr.
Variable src : pystr.

(** X20: a cleaned text holds none of the removed symbols, its only white
    space is the single space, it has no two spaces in a row and no white
    space at either end. *)
Theorem cleaned_text_shape (text : pystr) :
  let out := clean_text_for_speech text in
  (forall c, In c removed_symbols -> ~ In c out) /\
  (forall c, In c out -> isspace c = true -> c = 32%N) /\
  contains (py "  ") out = false /\
  strip out = out.
Proof.
  intro out. subst out.
  destruct (clean_is_joined_words text) as (ws & Hws & E).
  split; [intros c Hc; now apply clean_no_symbols|].
  rewrite E. split; [|split].
  - intros c Hin Hsp. destruct (in_join c ws Hin) as [->|(w & Hw & Hcw)]; [reflexivity|].
    rewrite Forall_forall in Hws. destruct (Hws w Hw) as (_ & Hok).
    rewrite Forall_forall in Hok. rewrite (Hok c Hcw) in Hsp. discriminate Hsp.
  - now apply join_no_double_space.
  - now apply strip_joined_words.
Qed.

(** X21: with an image, [get_gemini_response] never looks at the text
    input: the result and every effect are those of the call without a
    text. *)
Theorem image_takes_precedence (prompt : pystr) (image_bytes : option bytes)
    (text_input : option pystr) (w : World) :
  truthy_bytes image_bytes = true ->
  get_gemini_response env key src prompt image_bytes text_input w
  = get_gemini_response env key src prompt image_bytes None w.
Proof.
  intro H. unfold get_gemini_response.
  cbv beta iota zeta delta [bind try_except].
  destruct (configure_gemini env key src w) as [[[m|]|e] w1]; try reflexivity.
  now rewrite H.
Qed.

(** X22: with a model in the cache, [get_gemini_response] makes exactly
    one call, whatever the model answers: the request holds the prompt
    and then the image, or else the text, or nothing more, with a timeout
    of 120 seconds.  An image that cannot be opened makes it give up
    before any call. *)
Theorem get_gemini_response_request (prompt : pystr) (image_bytes : option bytes)
    (text_input : option pystr) (m : Model) (w : World) :
  gemini_model (sess w) = Some m -> api_key_configured (sess w) = true ->
  let r := get_gemini_response env key src prompt image_bytes text_input w in
  match image_bytes with
  | Some (c :: b) =>
      match Image_open env (c :: b) with
      | Ok _ =>
          trace (snd r)
          = trace w
            ++ [call_generate_content m [PartText prompt; PartImage (c :: b)] 120]
      | Raise _ =>
          fst r = Ok (py "Error: Could not read image data.") /\ trace (snd r) = trace w
      end
  | _ =>
      match text_input with
      | Some (c :: t) =>
          trace (snd r)
          = trace w
            ++ [call_generate_content m [PartText prompt; PartText (c :: t)] 120]
      | _ =>
          trace (snd r) = trace w ++ [call_generate_content m [PartText prompt] 120]
      end
  end.
Proof.
  intros Hm Hr r. subst r.
  assert (Hc : configure_gemini env key src w = (Ok (Some m), w)).
  { unfold configure_gemini. cbv beta iota zeta delta [bind get_session].
    now rewrite Hm, Hr. }
  unfold get_gemini_response. cbv beta iota zeta delta [bind]. rewrite Hc.
  destruct image_bytes as [[|c b]|]; cbn [truthy_bytes].
  2: { run. destruct (Image_open env (c :: b)) as [[]|e]; run.
       - destruct (model_generate_content env (trace w) m _) as [resp|e]; run;
           [|reflexivity].
         destruct (response_parts resp); run.
         + destruct (response_prompt_feedback resp) as [fb|e]; run; [|reflexivity].
           destruct (block_reason fb); run; [|reflexivity].
           destruct (safety_ratings fb); run; reflexivity.
         + destruct (response_text resp); run; reflexivity.
       - split; reflexivity. }
  all: destruct text_input as [[|c t]|]; cbn [truthy_opt]; run;
    destruct (model_generate_content env (trace w) m _) as [resp|e]; run;
    try reflexivity;
    (destruct (response_parts resp); run;
     [ destruct (response_prompt_feedback resp) as [fb|e]; run; [|reflexivity];
       destruct (block_reason fb); run; [|reflexivity];
       destruct (safety_ratings fb); run; reflexivity
     | destruct (response_text resp); run; reflexivity ]).
Qed.

End MoreTheorems.

Section KeyTheorems.

Variable env : Env.
Variable key : option pystr.
Variable src : pystr.

(** X23: the key of the secrets wins over that of the environment, which
    is used when the secrets hold none or cannot be read; the placeholder
    of the script is never taken as the key, and the source is "Not Set"
    exactly when no key was found. *)
Theorem resolve_api_key_priority (secrets : Res (option pystr)) (environ : option pystr) :
  fst (resolve_api_key secrets environ)
  = match secrets with
    | Ok (Some k) => Some k
    | _ => environ
    end /\
  (snd (resolve_api_key secrets environ) = py "Not Set"
   <-> fst (resolve_api_key secrets environ) = None).
Proof.
  destruct secrets as [[k|]|e], environ as [k'|]; (split; [reflexivity|]);
    (split; intro H; [vm_compute in H; discriminate H | discriminate H])
    || (split; reflexivity).
Qed.

(** X24: the sidebar never fails; it reports "not found" exactly for a
    missing or placeholder key, "verified" exactly when the session then
    has the API configured, and it calls nothing when the key is missing
    or the API was configured before. *)
Theorem sidebar_status_agrees (w : World) :
  exists status w',
    sidebar_api_key_status env key src w = (Ok status, w') /\
    (status = KeyNotFound <-> api_key_missing key = true) /\
    (status = KeyVerified
     <-> api_key_missing key = false /\ api_key_configured (sess w') = true) /\
    (api_key_missing key = true \/ api_key_configured (sess w) = true -> w' = w).
Proof.
  unfold sidebar_api_key_status. destruct (api_key_missing key) eqn:Ek.
  - exists KeyNotFound, w. split; [reflexivity|]. split; [tauto|].
    split; [|reflexivity]. split; [discriminate | intros [H _]; discriminate H].
  - run. destruct (api_key_configured (sess w)) eqn:Er; cbn [negb].
    + exists KeyVerified, w. run. split; [reflexivity|].
      split; [split; discriminate|]. split; [tauto | reflexivity].
    + run. destruct (configure_gemini_run env key src w) as (m & w1 & E & _).
      rewrite E. run. destruct (api_key_configured (sess w1)) eqn:Er1.
      * exists KeyVerified, w1. split; [reflexivity|].
        split; [split; discriminate|]. split; [tauto|].
        intros [H|H]; discriminate H.
      * exists KeyFailedVerification, w1. split; [reflexivity|].
        split; [split; discriminate|].
        split; [split; [discriminate | intros [_ H]; congruence]|].
        intros [H|H]; discriminate H.
Qed.

(** X25: what was chosen in the two select boxes is what they show first
    on the next pass: the indices computed from the stored settings point
    back at the chosen names. *)
Theorem settings_selection_is_kept (tts translate : pystr) (s : Session) :
  In tts (map fst tts_languages) ->
  In translate (map fst translation_languages) ->
  let s' := update_settings tts translate s in
  nth (tts_index s') (map fst tts_languages) [] = tts /\
  nth (trans_index s') (map fst translation_languages) [] = translate.
Proof.
  intros Htts Htr s'. subst s'. unfold tts_index, trans_index.
  rewrite update_settings_tts, update_settings_name. split.
  - vm_compute in Htts.
    repeat (destruct Htts as [<-|Htts]; [vm_compute; reflexivity|]).
    contradiction.
  - vm_compute in Htr.
    repeat (destruct Htr as [<-|Htr]; [vm_compute; reflexivity|]).
    contradiction.
Qed.

(** X26: with a missing or placeholder key [configure_gemini] complains
    once: a second call gives the same answer and changes nothing, not
    even the log. *)
Theorem missing_key_is_logged_once (w : World) :
  api_key_missing key = true ->
  let w1 := snd (configure_gemini env key src w) in
  configure_gemini env key src w1 = (fst (configure_gemini env key src w), w1).
Proof.
  intros Hk w1. subst w1. unfold configure_gemini. run. rewrite Hk.
  destruct (gemini_model (sess w)) as [m|] eqn:Em;
    [destruct (api_key_configured (sess w)) eqn:Er|]; run.
  - now rewrite Em, Er.
  - destruct (_api_key_error_logged (sess w)) eqn:El; cbn [negb]; run;
      rewrite ?Em, ?El; cbn [negb]; run; reflexivity.
  - destruct (_api_key_error_logged (sess w)) eqn:El; cbn [negb]; run;
      rewrite ?Em, ?El; cbn [negb]; run; reflexivity.
Qed.

End KeyTheorems.

Section MoreSamples.

Import Fixtures.

Lemma image_takes_precedence_witness :
  get_gemini_response (answering (py "A chart")) key source EXPLAIN_PROMPT_BASE
    (Some [137; 80; 78; 71]%N) (Some (py "ignored")) fresh
  = get_gemini_response (answering (py "A chart")) key source EXPLAIN_PROMPT_BASE
      (Some [137; 80; 78; 71]%N) None fresh.
Proof.
  exact (@image_takes_precedence (answering (py "A chart")) key source
           EXPLAIN_PROMPT_BASE (Some [137; 80; 78; 71]%N) (Some (py "ignored"))
           fresh eq_refl).
Defined.

Lemma get_gemini_response_request_witness :
  let w := running (py "explain_text") (py "What is 2 * 3?") None in
  trace (snd (get_gemini_response model_unreachable key source EXPLAIN_PROMPT_BASE
                None (Some (py "What is 2 * 3?")) w))
  = [call_generate_content flash
       [PartText EXPLAIN_PROMPT_BASE; PartText (py "What is 2 * 3?")] 120].
Proof.
  intro w.
  exact (@get_gemini_response_request model_unreachable key source EXPLAIN_PROMPT_BASE
           None (Some (py "What is 2 * 3?")) flash w eq_refl eq_refl).
Defined.

Lemma settings_selection_is_kept_witness :
  let s' := update_settings (py "Hindi") (py "Telugu") default_values in
  nth (tts_index s') (map fst tts_languages) [] = py "Hindi" /\
  nth (trans_index s') (map fst translation_languages) [] = py "Telugu".
Proof.
  assert (H1 : In (py "Hindi") (map fst tts_languages))
    by (vm_compute; do 8 right; left; reflexivity).
  assert (H2 : In (py "Telugu") (map fst translation_languages))
    by (vm_compute; right; left; reflexivity).
  exact (@settings_selection_is_kept (py "Hindi") (py "Telugu") default_values H1 H2).
Defined.

Lemma missing_key_is_logged_once_witness :
  let w1 := snd (configure_gemini silent None (py "Not Set") fresh) in
  api_key_missing None = true /\
  configure_gemini silent None (py "Not Set") w1 = (Ok None, w1).
Proof.
  intro w1. split; [reflexivity|].
  exact (@missing_key_is_logged_once silent None (py "Not Set") fresh eq_refl).
Defined.

End MoreSamples.

Section LastSamples.

Import Fixtures.


Lemma cleaned_text_shape_witness :
  In 42%N removed_symbols /\
  ~ In 42%N (clean_text_for_speech (py "**Area** = 2 * 3")).
Proof.
  assert (H : In 42%N removed_symbols) by (right; left; reflexivity).
  split; [exact H|].
  exact (proj1 (cleaned_text_shape (py "**Area** = 2 * 3")) 42%N H).
Defined.

Lemma resolve_api_key_priority_witness :
  fst (resolve_api_key unavailable (Some (py "a-key"))) = Some (py "a-key").
Proof. exact (proj1 (resolve_api_key_priority unavailable (Some (py "a-key")))). Defined.

Lemma sidebar_status_agrees_witness :
  let w := running (py "read_text") (py "Read this") None in
  snd (sidebar_api_key_status silent key source w) = w.
Proof.
  intro w.
  destruct (sidebar_status_agrees silent key source w) as (status & w' & E & _ & _ & H).
  rewrite E. exact (H (or_intror eq_refl)).
Defined.

End LastSamples.
